(** * libultrahdr: gain-map pipeline, geometric editor and assembler

    A shallow embedding of the parts of [lib/src/ultrahdr.cpp] and
    [lib/src/editorhelper.cpp] that the specification talks about, followed
    by the properties established for them.

    Conventions of the embedding.
    - A pointer is either null ([None]) or a block identifier with an offset;
      pixel memory maps every cell of every block to an integer.  Block
      extents are not tracked: an access outside the allocation, which C
      leaves undefined, simply reads or writes the cell at that offset.
    - [size_t] and [int] values are integers of [Z]; the conversions the
      source performs between them are written out with [to_size_t] and
      [to_int].  Address arithmetic is exact.
    - [float] is IEEE-754 binary32, taken from the Standard Library's
      executable specification of floating-point numbers.
    - A struct passed by pointer is passed as an [option] of the record and
      handed back in the result. *)

From Stdlib Require Import ZArith List Bool Lia String Ascii.
From Stdlib Require Import Floats.SpecFloat.
Import ListNotations.
Local Open Scope Z_scope.

(* ================================================================== *)
(** * Machine integers                                                  *)
(* ================================================================== *)

Module CInt.

(** Conversion to [size_t] (64 bits, unsigned). *)
Definition to_size_t (z : Z) : Z := z mod 2 ^ 64.

(** Conversion to [int] (32 bits, two's complement). *)
Definition to_int (z : Z) : Z := (z + 2 ^ 31) mod 2 ^ 32 - 2 ^ 31.

(** Conversion to [uint8_t] and [uint16_t]. *)
Definition to_uint8 (z : Z) : Z := z mod 2 ^ 8.
Definition to_uint16 (z : Z) : Z := z mod 2 ^ 16.

Definition INT_MAX : Z := 2 ^ 31 - 1.

End CInt.
Export CInt.

(* ================================================================== *)
(** * binary32                                                          *)
(* ================================================================== *)

Module F32.

Definition prec : Z := 24.
Definition emax : Z := 128.

Definition float := spec_float.

(** The float nearest to an integer literal such as [203.0f]. *)
Definition of_Z (z : Z) : float := binary_normalize prec emax z 0 false.

Definition div : float -> float -> float := SFdiv prec emax.

Definition eqb : float -> float -> bool := SFeqb.
Definition ltb : float -> float -> bool := SFltb.
Definition leb : float -> float -> bool := SFleb.

(** C's [!=]: true as soon as one side is a NaN. *)
Definition neb (x y : float) : bool := negb (eqb x y).

(** [std::min(a, b)] is [b < a ? b : a]. *)
Definition min (a b : float) : float := if ltb b a then b else a.

Definition zero : float := S754_zero false.
Definition one : float := of_Z 1.

End F32.

(* ================================================================== *)
(** * Pixel memory                                                      *)
(* ================================================================== *)

Definition block := Z.

Record ptr := mkptr { blk : block; off : Z }.

Definition mem := block -> Z -> Z.

(** [p + k] *)
Definition padd (p : ptr) (k : Z) : ptr := mkptr (blk p) (off p + k).

(** [*p] and [*p = v] for byte cells *)
Definition load (m : mem) (p : ptr) : Z := m (blk p) (off p).

Definition store (m : mem) (p : ptr) (v : Z) : mem :=
  fun b o => if (b =? blk p) && (o =? off p) then v else m b o.

(** A [uint16_t] read through a pointer to 16-bit words: [p[i]].  The two
    bytes are combined least significant first. *)
Definition load16 (m : mem) (p : ptr) (i : Z) : Z :=
  load m (padd p (2 * i)) + 2 ^ 8 * load m (padd p (2 * i + 1)).

(** Stores of 16-, 32- and 64-bit values, least significant byte first. *)
Fixpoint store_le (n : nat) (m : mem) (p : ptr) (v : Z) : mem :=
  match n with
  | O => m
  | S k => store_le k (store m p (v mod 2 ^ 8)) (padd p 1) (v / 2 ^ 8)
  end.

(** [memcpy(dst, src, n)]: the [n] bytes are taken from memory as it is
    before the call. *)
Definition memcpy (m : mem) (dst src : ptr) (n : Z) : mem :=
  fun b o =>
    if (b =? blk dst) && (off dst <=? o) && (o <? off dst + n)
    then m (blk src) (off src + (o - off dst))
    else m b o.

(** [memset(dst, v, n)] *)
Definition memset (m : mem) (dst : ptr) (v : Z) (n : Z) : mem :=
  fun b o =>
    if (b =? blk dst) && (off dst <=? o) && (o <? off dst + n)
    then v
    else m b o.

(** The heap together with the next block [new] hands out. *)
Record world := mkworld { heap : mem; next_block : block }.

(** [new uint8_t[n]] that succeeds: a block nobody else holds, contents as
    found.  A request is never refused here and a block carries no extent.
    Where the code computes the length itself, in an [int], the properties
    stated of it take the length to be a valid one as a hypothesis, and say
    which cells of the block are written. *)
Definition new_array (w : world) (n : Z) : ptr * world :=
  (mkptr (next_block w) 0, mkworld (heap w) (next_block w + 1)).

(** [for (i = 0; i < n; i++) body] over a state [S]. *)
Fixpoint for_loop {S : Type} (n : nat) (body : Z -> S -> S) (s : S) : S :=
  match n with
  | O => s
  | Datatypes.S k => body (Z.of_nat k) (for_loop k body s)
  end.

(* ================================================================== *)
(** * Declarations of [ultrahdr.h]                                      *)
(* ================================================================== *)

Inductive ultrahdr_color_gamut :=
| ULTRAHDR_COLORGAMUT_UNSPECIFIED
| ULTRAHDR_COLORGAMUT_BT709
| ULTRAHDR_COLORGAMUT_P3
| ULTRAHDR_COLORGAMUT_BT2100.

Inductive ultrahdr_transfer_function :=
| ULTRAHDR_TF_UNSPECIFIED
| ULTRAHDR_TF_LINEAR
| ULTRAHDR_TF_HLG
| ULTRAHDR_TF_PQ
| ULTRAHDR_TF_SRGB.

Inductive ultrahdr_output_format :=
| ULTRAHDR_OUTPUT_UNSPECIFIED
| ULTRAHDR_OUTPUT_SDR
| ULTRAHDR_OUTPUT_HDR_LINEAR
| ULTRAHDR_OUTPUT_HDR_LINEAR_RGB_10BIT
| ULTRAHDR_OUTPUT_HDR_PQ
| ULTRAHDR_OUTPUT_HDR_HLG.

Inductive ultrahdr_pixel_format :=
| ULTRAHDR_PIX_FMT_UNSPECIFIED
| ULTRAHDR_PIX_FMT_P010
| ULTRAHDR_PIX_FMT_YUV420
| ULTRAHDR_PIX_FMT_MONOCHROME
| ULTRAHDR_PIX_FMT_RGBA8888
| ULTRAHDR_PIX_FMT_RGBAF16
| ULTRAHDR_PIX_FMT_RGBA1010102.

Inductive status_t :=
| ULTRAHDR_NO_ERROR
| ULTRAHDR_UNKNOWN_ERROR
| ERROR_ULTRAHDR_BAD_PTR
| ERROR_ULTRAHDR_UNSUPPORTED_WIDTH_HEIGHT
| ERROR_ULTRAHDR_INVALID_COLORGAMUT
| ERROR_ULTRAHDR_INVALID_STRIDE
| ERROR_ULTRAHDR_INVALID_TRANS_FUNC
| ERROR_ULTRAHDR_RESOLUTION_MISMATCH
| ERROR_ULTRAHDR_INVALID_QUALITY_FACTOR
| ERROR_ULTRAHDR_INVALID_DISPLAY_BOOST
| ERROR_ULTRAHDR_INVALID_OUTPUT_FORMAT
| ERROR_ULTRAHDR_BAD_METADATA
| ERROR_ULTRAHDR_INVALID_CROPPING_PARAMETERS
| ERROR_ULTRAHDR_ENCODE_ERROR
| ERROR_ULTRAHDR_DECODE_ERROR
| ERROR_ULTRAHDR_GAIN_MAP_IMAGE_NOT_FOUND
| ERROR_ULTRAHDR_BUFFER_TOO_SMALL
| ERROR_ULTRAHDR_METADATA_ERROR
| ERROR_ULTRAHDR_NO_IMAGES_FOUND
| ERROR_ULTRAHDR_MULTIPLE_EXIFS_RECEIVED
| ERROR_ULTRAHDR_UNSUPPORTED_MAP_SCALE_FACTOR
| ERROR_ULTRAHDR_UNSUPPORTED_FEATURE.

Definition gamut_eqb (a b : ultrahdr_color_gamut) : bool :=
  match a, b with
  | ULTRAHDR_COLORGAMUT_UNSPECIFIED, ULTRAHDR_COLORGAMUT_UNSPECIFIED
  | ULTRAHDR_COLORGAMUT_BT709, ULTRAHDR_COLORGAMUT_BT709
  | ULTRAHDR_COLORGAMUT_P3, ULTRAHDR_COLORGAMUT_P3
  | ULTRAHDR_COLORGAMUT_BT2100, ULTRAHDR_COLORGAMUT_BT2100 => true
  | _, _ => false
  end.

Definition pixfmt_eqb (a b : ultrahdr_pixel_format) : bool :=
  match a, b with
  | ULTRAHDR_PIX_FMT_UNSPECIFIED, ULTRAHDR_PIX_FMT_UNSPECIFIED
  | ULTRAHDR_PIX_FMT_P010, ULTRAHDR_PIX_FMT_P010
  | ULTRAHDR_PIX_FMT_YUV420, ULTRAHDR_PIX_FMT_YUV420
  | ULTRAHDR_PIX_FMT_MONOCHROME, ULTRAHDR_PIX_FMT_MONOCHROME
  | ULTRAHDR_PIX_FMT_RGBA8888, ULTRAHDR_PIX_FMT_RGBA8888
  | ULTRAHDR_PIX_FMT_RGBAF16, ULTRAHDR_PIX_FMT_RGBAF16
  | ULTRAHDR_PIX_FMT_RGBA1010102, ULTRAHDR_PIX_FMT_RGBA1010102 => true
  | _, _ => false
  end.

(** [struct ultrahdr_metadata_struct] *)
Record ultrahdr_metadata_struct := mkmetadata {
  version : string;
  maxContentBoost : F32.float;
  minContentBoost : F32.float;
  gamma : F32.float;
  offsetSdr : F32.float;
  offsetHdr : F32.float;
  hdrCapacityMin : F32.float;
  hdrCapacityMax : F32.float
}.

(** [struct ultrahdr_uncompressed_struct].  [width], [height] and the two
    strides are [size_t]. *)
Record ultrahdr_uncompressed_struct := mkimage {
  data : option ptr;
  width : Z;
  height : Z;
  colorGamut : ultrahdr_color_gamut;
  chroma_data : option ptr;
  luma_stride : Z;
  chroma_stride : Z;
  pixelFormat : ultrahdr_pixel_format
}.

(** [struct ultrahdr_compressed_struct]: the bytes behind [data], and the
    [int] fields [length] and [maxLength]. *)
Record ultrahdr_compressed_struct := mkcompressed {
  cdata : option (list Z);
  length : Z;
  maxLength : Z;
  ccolorGamut : ultrahdr_color_gamut
}.

(** The current gain map image version that we encode to *)
Definition kGainMapVersion : string := "1.0".

(** Map is quarter res / sixteenth size *)
Definition kMapDimensionScaleFactor : Z := 4.

Definition kJobSzInRows : Z := 16.

Definition MAX_BUFFER_SIZE : Z := 3840 * 2160 * 3 / 2.

(** What a call can end in: a returned value, behaviour C leaves undefined
    (a division by zero, a null dereference), or a loop still running when
    the fuel given to it was used up. *)
Inductive outcome (A : Type) :=
| Returns (a : A)
| Undefined
| OutOfFuel.
Arguments Returns {A} a.
Arguments Undefined {A}.
Arguments OutOfFuel {A}.

(* ================================================================== *)
(** * The colour kernel, as far as the pipeline names it                *)
(* ================================================================== *)

(** The functions [generateGainMap] selects by [switch]. *)
Inductive ColorTransformFn :=
| identityConversion
| hlgInvOetf | hlgInvOetfLUT
| pqInvOetf | pqInvOetfLUT
| srgbYuvToRgb | p3YuvToRgb | bt2100YuvToRgb
| getHdrConversionFn (sdr_gamut hdr_gamut : ultrahdr_color_gamut).

Inductive ColorCalculationFn :=
| srgbLuminance | p3Luminance | bt2100Luminance.

(** Modelled from the spec: the nit levels of [gainmapmath.h], which is not
    among the sources.  Section 4.3 gives [sdrWhiteNits = 203],
    [hdrWhiteNits = 1000] for HLG and LINEAR and [10000] for PQ. *)
Definition kSdrWhiteNits : F32.float := F32.of_Z 203.
Definition kHlgMaxNits : F32.float := F32.of_Z 1000.
Definition kPqMaxNits : F32.float := F32.of_Z 10000.

(** The transfer functions the generator has a case for. *)
Definition known_transfer (hdr_tf : ultrahdr_transfer_function) : Prop :=
  hdr_tf = ULTRAHDR_TF_LINEAR \/ hdr_tf = ULTRAHDR_TF_HLG
  \/ hdr_tf = ULTRAHDR_TF_PQ.

(** [GetCPUCoreCount], from what the platform reports. *)
Definition GetCPUCoreCount (reported : Z) : Z :=
  if reported <=? 0 then 1 else reported.

(** The loop that cuts the rows [0, limit) into jobs:
    [for (rowStart = 0; rowStart < limit;) { rowEnd = min(rowStart + rowStep,
    limit); enqueueJob(rowStart, rowEnd); rowStart = rowEnd; }].  [rowStart]
    and [limit] are [size_t]; [conv] is the conversion to the type [rowEnd]
    is declared with. *)
Fixpoint enqueue_rows (conv : Z -> Z) (fuel : nat) (rowStart rowStep limit : Z)
  : option (list (Z * Z)) :=
  match fuel with
  | O => None
  | Datatypes.S f =>
      if rowStart <? limit then
        let rowEnd := conv (Z.min (to_size_t (rowStart + rowStep)) limit) in
        match enqueue_rows conv f (to_size_t rowEnd) rowStep limit with
        | Some q => Some ((rowStart, to_size_t rowEnd) :: q)
        | None => None
        end
      else Some []
  end.

(** A worker draining the queue: every job is a range of rows, every row a
    run of [cols] pixels.  The jobs cover disjoint rows and a pixel is
    written from the inputs alone, so the order in which the threads take
    the jobs does not show in the result; the queue is drained in order
    here. *)
Definition drain_jobs (jobs : list (Z * Z)) (cols : Z)
  (pixel : Z -> Z -> mem -> mem) (m : mem) : mem :=
  fold_left
    (fun m job =>
       let '(rowStart, rowEnd) := job in
       for_loop (Z.to_nat (rowEnd - rowStart))
         (fun k m =>
            let y := rowStart + k in
            for_loop (Z.to_nat cols) (fun x m => pixel x y m) m)
         m)
    jobs m.

Section GainMap.

(** Build switches of the kernel's lookup tables. *)
Variable USE_HLG_INVOETF_LUT USE_PQ_INVOETF_LUT : bool.

(** What [sysconf(_SC_NPROCESSORS_ONLN)] reports. *)
Variable reported_cores : Z.

(** The per-pixel colour math of [generateGainMap]'s worker: sample both
    images at [(x, y)] with the map scale factor, convert, take the two
    luminances and [encodeGain] them to a byte.  It lives in
    [gainmapmath], outside the sources, and works on floats. *)
Variable gain_sample :
  mem -> ultrahdr_uncompressed_struct -> ultrahdr_uncompressed_struct ->
  ultrahdr_metadata_struct ->
  ColorTransformFn -> ColorTransformFn -> ColorCalculationFn ->
  ColorTransformFn -> ColorTransformFn -> F32.float ->
  Z -> Z -> Z.

Definition generateGainMap_result : Type :=
  status_t * world * option ultrahdr_metadata_struct
  * option ultrahdr_uncompressed_struct.

Definition generateGainMap
  (w : world)
  (yuv420_image_ptr p010_image_ptr : option ultrahdr_uncompressed_struct)
  (hdr_tf : ultrahdr_transfer_function)
  (metadata : option ultrahdr_metadata_struct)
  (dest : option ultrahdr_uncompressed_struct)
  (sdr_is_601 : bool)
  : outcome generateGainMap_result :=
  let bad_ptr := Returns (ERROR_ULTRAHDR_BAD_PTR, w, metadata, dest) in
  match yuv420_image_ptr, p010_image_ptr, metadata, dest with
  | Some yuv, Some p010, Some md, Some _ =>
    match data yuv, chroma_data yuv, data p010, chroma_data p010 with
    | Some _, Some _, Some _, Some _ =>
      if negb (width yuv =? width p010) || negb (height yuv =? height p010)
      then Returns (ERROR_ULTRAHDR_RESOLUTION_MISMATCH, w, metadata, dest)
      else if gamut_eqb (colorGamut yuv) ULTRAHDR_COLORGAMUT_UNSPECIFIED
              || gamut_eqb (colorGamut p010) ULTRAHDR_COLORGAMUT_UNSPECIFIED
      then Returns (ERROR_ULTRAHDR_INVALID_COLORGAMUT, w, metadata, dest)
      else
        let image_width := width yuv in
        let image_height := height yuv in
        let map_width := image_width / kMapDimensionScaleFactor in
        let map_height := image_height / kMapDimensionScaleFactor in
        let '(map_data, w1) :=
          new_array w (to_size_t (map_width * map_height)) in
        let dest1 :=
          {| data := Some map_data;
             width := map_width;
             height := map_height;
             colorGamut := ULTRAHDR_COLORGAMUT_UNSPECIFIED;
             chroma_data := None;
             luma_stride := map_width;
             chroma_stride := 0;
             pixelFormat := ULTRAHDR_PIX_FMT_MONOCHROME |} in
        let tf :=
          match hdr_tf with
          | ULTRAHDR_TF_LINEAR => Some (identityConversion, kHlgMaxNits)
          | ULTRAHDR_TF_HLG =>
              Some (if USE_HLG_INVOETF_LUT then hlgInvOetfLUT else hlgInvOetf,
                    kHlgMaxNits)
          | ULTRAHDR_TF_PQ =>
              Some (if USE_PQ_INVOETF_LUT then pqInvOetfLUT else pqInvOetf,
                    kPqMaxNits)
          | _ => None
          end in
        match tf with
        | None =>
            Returns (ERROR_ULTRAHDR_INVALID_TRANS_FUNC, w1, metadata, Some dest1)
        | Some (hdrInvOetf, hdr_white_nits) =>
          let boost := F32.div hdr_white_nits kSdrWhiteNits in
          let md1 :=
            {| version := kGainMapVersion;
               maxContentBoost := boost;
               minContentBoost := F32.of_Z 1;
               gamma := F32.of_Z 1;
               offsetSdr := F32.zero;
               offsetHdr := F32.zero;
               hdrCapacityMin := F32.of_Z 1;
               hdrCapacityMax := boost |} in
          let hdrGamutConversionFn :=
            getHdrConversionFn (colorGamut yuv) (colorGamut p010) in
          let sdr_fns :=
            match colorGamut yuv with
            | ULTRAHDR_COLORGAMUT_BT709 => Some (srgbLuminance, srgbYuvToRgb)
            | ULTRAHDR_COLORGAMUT_P3 => Some (p3Luminance, p3YuvToRgb)
            | ULTRAHDR_COLORGAMUT_BT2100 => Some (bt2100Luminance, bt2100YuvToRgb)
            | ULTRAHDR_COLORGAMUT_UNSPECIFIED => None
            end in
          let hdr_fn :=
            match colorGamut p010 with
            | ULTRAHDR_COLORGAMUT_BT709 => Some srgbYuvToRgb
            | ULTRAHDR_COLORGAMUT_P3 => Some p3YuvToRgb
            | ULTRAHDR_COLORGAMUT_BT2100 => Some bt2100YuvToRgb
            | ULTRAHDR_COLORGAMUT_UNSPECIFIED => None
            end in
          match sdr_fns, hdr_fn with
          | Some (luminanceFn, sdrYuvToRgbFn0), Some hdrYuvToRgbFn =>
            let sdrYuvToRgbFn :=
              if sdr_is_601 then p3YuvToRgb else sdrYuvToRgbFn0 in
            let threads := Z.min (GetCPUCoreCount reported_cores) 4 in
            let rowStep :=
              (if threads =? 1 then image_height else kJobSzInRows)
              / kMapDimensionScaleFactor in
            match enqueue_rows to_size_t (Datatypes.S (Z.to_nat map_height))
                    0 rowStep map_height with
            | None => OutOfFuel
            | Some jobs =>
              let pixel x y m :=
                store m (padd map_data (x + y * width dest1))
                  (gain_sample m yuv p010 md1 hdrInvOetf hdrGamutConversionFn
                     luminanceFn sdrYuvToRgbFn hdrYuvToRgbFn hdr_white_nits
                     x y) in
              let m' := drain_jobs jobs (width dest1) pixel (heap w1) in
              Returns (ULTRAHDR_NO_ERROR, mkworld m' (next_block w1),
                       Some md1, Some dest1)
            end
          | _, _ =>
            Returns (ERROR_ULTRAHDR_INVALID_COLORGAMUT, w1, Some md1, Some dest1)
          end
        end
    | _, _, _, _ => bad_ptr
    end
  | _, _, _, _ => bad_ptr
  end.

End GainMap.

Section ApplyGainMap.

Variable reported_cores : Z.

(** The colour of [gainmapmath]: a triple of floats the pipeline only
    passes around. *)
Variable Color : Type.

(** The per-pixel colour math of [applyGainMap]'s worker up to
    [rgb_hdr = rgb_hdr / display_boost]: read the SDR pixel, sample the
    gain map, apply the gain.  The arguments are those the lambda
    captures, then [x] and [y]. *)
Variable recovered_pixel :
  mem -> ultrahdr_uncompressed_struct -> ultrahdr_uncompressed_struct ->
  ultrahdr_metadata_struct -> F32.float -> Z -> Z -> Z -> Color.

Variable colorToRgbaF16 : Color -> Z.
Variable colorToRgba1010102 : Color -> Z.
Variable hlgOetf pqOetf : Color -> Color.
(** [0x3ff & static_cast<uint32_t>(c * 1023.0f)] for the channels r, g, b *)
Variable channels_10bit : Color -> Z * Z * Z.

Definition writes_pixels (output_format : ultrahdr_output_format) : bool :=
  match output_format with
  | ULTRAHDR_OUTPUT_HDR_LINEAR
  | ULTRAHDR_OUTPUT_HDR_LINEAR_RGB_10BIT
  | ULTRAHDR_OUTPUT_HDR_HLG
  | ULTRAHDR_OUTPUT_HDR_PQ => true
  | _ => false
  end.

(** The [switch (output_format)] that ends the worker's loop body. *)
Definition emit_pixel (output_format : ultrahdr_output_format)
  (dest_data : ptr) (width height : Z) (pixel_idx : Z) (rgb_hdr : Color)
  (m : mem) : mem :=
  match output_format with
  | ULTRAHDR_OUTPUT_HDR_LINEAR =>
      store_le 8 m (padd dest_data (8 * pixel_idx)) (colorToRgbaF16 rgb_hdr)
  | ULTRAHDR_OUTPUT_HDR_LINEAR_RGB_10BIT =>
      let '(r, g, b) := channels_10bit rgb_hdr in
      let m := store_le 2 m (padd dest_data (2 * pixel_idx)) r in
      let m := store_le 2 m
                 (padd dest_data (2 * (width * height + pixel_idx))) g in
      store_le 2 m (padd dest_data (2 * (width * height * 2 + pixel_idx))) b
  | ULTRAHDR_OUTPUT_HDR_HLG =>
      store_le 4 m (padd dest_data (4 * pixel_idx))
        (colorToRgba1010102 (hlgOetf rgb_hdr))
  | ULTRAHDR_OUTPUT_HDR_PQ =>
      store_le 4 m (padd dest_data (4 * pixel_idx))
        (colorToRgba1010102 (pqOetf rgb_hdr))
  | _ => m
  end.

Definition applyGainMap_result : Type :=
  status_t * mem * option ultrahdr_uncompressed_struct.

Definition applyGainMap
  (m : mem)
  (yuv420_image_ptr gainmap_image_ptr : option ultrahdr_uncompressed_struct)
  (metadata : option ultrahdr_metadata_struct)
  (output_format : ultrahdr_output_format)
  (max_display_boost : F32.float)
  (dest : option ultrahdr_uncompressed_struct)
  : outcome applyGainMap_result :=
  let fail e := Returns (e, m, dest) in
  match yuv420_image_ptr, gainmap_image_ptr, metadata, dest with
  | Some yuv, Some gm, Some md, Some d =>
    match data yuv, chroma_data yuv, data gm with
    | Some _, Some _, Some _ =>
      if negb (String.eqb (version md) kGainMapVersion)
      then fail ERROR_ULTRAHDR_BAD_METADATA
      else if F32.neb (gamma md) (F32.of_Z 1)
      then fail ERROR_ULTRAHDR_BAD_METADATA
      else if F32.neb (offsetSdr md) F32.zero || F32.neb (offsetHdr md) F32.zero
      then fail ERROR_ULTRAHDR_BAD_METADATA
      else if F32.neb (hdrCapacityMin md) (minContentBoost md)
              || F32.neb (hdrCapacityMax md) (maxContentBoost md)
      then fail ERROR_ULTRAHDR_BAD_METADATA
      else if width gm =? 0 then Undefined
      else if negb (width yuv mod width gm =? 0)
      then fail ERROR_ULTRAHDR_UNSUPPORTED_MAP_SCALE_FACTOR
      else if height gm =? 0 then Undefined
      else if negb (height yuv mod height gm =? 0)
      then fail ERROR_ULTRAHDR_UNSUPPORTED_MAP_SCALE_FACTOR
      else if negb (to_size_t (width yuv * height gm)
                    =? to_size_t (height yuv * width gm))
      then fail ERROR_ULTRAHDR_UNSUPPORTED_MAP_SCALE_FACTOR
      else
        let map_scale_factor := width yuv / width gm in
        let dest1 :=
          {| data := data d;
             width := width yuv;
             height := height yuv;
             colorGamut := colorGamut yuv;
             chroma_data := chroma_data d;
             luma_stride := luma_stride d;
             chroma_stride := chroma_stride d;
             pixelFormat := pixelFormat d |} in
        let display_boost := F32.min max_display_boost (maxContentBoost md) in
        let threads := Z.min (GetCPUCoreCount reported_cores) 4 in
        let rowStep :=
          to_int (if threads =? 1 then height yuv else map_scale_factor) in
        match enqueue_rows to_int (Datatypes.S (Z.to_nat (height yuv)))
                0 rowStep (height yuv) with
        | None => OutOfFuel
        | Some jobs =>
          match data d with
          | Some dest_data =>
            let pixel x y m :=
              let rgb_hdr :=
                recovered_pixel m yuv gm md display_boost map_scale_factor
                  x y in
              emit_pixel output_format dest_data (width yuv) (height yuv)
                (x + y * width yuv) rgb_hdr m in
            Returns (ULTRAHDR_NO_ERROR,
                     drain_jobs jobs (width yuv) pixel m, Some dest1)
          | None =>
            (* the first pixel written goes through a null pointer *)
            if writes_pixels output_format
               && (0 <? width yuv) && (0 <? height yuv)
            then Undefined
            else Returns (ULTRAHDR_NO_ERROR, m, Some dest1)
          end
        end
    | _, _, _ => fail ERROR_ULTRAHDR_BAD_PTR
    end
  | _, _, _, _ => fail ERROR_ULTRAHDR_BAD_PTR
  end.

End ApplyGainMap.

(** One of the pointers [applyGainMap] tests is null: an argument, or a data
    pointer of the SDR image or of the gain map. *)
Definition null_checked_pointer
  (yuv420_image_ptr gainmap_image_ptr : option ultrahdr_uncompressed_struct)
  (metadata : option ultrahdr_metadata_struct)
  (dest : option ultrahdr_uncompressed_struct) : Prop :=
  yuv420_image_ptr = None \/ gainmap_image_ptr = None
  \/ metadata = None \/ dest = None
  \/ (exists yuv, yuv420_image_ptr = Some yuv
                  /\ (data yuv = None \/ chroma_data yuv = None))
  \/ (exists gm, gainmap_image_ptr = Some gm /\ data gm = None).

(** Metadata the applier has no support for; the comparisons on floats are
    C's. *)
Definition unsupported_metadata (md : ultrahdr_metadata_struct) : Prop :=
  version md <> kGainMapVersion
  \/ F32.neb (gamma md) (F32.of_Z 1) = true
  \/ F32.neb (offsetSdr md) F32.zero = true
  \/ F32.neb (offsetHdr md) F32.zero = true
  \/ F32.neb (hdrCapacityMin md) (minContentBoost md) = true
  \/ F32.neb (hdrCapacityMax md) (maxContentBoost md) = true.

Definition supported_metadata (md : ultrahdr_metadata_struct) : Prop :=
  version md = kGainMapVersion
  /\ F32.neb (gamma md) (F32.of_Z 1) = false
  /\ F32.neb (offsetSdr md) F32.zero = false
  /\ F32.neb (offsetHdr md) F32.zero = false
  /\ F32.neb (hdrCapacityMin md) (minContentBoost md) = false
  /\ F32.neb (hdrCapacityMax md) (maxContentBoost md) = false.

(* ================================================================== *)
(** * [UltraHdr::toneMap]                                               *)
(* ================================================================== *)

(** One 10-bit sample, stored in the upper bits of a 16-bit word, cut to
    eight bits: [uint16_t s = word >> 6; (uint8_t)((s >> 2) & 0xff)]. *)
Definition p010_to_8bit (word : Z) : Z :=
  let s := to_uint16 (Z.shiftr word 6) in
  to_uint8 (Z.land (Z.shiftr s 2) 255).

Definition toneMap_luma_row (src dest : ultrahdr_uncompressed_struct)
  (src_y_data dst_y_data : ptr) (y : Z) (m : mem) : mem :=
  let src_y_row := y * luma_stride src in
  let dst_y_row := padd dst_y_data (y * luma_stride dest) in
  let m :=
    for_loop (Z.to_nat (width src))
      (fun x m =>
         store m (padd dst_y_row x)
           (p010_to_8bit (load16 m src_y_data (src_y_row + x))))
      m in
  if negb (width dest =? luma_stride dest)
  then memset m (padd dst_y_row (width dest)) 0
         (to_size_t (luma_stride dest - width dest))
  else m.

Definition toneMap_chroma_row (src dest : ultrahdr_uncompressed_struct)
  (src_uv_data dst_u_data dst_v_data : ptr) (y : Z) (m : mem) : mem :=
  let src_uv_row := y * chroma_stride src in
  let dst_u_row := padd dst_u_data (y * chroma_stride dest) in
  let dst_v_row := padd dst_v_data (y * chroma_stride dest) in
  let m :=
    for_loop (Z.to_nat (width src / 2))
      (fun x m =>
         let u := load16 m src_uv_data (src_uv_row + Z.shiftl x 1) in
         let v := load16 m src_uv_data (src_uv_row + (Z.shiftl x 1 + 1)) in
         let m := store m (padd dst_u_row x) (p010_to_8bit u) in
         store m (padd dst_v_row x) (p010_to_8bit v))
      m in
  if negb (width dest / 2 =? chroma_stride dest)
  then
    let n := to_size_t (chroma_stride dest - width dest / 2) in
    let m := memset m (padd dst_u_row (width dest / 2)) 0 n in
    memset m (padd dst_v_row (width dest / 2)) 0 n
  else m.

Definition toneMap (m : mem) (src dest : option ultrahdr_uncompressed_struct)
  : outcome (status_t * mem * option ultrahdr_uncompressed_struct) :=
  match src, dest with
  | Some s, Some d =>
    if negb (width s =? width d) || negb (height s =? height d)
    then Returns (ERROR_ULTRAHDR_RESOLUTION_MISMATCH, m, dest)
    else
      (* the planes are reached by arithmetic on the four data pointers *)
      match data s, data d, chroma_data s, chroma_data d with
      | Some src_y_data, Some dst_y_data, Some src_uv_data, Some dst_u_data =>
        let m :=
          for_loop (Z.to_nat (height s))
            (toneMap_luma_row s d src_y_data dst_y_data) m in
        let dst_v_offset := chroma_stride d * height d / 2 in
        let dst_v_data := padd dst_u_data dst_v_offset in
        let m :=
          for_loop (Z.to_nat (height s / 2))
            (toneMap_chroma_row s d src_uv_data dst_u_data dst_v_data) m in
        let d1 :=
          {| data := data d;
             width := width d;
             height := height d;
             colorGamut := colorGamut s;
             chroma_data := chroma_data d;
             luma_stride := luma_stride d;
             chroma_stride := chroma_stride d;
             pixelFormat := pixelFormat d |} in
        Returns (ULTRAHDR_NO_ERROR, m, Some d1)
      | _, _, _, _ => Undefined
      end
  | _, _ => Returns (ERROR_ULTRAHDR_BAD_PTR, m, dest)
  end.

(* ================================================================== *)
(** * [editorhelper.cpp]                                                *)
(* ================================================================== *)

Inductive ultrahdr_mirroring_direction :=
| ULTRAHDR_MIRROR_VERTICAL
| ULTRAHDR_MIRROR_HORIZONTAL.

(** The four structs derived from [ultrahdr_effect]. *)
Inductive ultrahdr_effect :=
| ultrahdr_crop_effect (left right top bottom : Z)
| ultrahdr_mirror_effect (mirror_dir : ultrahdr_mirroring_direction)
| ultrahdr_rotate_effect (clockwise_degree : Z)
| ultrahdr_resize_effect (new_width new_height : Z).

Module Editor.

Definition result : Type :=
  status_t * mem * option ultrahdr_uncompressed_struct.

(** [pixelFormat != YUV420 && pixelFormat != MONOCHROME] *)
Definition unsupported_format (i : ultrahdr_uncompressed_struct) : bool :=
  negb (pixfmt_eqb (pixelFormat i) ULTRAHDR_PIX_FMT_YUV420)
  && negb (pixfmt_eqb (pixelFormat i) ULTRAHDR_PIX_FMT_MONOCHROME).

Definition is_monochrome (i : ultrahdr_uncompressed_struct) : bool :=
  pixfmt_eqb (pixelFormat i) ULTRAHDR_PIX_FMT_MONOCHROME.

(** [int in_luma_stride = luma_stride != 0 ? luma_stride : width] *)
Definition in_luma_stride_of (i : ultrahdr_uncompressed_struct) : Z :=
  to_int (if negb (luma_stride i =? 0) then luma_stride i else width i).

(** [int in_chroma_stride = chroma_stride != 0 ? chroma_stride
                                               : (in_luma_stride >> 1)] *)
Definition in_chroma_stride_of (i : ultrahdr_uncompressed_struct) : Z :=
  to_int (if negb (chroma_stride i =? 0) then chroma_stride i
          else Z.shiftr (in_luma_stride_of i) 1).

(** [src = chroma_data; if (src == nullptr) src = data + in_luma_stride *
    height] *)
Definition chroma_src (i : ultrahdr_uncompressed_struct) (in_data : ptr)
  : ptr :=
  match chroma_data i with
  | Some p => p
  | None => padd in_data (in_luma_stride_of i * height i)
  end.

(** The shape of every pixel loop of the editor:
    [for (i < rows) for (j < cols) *(dest + dst_at i j) = *(src + src_at i j)]. *)
Definition copy_cells (rows cols : Z) (dest src : ptr)
  (dst_at src_at : Z -> Z -> Z) (m : mem) : mem :=
  for_loop (Z.to_nat rows)
    (fun i m =>
       for_loop (Z.to_nat cols)
         (fun j m =>
            store m (padd dest (dst_at i j)) (load m (padd src (src_at i j))))
         m)
    m.

(** [for (i < rows) memcpy(dest + dst_row i, src + src_row i, n)] *)
Definition copy_rows (rows : Z) (dest src : ptr)
  (dst_row src_row : Z -> Z) (n : Z) (m : mem) : mem :=
  for_loop (Z.to_nat rows)
    (fun i m => memcpy m (padd dest (dst_row i)) (padd src (src_row i)) n)
    m.

Definition crop (m : mem) (in_img : option ultrahdr_uncompressed_struct)
  (left right top bottom : Z)
  (out_img : option ultrahdr_uncompressed_struct) : result :=
  match in_img, out_img with
  | Some i, Some o =>
    match data i, data o with
    | Some in_data, Some out_data =>
      if (left <? 0) || (width i <=? to_size_t right)
         || (top <? 0) || (height i <=? to_size_t bottom)
      then (ERROR_ULTRAHDR_INVALID_CROPPING_PARAMETERS, m, out_img)
      else if unsupported_format i
      then (ERROR_ULTRAHDR_UNSUPPORTED_FEATURE, m, out_img)
      else
        let in_luma_stride := in_luma_stride_of i in
        let out_width := to_size_t (right - left + 1) in
        let out_height := to_size_t (bottom - top + 1) in
        let out_luma_stride := out_width in
        let src := padd in_data (in_luma_stride * top + left) in
        let m :=
          copy_rows out_height out_data src
            (fun r => r * out_luma_stride) (fun r => r * in_luma_stride)
            out_width m in
        if is_monochrome i then
          (ULTRAHDR_NO_ERROR, m,
           Some {| data := data o; width := out_width; height := out_height;
                   colorGamut := colorGamut i;
                   chroma_data := chroma_data o;
                   luma_stride := out_luma_stride;
                   chroma_stride := chroma_stride o;
                   pixelFormat := pixelFormat i |})
        else
          let in_chroma_stride := in_chroma_stride_of i in
          let out_chroma_stride := out_luma_stride / 2 in
          let out_chroma := padd out_data (out_luma_stride * out_height) in
          let src :=
            padd (chroma_src i in_data)
              (in_chroma_stride * Z.quot top 2 + Z.quot left 2) in
          let m :=
            copy_rows out_height out_chroma src
              (fun r => r * out_chroma_stride) (fun r => r * in_chroma_stride)
              (out_width / 2) m in
          (ULTRAHDR_NO_ERROR, m,
           Some {| data := data o; width := out_width; height := out_height;
                   colorGamut := colorGamut i;
                   chroma_data := Some out_chroma;
                   luma_stride := out_luma_stride;
                   chroma_stride := out_chroma_stride;
                   pixelFormat := pixelFormat i |})
    | _, _ => (ERROR_ULTRAHDR_BAD_PTR, m, out_img)
    end
  | _, _ => (ERROR_ULTRAHDR_BAD_PTR, m, out_img)
  end.

Definition mirror (m : mem) (in_img : option ultrahdr_uncompressed_struct)
  (mirror_dir : ultrahdr_mirroring_direction)
  (out_img : option ultrahdr_uncompressed_struct) : result :=
  match in_img, out_img with
  | Some i, Some o =>
    match data i, data o with
    | Some in_data, Some out_data =>
      if unsupported_format i
      then (ERROR_ULTRAHDR_UNSUPPORTED_FEATURE, m, out_img)
      else
        let in_luma_stride := in_luma_stride_of i in
        let out_width := width i in
        let out_height := height i in
        let out_luma_stride := to_size_t in_luma_stride in
        let m :=
          match mirror_dir with
          | ULTRAHDR_MIRROR_VERTICAL =>
              copy_rows out_height out_data in_data
                (fun r => (out_height - r - 1) * out_luma_stride)
                (fun r => r * in_luma_stride) out_width m
          | ULTRAHDR_MIRROR_HORIZONTAL =>
              copy_cells out_height out_width out_data in_data
                (fun r c => r * out_luma_stride + c)
                (fun r c => r * in_luma_stride + (width i - c - 1)) m
          end in
        if is_monochrome i then
          (ULTRAHDR_NO_ERROR, m,
           Some {| data := data o; width := out_width; height := out_height;
                   colorGamut := colorGamut i;
                   chroma_data := chroma_data o;
                   luma_stride := out_luma_stride;
                   chroma_stride := chroma_stride o;
                   pixelFormat := pixelFormat i |})
        else
          let in_chroma_stride := in_chroma_stride_of i in
          let out_chroma_stride := out_luma_stride / 2 in
          let out_chroma := padd out_data (out_luma_stride * out_height) in
          let src_u := chroma_src i in_data in
          let dest_u := out_chroma in
          let src_v := padd src_u (in_chroma_stride * (height i / 2)) in
          let dest_v := padd dest_u (out_chroma_stride * (out_height / 2)) in
          let plane dest src m :=
            match mirror_dir with
            | ULTRAHDR_MIRROR_VERTICAL =>
                copy_rows (out_height / 2) dest src
                  (fun r => (out_height / 2 - r - 1) * out_chroma_stride)
                  (fun r => r * in_chroma_stride) (out_width / 2) m
            | ULTRAHDR_MIRROR_HORIZONTAL =>
                copy_cells (out_height / 2) (out_width / 2) dest src
                  (fun r c => r * out_chroma_stride + c)
                  (fun r c => r * in_chroma_stride + (width i / 2 - c - 1)) m
            end in
          let m := plane dest_u src_u m in
          let m := plane dest_v src_v m in
          (ULTRAHDR_NO_ERROR, m,
           Some {| data := data o; width := out_width; height := out_height;
                   colorGamut := colorGamut i;
                   chroma_data := Some out_chroma;
                   luma_stride := out_luma_stride;
                   chroma_stride := out_chroma_stride;
                   pixelFormat := pixelFormat i |})
    | _, _ => (ERROR_ULTRAHDR_BAD_PTR, m, out_img)
    end
  | _, _ => (ERROR_ULTRAHDR_BAD_PTR, m, out_img)
  end.

Definition rotate (m : mem) (in_img : option ultrahdr_uncompressed_struct)
  (clockwise_degree : Z)
  (out_img : option ultrahdr_uncompressed_struct) : result :=
  match in_img, out_img with
  | Some i, Some o =>
    match data i, data o with
    | Some in_data, Some out_data =>
      if negb (clockwise_degree =? 90) && negb (clockwise_degree =? 180)
         && negb (clockwise_degree =? 270)
      then (ERROR_ULTRAHDR_INVALID_CROPPING_PARAMETERS, m, out_img)
      else if unsupported_format i
      then (ERROR_ULTRAHDR_UNSUPPORTED_FEATURE, m, out_img)
      else
        let in_luma_stride := in_luma_stride_of i in
        let '(out_width, out_height, out_luma_stride, m) :=
          if clockwise_degree =? 90 then
            let out_width := height i in
            let out_height := width i in
            let out_luma_stride := out_width in
            (out_width, out_height, out_luma_stride,
             copy_cells out_height out_width out_data in_data
               (fun r c => r * out_luma_stride + c)
               (fun r c => (height i - c - 1) * in_luma_stride + r) m)
          else if clockwise_degree =? 180 then
            let out_width := width i in
            let out_height := height i in
            let out_luma_stride := to_size_t in_luma_stride in
            (out_width, out_height, out_luma_stride,
             copy_cells out_height out_width out_data in_data
               (fun r c => r * out_luma_stride + c)
               (fun r c => (height i - r - 1) * in_luma_stride
                           + (width i - c - 1)) m)
          else if clockwise_degree =? 270 then
            let out_width := height i in
            let out_height := width i in
            let out_luma_stride := out_width in
            (out_width, out_height, out_luma_stride,
             copy_cells out_height out_width out_data in_data
               (fun r c => r * out_luma_stride + c)
               (fun r c => c * in_luma_stride + (width i - r - 1)) m)
          else (width o, height o, luma_stride o, m) in
        if is_monochrome i then
          (ULTRAHDR_NO_ERROR, m,
           Some {| data := data o; width := out_width; height := out_height;
                   colorGamut := colorGamut i;
                   chroma_data := chroma_data o;
                   luma_stride := out_luma_stride;
                   chroma_stride := chroma_stride o;
                   pixelFormat := pixelFormat i |})
        else
          let in_chroma_stride := in_chroma_stride_of i in
          let out_chroma_stride := out_luma_stride / 2 in
          let out_chroma := padd out_data (out_luma_stride * out_height) in
          let src_u := chroma_src i in_data in
          let dest_u := out_chroma in
          let src_v := padd src_u (in_chroma_stride * (height i / 2)) in
          let dest_v := padd dest_u (out_chroma_stride * (out_height / 2)) in
          let plane chroma_from dest src m :=
            copy_cells (out_height / 2) (out_width / 2) dest src
              (fun r c => r * out_chroma_stride + c) chroma_from m in
          let m :=
            if clockwise_degree =? 90 then
              let from r c := (height i / 2 - c - 1) * in_chroma_stride + r in
              plane from dest_v src_v (plane from dest_u src_u m)
            else if clockwise_degree =? 180 then
              let from r c :=
                (height i / 2 - r - 1) * in_chroma_stride
                + (width i / 2 - c - 1) in
              plane from dest_v src_v (plane from dest_u src_u m)
            else if clockwise_degree =? 270 then
              let from r c := c * in_chroma_stride + (width i / 2 - r - 1) in
              plane from dest_v src_v (plane from dest_u src_u m)
            else m in
          (ULTRAHDR_NO_ERROR, m,
           Some {| data := data o; width := out_width; height := out_height;
                   colorGamut := colorGamut i;
                   chroma_data := Some out_chroma;
                   luma_stride := out_luma_stride;
                   chroma_stride := out_chroma_stride;
                   pixelFormat := pixelFormat i |})
    | _, _ => (ERROR_ULTRAHDR_BAD_PTR, m, out_img)
    end
  | _, _ => (ERROR_ULTRAHDR_BAD_PTR, m, out_img)
  end.

Definition resize (m : mem) (in_img : option ultrahdr_uncompressed_struct)
  (out_width out_height : Z)
  (out_img : option ultrahdr_uncompressed_struct) : result :=
  match in_img, out_img with
  | Some i, Some o =>
    match data i, data o with
    | Some in_data, Some out_data =>
      if unsupported_format i
      then (ERROR_ULTRAHDR_UNSUPPORTED_FEATURE, m, out_img)
      else
        let in_luma_stride := in_luma_stride_of i in
        let out_w := to_size_t out_width in
        let out_h := to_size_t out_height in
        let out_luma_stride := out_w in
        (* a division is only reached inside the loops, where the
           divisor is positive *)
        let m :=
          copy_cells out_h out_w out_data in_data
            (fun r c => r * out_luma_stride + c)
            (fun r c => r * height i / out_h * in_luma_stride
                        + c * width i / out_w) m in
        if is_monochrome i then
          (ULTRAHDR_NO_ERROR, m,
           Some {| data := data o; width := out_w; height := out_h;
                   colorGamut := colorGamut i;
                   chroma_data := chroma_data o;
                   luma_stride := out_luma_stride;
                   chroma_stride := chroma_stride o;
                   pixelFormat := pixelFormat i |})
        else
          let in_chroma_stride := in_chroma_stride_of i in
          let out_chroma_stride := out_luma_stride / 2 in
          let out_chroma := padd out_data (out_luma_stride * out_h) in
          let src := chroma_src i in_data in
          let m :=
            copy_cells out_h (out_w / 2) out_chroma src
              (fun r c => r * out_chroma_stride + c)
              (fun r c => r * height i / out_h * in_chroma_stride
                          + c * width i / out_w) m in
          (ULTRAHDR_NO_ERROR, m,
           Some {| data := data o; width := out_w; height := out_h;
                   colorGamut := colorGamut i;
                   chroma_data := Some out_chroma;
                   luma_stride := out_luma_stride;
                   chroma_stride := out_chroma_stride;
                   pixelFormat := pixelFormat i |})
    | _, _ => (ERROR_ULTRAHDR_BAD_PTR, m, out_img)
    end
  | _, _ => (ERROR_ULTRAHDR_BAD_PTR, m, out_img)
  end.

(** The local [ultrahdr_uncompressed_struct tmp;] of [addEffects]: the
    members with a default initializer have it, the others hold whatever
    the stack held, given here by [junk]. *)
Definition uninitialized_struct (junk : ultrahdr_uncompressed_struct)
  : ultrahdr_uncompressed_struct :=
  {| data := data junk; width := width junk; height := height junk;
     colorGamut := colorGamut junk;
     chroma_data := None; luma_stride := 0; chroma_stride := 0;
     pixelFormat := ULTRAHDR_PIX_FMT_UNSPECIFIED |}.

(** [int size = ...; if (!isSingleChannel) size = size * 3 / 2;] *)
Definition buffer_size (isSingleChannel : bool) (pixels : Z) : Z :=
  let size := to_int pixels in
  if negb isSingleChannel then Z.quot (size * 3) 2 else size.

Definition set_data (p : ptr) (s : ultrahdr_uncompressed_struct)
  : ultrahdr_uncompressed_struct :=
  {| data := Some p; width := width s; height := height s;
     colorGamut := colorGamut s; chroma_data := chroma_data s;
     luma_stride := luma_stride s; chroma_stride := chroma_stride s;
     pixelFormat := pixelFormat s |}.

(** The state the loop over the effects carries: the heap and allocator,
    [tmp], the struct behind [last], the struct behind [out_img]. *)
Record effects_state := mkstate {
  st_world : world;
  st_tmp : ultrahdr_uncompressed_struct;
  st_last : ultrahdr_uncompressed_struct;
  st_out : ultrahdr_uncompressed_struct
}.

(** One turn of [for (auto e : effects)].  The status the effect returns
    is not looked at. *)
Definition apply_effect (isSingleChannel : bool) (out_data : ptr)
  (st : effects_state) (e : ultrahdr_effect) : effects_state :=
  let w := st_world st in
  let last := st_last st in
  let size :=
    match e with
    | ultrahdr_crop_effect l r t b =>
        buffer_size isSingleChannel ((b - t + 1) * (r - l + 1))
    | ultrahdr_mirror_effect _ | ultrahdr_rotate_effect _ =>
        buffer_size isSingleChannel (to_size_t (width last * height last))
    | ultrahdr_resize_effect new_width new_height =>
        buffer_size isSingleChannel (new_width * new_height)
    end in
  let '(tmp_data, w) := new_array w (to_size_t size) in
  let tmp := set_data tmp_data (st_tmp st) in
  let '(_, m, tmp') :=
    match e with
    | ultrahdr_crop_effect l r t b =>
        crop (heap w) (Some last) l r t b (Some tmp)
    | ultrahdr_mirror_effect mirror_dir =>
        mirror (heap w) (Some last) mirror_dir (Some tmp)
    | ultrahdr_rotate_effect clockwise_degree =>
        rotate (heap w) (Some last) clockwise_degree (Some tmp)
    | ultrahdr_resize_effect new_width new_height =>
        resize (heap w) (Some last) new_width new_height (Some tmp)
    end in
  let tmp := match tmp' with Some t => t | None => tmp end in
  (* deep copy *)
  let m := memcpy m out_data tmp_data (to_size_t size) in
  let out := st_out st in
  let out :=
    {| data := data out; width := width tmp; height := height tmp;
       colorGamut := colorGamut tmp;
       chroma_data :=
         if negb isSingleChannel
         then Some (padd out_data (luma_stride tmp * height tmp))
         else chroma_data out;
       luma_stride := luma_stride tmp; chroma_stride := chroma_stride tmp;
       pixelFormat := pixelFormat tmp |} in
  mkstate (mkworld m (next_block w)) tmp out out.

Definition addEffects (w : world) (junk : ultrahdr_uncompressed_struct)
  (in_img : option ultrahdr_uncompressed_struct)
  (effects : list ultrahdr_effect)
  (out_img : option ultrahdr_uncompressed_struct)
  : status_t * world * option ultrahdr_uncompressed_struct :=
  match in_img, out_img with
  | Some i, Some o =>
    match data i, data o with
    | Some in_data, Some out_data =>
      let isSingleChannel := is_monochrome i in
      let tmp := uninitialized_struct junk in
      let size := buffer_size isSingleChannel (to_size_t (width i * height i)) in
      let out :=
        {| data := data o; width := width i; height := height i;
           colorGamut := colorGamut i; chroma_data := chroma_data o;
           luma_stride := luma_stride i; chroma_stride := chroma_stride i;
           pixelFormat := pixelFormat i |} in
      let m := memcpy (heap w) out_data in_data (to_size_t size) in
      let st :=
        fold_left (apply_effect isSingleChannel out_data) effects
          (mkstate (mkworld m (next_block w)) tmp i out) in
      (ULTRAHDR_NO_ERROR, st_world st, Some (st_out st))
    | _, _ => (ERROR_ULTRAHDR_BAD_PTR, w, out_img)
    end
  | _, _ => (ERROR_ULTRAHDR_BAD_PTR, w, out_img)
  end.

End Editor.

(** The stride the editor reads an input's luma plane with: the declared
    one, or the width when none is declared. *)
Definition luma_stride_in_use (img : ultrahdr_uncompressed_struct) : Z :=
  if luma_stride img =? 0 then width img else luma_stride img.

(** [plane[r][c]] for a plane at [base] with rows [stride] apart *)
Definition pixel (m : mem) (base : ptr) (stride : Z) (r c : Z) : Z :=
  load m (padd base (r * stride + c)).

(* ================================================================== *)
(** * The assembler: [UltraHdr::addImage]                               *)
(* ================================================================== *)

(** [data[i]] for a compressed buffer *)
Definition byte_at (bytes : list Z) (i : nat) : Z := nth i bytes 0.

(** returns true if the input file is JPEG, JPEG_R *)
Definition isJpeg (data : option (list Z)) (len : Z) : bool :=
  match data with
  | None => false
  | Some d =>
      if len <? 3 then false
      else
        ((byte_at d 0 =? 255) && (byte_at d 1 =? 216)) || (byte_at d 2 =? 255)
  end.

(** [char brand[5]] filled from bytes 8 to 11 and compared with [strcmp]:
    two C strings are equal when they agree up to and including the first
    NUL. *)
Fixpoint c_string (bytes : list Z) : list Z :=
  match bytes with
  | [] => []
  | b :: rest => if b =? 0 then [] else b :: c_string rest
  end.

Definition ascii_codes (s : string) : list Z :=
  map (fun c => Z.of_nat (nat_of_ascii c)) (list_ascii_of_string s).

Definition strcmp_eq (brand : list Z) (s : string) : bool :=
  if list_eq_dec Z.eq_dec (c_string brand) (ascii_codes s) then true else false.

Definition brand_of (d : list Z) : list Z :=
  [byte_at d 8; byte_at d 9; byte_at d 10; byte_at d 11; 0].

(** returns true if the input file is AVIF, AVIF_R, AVIF_10_BIT *)
Definition isAvif (data : option (list Z)) (len : Z) : bool :=
  match data with
  | None => false
  | Some d =>
      if len <? 12 then false
      else strcmp_eq (brand_of d) "avif" || strcmp_eq (brand_of d) "avis"
  end.

(** returns true if the input file is HEIC, HEIC_R, HEIC_10_BIT *)
Definition isHeic (data : option (list Z)) (len : Z) : bool :=
  match data with
  | None => false
  | Some d =>
      if len <? 12 then false
      else
        existsb (strcmp_eq (brand_of d))
          ["heic"; "heix"; "heim"; "heis"; "mif1";
           "hevc"; "hevx"; "hevm"; "hevs"; "msf1"]%string
  end.

Definition isHeif (data : option (list Z)) (len : Z) : bool :=
  isHeic data len || isAvif data len.

(** The slots of the assembler.  The [unique_ptr] members that own the
    buffers behind the slots carry no information of their own. *)
Record UltraHdr := mkUltraHdr {
  sdr_jpeg_img : option ultrahdr_compressed_struct;
  sdr_heif_img : option ultrahdr_compressed_struct;
  hdr_raw_img : option ultrahdr_uncompressed_struct;
  sdr_raw_img : option ultrahdr_uncompressed_struct;
  gain_map_raw_img : option ultrahdr_uncompressed_struct;
  gain_map_metadata : option ultrahdr_metadata_struct;
  exif : option (list Z)
}.

(** [std::make_shared<ultrahdr_uncompressed_struct>()]: members without an
    initializer are zeroed, and gamut 0 is BT709. *)
Definition make_shared_uncompressed : ultrahdr_uncompressed_struct :=
  {| data := None; width := 0; height := 0;
     colorGamut := ULTRAHDR_COLORGAMUT_BT709;
     chroma_data := None; luma_stride := 0; chroma_stride := 0;
     pixelFormat := ULTRAHDR_PIX_FMT_UNSPECIFIED |}.

(** [addImage(ultrahdr_uncompressed_struct* image)] *)
Definition addImage_uncompressed (w : world) (self : UltraHdr)
  (image : option ultrahdr_uncompressed_struct)
  : outcome (status_t * world * UltraHdr) :=
  match image with
  | None =>
      (* [image == nullptr && image->data == nullptr] reads through null *)
      Undefined
  | Some img =>
    match pixelFormat img with
    | ULTRAHDR_PIX_FMT_P010 =>
      match hdr_raw_img self with
      | None =>
        let size := to_int (to_size_t (width img * height img * 3)) in
        let '(buf, w1) := new_array w (to_size_t size) in
        match data img with
        | None => Undefined
        | Some src =>
          let m := memcpy (heap w1) buf src (to_size_t size) in
          let ls := if luma_stride img =? 0 then width img else luma_stride img in
          let slot :=
            {| data := Some buf; width := width img; height := height img;
               colorGamut := colorGamut img;
               (* a pointer to 16-bit words moved by [ls * height] words *)
               chroma_data := Some (padd buf (2 * (ls * height img)));
               luma_stride := ls; chroma_stride := ls;
               pixelFormat := pixelFormat img |} in
          Returns (ULTRAHDR_NO_ERROR, mkworld m (next_block w1),
                   mkUltraHdr (sdr_jpeg_img self) (sdr_heif_img self)
                     (Some slot) (sdr_raw_img self) (gain_map_raw_img self)
                     (gain_map_metadata self) (exif self))
        end
      | Some _ => Returns (ULTRAHDR_NO_ERROR, w, self)
      end
    | ULTRAHDR_PIX_FMT_YUV420 =>
      match sdr_raw_img self with
      | None =>
        let size := to_int (to_size_t (width img * height img * 3) / 2) in
        let '(buf, w1) := new_array w (to_size_t size) in
        match data img with
        | None => Undefined
        | Some src =>
          let m := memcpy (heap w1) buf src (to_size_t size) in
          let ls := if luma_stride img =? 0 then width img else luma_stride img in
          let slot :=
            {| data := Some buf; width := width img; height := height img;
               colorGamut := colorGamut img;
               chroma_data := Some (padd buf (ls * height img));
               luma_stride := ls; chroma_stride := Z.shiftr ls 1;
               pixelFormat := pixelFormat img |} in
          Returns (ULTRAHDR_NO_ERROR, mkworld m (next_block w1),
                   mkUltraHdr (sdr_jpeg_img self) (sdr_heif_img self)
                     (hdr_raw_img self) (Some slot) (gain_map_raw_img self)
                     (gain_map_metadata self) (exif self))
        end
      | Some _ => Returns (ULTRAHDR_NO_ERROR, w, self)
      end
    | _ => Returns (ERROR_ULTRAHDR_UNSUPPORTED_FEATURE, w, self)
    end
  end.

(** What [JpegDecoderHelper] exposes after [decompressImage] succeeded. *)
Record decompressed_image := mkdecompressed {
  getDecompressedImageSize : Z;
  getDecompressedImagePtr : ptr;
  getDecompressedImageWidth : Z;
  getDecompressedImageHeight : Z;
  getXMP : list Z
}.

Section Assembler.

(** [JpegScanner::Run] over the first [length] bytes: [None] when the
    scanner reports an error, else the ranges [(begin, length)] of the
    images found (at most two are asked for). *)
Variable jpeg_scan : list Z -> option (list (Z * Z)).

(** [JpegDecoderHelper::decompressImage(data, length)]: [None] when it
    fails; the decoder owns the buffer it decodes into. *)
Variable decompressImage :
  world -> option (list Z) -> Z -> option (decompressed_image * world).

(** [getMetadataFromXMP(xmp, size, metadata)] of [jpegrutils] *)
Variable getMetadataFromXMP :
  list Z -> ultrahdr_metadata_struct -> bool * ultrahdr_metadata_struct.

(** The branch of [addImage] for HEIC and AVIF input, which is a
    conversation with libheif. *)
Variable addImage_heif :
  world -> UltraHdr -> ultrahdr_compressed_struct ->
  status_t * world * UltraHdr.

(** What the stack holds where [addImage] declares its two local
    [ultrahdr_compressed_struct]s. *)
Variable stack_junk : ultrahdr_compressed_struct.

(** [JpegR::extractPrimaryImageAndGainMap] *)
Definition extractPrimaryImageAndGainMap
  (ultrahdr_image_ptr : option ultrahdr_compressed_struct)
  (primary_jpg_image gainmap_jpg_image : ultrahdr_compressed_struct)
  : status_t * ultrahdr_compressed_struct * ultrahdr_compressed_struct :=
  match ultrahdr_image_ptr with
  | None => (ERROR_ULTRAHDR_BAD_PTR, primary_jpg_image, gainmap_jpg_image)
  | Some image =>
    let bytes := match cdata image with Some d => d | None => [] end in
    let range_of '(begin_, len) :=
      fun old : ultrahdr_compressed_struct =>
        {| cdata := Some (skipn (Z.to_nat begin_) bytes);
           length := len;
           maxLength := maxLength old;
           ccolorGamut := ccolorGamut old |} in
    match jpeg_scan (firstn (Z.to_nat (length image)) bytes) with
    | None => (ULTRAHDR_UNKNOWN_ERROR, primary_jpg_image, gainmap_jpg_image)
    | Some [] =>
        (ERROR_ULTRAHDR_NO_IMAGES_FOUND, primary_jpg_image, gainmap_jpg_image)
    | Some [r0] =>
        (ERROR_ULTRAHDR_GAIN_MAP_IMAGE_NOT_FOUND,
         range_of r0 primary_jpg_image, gainmap_jpg_image)
    | Some (r0 :: r1 :: _) =>
        (ULTRAHDR_NO_ERROR,
         range_of r0 primary_jpg_image, range_of r1 gainmap_jpg_image)
    end
  end.

(** [new uint8_t[n]; memcpy(.., src, n)] for a compressed buffer *)
Definition copy_bytes (src : option (list Z)) (n : Z) : option (list Z) :=
  match src with
  | Some d => Some (firstn (Z.to_nat n) d)
  | None => Some []
  end.

Definition set_sdr_jpeg_img (self : UltraHdr)
  (v : option ultrahdr_compressed_struct) : UltraHdr :=
  mkUltraHdr v (sdr_heif_img self) (hdr_raw_img self) (sdr_raw_img self)
    (gain_map_raw_img self) (gain_map_metadata self) (exif self).

Definition set_gain_map_raw_img (self : UltraHdr)
  (v : option ultrahdr_uncompressed_struct) : UltraHdr :=
  mkUltraHdr (sdr_jpeg_img self) (sdr_heif_img self) (hdr_raw_img self)
    (sdr_raw_img self) v (gain_map_metadata self) (exif self).

Definition set_gain_map_metadata (self : UltraHdr)
  (v : option ultrahdr_metadata_struct) : UltraHdr :=
  mkUltraHdr (sdr_jpeg_img self) (sdr_heif_img self) (hdr_raw_img self)
    (sdr_raw_img self) (gain_map_raw_img self) v (exif self).

(** [std::make_shared<ultrahdr_metadata_struct>()] *)
Definition make_shared_metadata : ultrahdr_metadata_struct :=
  mkmetadata "" F32.zero F32.zero F32.zero F32.zero F32.zero F32.zero
    F32.zero.

(** [if (sdr_jpeg_img == nullptr) { ... memcpy(.., src.data, src.length) }] *)
Definition fill_sdr_jpeg_img (self : UltraHdr)
  (src image : ultrahdr_compressed_struct) : UltraHdr :=
  match sdr_jpeg_img self with
  | None =>
      set_sdr_jpeg_img self
        (Some {| cdata := copy_bytes (cdata src) (length src);
                 length := length src;
                 maxLength := 0;
                 ccolorGamut := ccolorGamut image |})
  | Some _ => self
  end.

(** [addImage(ultrahdr_compressed_struct* image)] *)
Definition addImage_compressed (w : world) (self : UltraHdr)
  (image_ptr : option ultrahdr_compressed_struct)
  : outcome (status_t * world * UltraHdr) :=
  match image_ptr with
  | None => Undefined
  | Some image =>
    if isJpeg (cdata image) (length image) then
      (* JPEG, JPEG_R *)
      let '(err, primary_jpeg_image, gainmap_jpeg_image) :=
        extractPrimaryImageAndGainMap image_ptr stack_junk stack_junk in
      match err with
      | ULTRAHDR_NO_ERROR =>
        let self := fill_sdr_jpeg_img self primary_jpeg_image image in
        match gain_map_raw_img self, gain_map_metadata self with
        | Some _, Some _ => Returns (ULTRAHDR_NO_ERROR, w, self)
        | _, _ =>
          match decompressImage w (cdata gainmap_jpeg_image)
                  (length gainmap_jpeg_image) with
          | None => Returns (ERROR_ULTRAHDR_DECODE_ERROR, w, self)
          | Some (gm, w) =>
            let '(w, self) :=
              match gain_map_raw_img self with
              | None =>
                let size := getDecompressedImageSize gm in
                let '(buf, w1) := new_array w (to_size_t size) in
                let m :=
                  memcpy (heap w1) buf (getDecompressedImagePtr gm)
                    (to_size_t size) in
                (mkworld m (next_block w1),
                 set_gain_map_raw_img self
                   (Some {| data := Some buf;
                            width := to_size_t (getDecompressedImageWidth gm);
                            height := to_size_t (getDecompressedImageHeight gm);
                            colorGamut := colorGamut make_shared_uncompressed;
                            chroma_data := None;
                            luma_stride := 0; chroma_stride := 0;
                            pixelFormat := ULTRAHDR_PIX_FMT_UNSPECIFIED |}))
              | Some _ => (w, self)
              end in
            let '(ok, self) :=
              match gain_map_metadata self with
              | None =>
                let '(ok, md) :=
                  getMetadataFromXMP (getXMP gm) make_shared_metadata in
                (ok, set_gain_map_metadata self (Some md))
              | Some _ => (true, self)
              end in
            if negb ok then Returns (ERROR_ULTRAHDR_METADATA_ERROR, w, self)
            else
              match decompressImage w (cdata primary_jpeg_image)
                      (length primary_jpeg_image) with
              | None => Returns (ERROR_ULTRAHDR_DECODE_ERROR, w, self)
              | Some (_, w) => Returns (ULTRAHDR_NO_ERROR, w, self)
              end
          end
        end
      | _ =>
        (* normal JPEG *)
        Returns (ULTRAHDR_NO_ERROR, w, fill_sdr_jpeg_img self image image)
      end
    else if isHeif (cdata image) (length image) then
      Returns (addImage_heif w self image)
    else Returns (ERROR_ULTRAHDR_UNSUPPORTED_FEATURE, w, self)
  end.

End Assembler.

(* ================================================================== *)
(** * The planes the editor and the pixel loops work on                 *)
(* ================================================================== *)

(** The stride the editor reads an input's chroma planes with: the declared
    one, or half the luma stride when none is declared. *)
Definition chroma_stride_in_use (img : ultrahdr_uncompressed_struct) : Z :=
  if chroma_stride img =? 0 then luma_stride_in_use img / 2
  else chroma_stride img.

(** Where the editor takes an input's chroma from: the declared plane, or
    the bytes that follow the luma plane at [luma]. *)
Definition chroma_plane_in_use (img : ultrahdr_uncompressed_struct)
  (luma : ptr) : ptr :=
  match chroma_data img with
  | Some p => p
  | None => padd luma (luma_stride_in_use img * height img)
  end.

(** The rows [first, last) in increasing order, and the rows a queue of
    jobs visits when it is drained in order. *)
Definition row_range (first last : Z) : list Z :=
  map (fun k => first + Z.of_nat k) (seq 0 (Z.to_nat (last - first))).

Definition rows_of (jobs : list (Z * Z)) : list Z :=
  flat_map (fun job => row_range (fst job) (snd job)) jobs.

(* ================================================================== *)
(** * The assembler: [UltraHdr::maybeToneMapRawHdr]                    *)
(* ================================================================== *)

Definition set_sdr_raw_img (self : UltraHdr)
  (v : option ultrahdr_uncompressed_struct) : UltraHdr :=
  mkUltraHdr (sdr_jpeg_img self) (sdr_heif_img self) (hdr_raw_img self) v
    (gain_map_raw_img self) (gain_map_metadata self) (exif self).

(** [UltraHdr::maybeToneMapRawHdr] *)
Definition maybeToneMapRawHdr (w : world) (self : UltraHdr)
  : outcome (status_t * world * UltraHdr) :=
  match sdr_raw_img self, hdr_raw_img self with
  | Some _, _ | None, None => Returns (ULTRAHDR_NO_ERROR, w, self)
  | None, Some hdr =>
    (* [p010_image] is a copy of the slot's struct *)
    let ls := if luma_stride hdr =? 0 then width hdr else luma_stride hdr in
    let p010_image :=
      match chroma_data hdr with
      | Some _ =>
          {| data := data hdr; width := width hdr; height := height hdr;
             colorGamut := colorGamut hdr;
             chroma_data := chroma_data hdr;
             luma_stride := ls; chroma_stride := chroma_stride hdr;
             pixelFormat := pixelFormat hdr |}
      | None =>
          {| data := data hdr; width := width hdr; height := height hdr;
             colorGamut := colorGamut hdr;
             (* a pointer to 16-bit words moved by [ls * height] words;
                nothing can be read through it when [data] is null *)
             chroma_data :=
               match data hdr with
               | Some p => Some (padd p (2 * (ls * height hdr)))
               | None => None
               end;
             luma_stride := ls; chroma_stride := ls;
             pixelFormat := pixelFormat hdr |}
      end in
    let size :=
      to_int (to_size_t (height p010_image * width p010_image * 3) / 2) in
    let '(buf, w1) := new_array w (to_size_t size) in
    let sdr :=
      {| data := Some buf;
         width := width p010_image; height := height p010_image;
         colorGamut := colorGamut p010_image;
         chroma_data := Some (padd buf (ls * height p010_image));
         luma_stride := luma_stride p010_image;
         chroma_stride := Z.shiftr (luma_stride p010_image) 1;
         pixelFormat := ULTRAHDR_PIX_FMT_YUV420 |} in
    match toneMap (heap w1) (Some p010_image) (Some sdr) with
    | Returns (st, m, sdr') =>
        Returns (st, mkworld m (next_block w1), set_sdr_raw_img self sdr')
    | Undefined => Undefined
    | OutOfFuel => OutOfFuel
    end
  end.

(* ================================================================== *)
(** * [jpegr.cpp]: the checks of the encode entry points                *)
(* ================================================================== *)

(** The values of the enumerators in [ultrahdr.h]. *)
Definition gamut_value (g : ultrahdr_color_gamut) : Z :=
  match g with
  | ULTRAHDR_COLORGAMUT_UNSPECIFIED => -1
  | ULTRAHDR_COLORGAMUT_BT709 => 0
  | ULTRAHDR_COLORGAMUT_P3 => 1
  | ULTRAHDR_COLORGAMUT_BT2100 => 2
  end.

Definition ULTRAHDR_COLORGAMUT_MAX : ultrahdr_color_gamut :=
  ULTRAHDR_COLORGAMUT_BT2100.

Definition tf_value (tf : ultrahdr_transfer_function) : Z :=
  match tf with
  | ULTRAHDR_TF_UNSPECIFIED => -1
  | ULTRAHDR_TF_LINEAR => 0
  | ULTRAHDR_TF_HLG => 1
  | ULTRAHDR_TF_PQ => 2
  | ULTRAHDR_TF_SRGB => 3
  end.

Definition ULTRAHDR_TF_MAX : ultrahdr_transfer_function := ULTRAHDR_TF_SRGB.

(** [gamut <= ULTRAHDR_COLORGAMUT_UNSPECIFIED || gamut >
    ULTRAHDR_COLORGAMUT_MAX], the test both images go through. *)
Definition unrecognized_gamut (g : ultrahdr_color_gamut) : bool :=
  (gamut_value g <=? gamut_value ULTRAHDR_COLORGAMUT_UNSPECIFIED)
  || (gamut_value g >? gamut_value ULTRAHDR_COLORGAMUT_MAX).

Section JpegRChecks.

(** The bounds on the image size, [int] constants of [jpegr.h]; compared
    with a [size_t] they are converted to [size_t]. *)
Variable kMinWidth kMinHeight kMaxWidth kMaxHeight : Z.

(** [JpegR::areInputArgumentsValid], four arguments *)
Definition areInputArgumentsValid
  (p010_image_ptr yuv420_image_ptr : option ultrahdr_uncompressed_struct)
  (hdr_tf : ultrahdr_transfer_function)
  (dest_ptr : option ultrahdr_compressed_struct) : status_t :=
  match p010_image_ptr with
  | None => ERROR_ULTRAHDR_BAD_PTR
  | Some p010 =>
    match data p010 with
    | None => ERROR_ULTRAHDR_BAD_PTR
    | Some _ =>
      if negb (width p010 mod 2 =? 0) || negb (height p010 mod 2 =? 0)
      then ERROR_ULTRAHDR_UNSUPPORTED_WIDTH_HEIGHT
      else if (width p010 <? to_size_t kMinWidth)
              || (height p010 <? to_size_t kMinHeight)
      then ERROR_ULTRAHDR_UNSUPPORTED_WIDTH_HEIGHT
      else if (width p010 >? to_size_t kMaxWidth)
              || (height p010 >? to_size_t kMaxHeight)
      then ERROR_ULTRAHDR_UNSUPPORTED_WIDTH_HEIGHT
      else if unrecognized_gamut (colorGamut p010)
      then ERROR_ULTRAHDR_INVALID_COLORGAMUT
      else if negb (luma_stride p010 =? 0)
              && (luma_stride p010 <? width p010)
      then ERROR_ULTRAHDR_INVALID_STRIDE
      else if match chroma_data p010 with Some _ => true | None => false end
              && (chroma_stride p010 <? width p010)
      then ERROR_ULTRAHDR_INVALID_STRIDE
      else
        match dest_ptr with
        | None => ERROR_ULTRAHDR_BAD_PTR
        | Some dest =>
          match cdata dest with
          | None => ERROR_ULTRAHDR_BAD_PTR
          | Some _ =>
            if (tf_value hdr_tf <=? tf_value ULTRAHDR_TF_UNSPECIFIED)
               || (tf_value hdr_tf >? tf_value ULTRAHDR_TF_MAX)
               || (tf_value hdr_tf =? tf_value ULTRAHDR_TF_SRGB)
            then ERROR_ULTRAHDR_INVALID_TRANS_FUNC
            else
              match yuv420_image_ptr with
              | None => ULTRAHDR_NO_ERROR
              | Some yuv =>
                match data yuv with
                | None => ERROR_ULTRAHDR_BAD_PTR
                | Some _ =>
                  if negb (luma_stride yuv =? 0)
                     && (luma_stride yuv <? width yuv)
                  then ERROR_ULTRAHDR_INVALID_STRIDE
                  else if match chroma_data yuv with
                          | Some _ => true
                          | None => false
                          end
                          && (chroma_stride yuv <? width yuv / 2)
                  then ERROR_ULTRAHDR_INVALID_STRIDE
                  else if negb (width p010 =? width yuv)
                          || negb (height p010 =? height yuv)
                  then ERROR_ULTRAHDR_RESOLUTION_MISMATCH
                  else if unrecognized_gamut (colorGamut yuv)
                  then ERROR_ULTRAHDR_INVALID_COLORGAMUT
                  else ULTRAHDR_NO_ERROR
                end
              end
          end
        end
    end
  end.

(** [JpegR::areInputArgumentsValid], with the quality factor *)
Definition areInputArgumentsValid_quality
  (p010_image_ptr yuv420_image_ptr : option ultrahdr_uncompressed_struct)
  (hdr_tf : ultrahdr_transfer_function)
  (dest_ptr : option ultrahdr_compressed_struct) (quality : Z) : status_t :=
  if (quality <? 0) || (quality >? 100)
  then ERROR_ULTRAHDR_INVALID_QUALITY_FACTOR
  else areInputArgumentsValid p010_image_ptr yuv420_image_ptr hdr_tf dest_ptr.

End JpegRChecks.

(* ================================================================== *)
(** * [jpegr.cpp]: [copyJpegWithoutExif]                               *)
(* ================================================================== *)

(** [memcpy(dst + to, src + from, n)] between two compressed buffers that
    hold the bytes concerned. *)
Definition memcpy_bytes (dst : list Z) (to : Z) (src : list Z) (from n : Z)
  : list Z :=
  firstn (Z.to_nat to) dst
  ++ firstn (Z.to_nat n) (skipn (Z.to_nat from) src)
  ++ skipn (Z.to_nat (to + n)) dst.

Section CopyJpegWithoutExif.

(** What [new uint8_t[n]] holds. *)
Variable fresh_bytes : Z -> list Z.

(** Helper function copies the JPEG image from without EXIF.  [exif_pos]
    is the position of the EXIF package (4 bytes offset to the FF sign),
    [exif_size] its size without the initial 4 bytes.  Every member of
    [pDest] is assigned, so the result is the struct [pDest] ends up
    as. *)
Definition copyJpegWithoutExif (pSource : ultrahdr_compressed_struct)
  (exif_pos exif_size : Z) : outcome ultrahdr_compressed_struct :=
  let exif_offset := 4 in
  let dest_length :=
    to_int (to_size_t (length pSource - exif_size - exif_offset)) in
  match cdata pSource with
  | None => Undefined
  | Some src =>
    let buf := fresh_bytes (to_size_t dest_length) in
    let buf :=
      memcpy_bytes buf 0 src 0 (to_size_t (exif_pos - exif_offset)) in
    let buf :=
      memcpy_bytes buf (to_size_t (exif_pos - exif_offset)) src
        (to_size_t (exif_pos + exif_size))
        (to_size_t (length pSource - exif_pos - exif_size)) in
    Returns {| cdata := Some buf;
               length := dest_length;
               maxLength := dest_length;
               ccolorGamut := ccolorGamut pSource |}
  end.

End CopyJpegWithoutExif.

(* ================================================================== *)
(** * Sample inputs                                                     *)
(* ================================================================== *)

Module Sample.

(** A heap whose cell [o] of block [b] holds the byte [(7 * b + o) mod 256]. *)
Definition heap0 : mem := fun b o => (7 * b + o) mod 256.

Definition world0 : world := mkworld heap0 10.

(** A 4x4 YUV 4:2:0 image in block 1, chroma after luma. *)
Definition yuv_4x4 : ultrahdr_uncompressed_struct :=
  {| data := Some (mkptr 1 0); width := 4; height := 4;
     colorGamut := ULTRAHDR_COLORGAMUT_BT709;
     chroma_data := Some (mkptr 1 16); luma_stride := 4; chroma_stride := 2;
     pixelFormat := ULTRAHDR_PIX_FMT_YUV420 |}.

(** The same image with the chroma pointer left null, which the struct
    allows: the chroma plane is then taken to follow the luma plane. *)
Definition yuv_4x4_chroma_null : ultrahdr_uncompressed_struct :=
  {| data := Some (mkptr 1 0); width := 4; height := 4;
     colorGamut := ULTRAHDR_COLORGAMUT_BT709;
     chroma_data := None; luma_stride := 4; chroma_stride := 0;
     pixelFormat := ULTRAHDR_PIX_FMT_YUV420 |}.

(** A 4x4 P010 image in block 2: 16 luma words, then the UV words. *)
Definition p010_4x4 : ultrahdr_uncompressed_struct :=
  {| data := Some (mkptr 2 0); width := 4; height := 4;
     colorGamut := ULTRAHDR_COLORGAMUT_BT2100;
     chroma_data := Some (mkptr 2 32); luma_stride := 4; chroma_stride := 4;
     pixelFormat := ULTRAHDR_PIX_FMT_P010 |}.

(** A destination struct over block 3 that no one has filled in. *)
Definition blank_dest : ultrahdr_uncompressed_struct :=
  {| data := Some (mkptr 3 0); width := 0; height := 0;
     colorGamut := ULTRAHDR_COLORGAMUT_UNSPECIFIED;
     chroma_data := None; luma_stride := 0; chroma_stride := 0;
     pixelFormat := ULTRAHDR_PIX_FMT_UNSPECIFIED |}.

Definition blank_metadata : ultrahdr_metadata_struct :=
  mkmetadata "" F32.zero F32.zero F32.zero F32.zero F32.zero F32.zero F32.zero.

(** A stand-in for the colour kernel's per-pixel gain. *)
Definition gain_sample0 :
  mem -> ultrahdr_uncompressed_struct -> ultrahdr_uncompressed_struct ->
  ultrahdr_metadata_struct ->
  ColorTransformFn -> ColorTransformFn -> ColorCalculationFn ->
  ColorTransformFn -> ColorTransformFn -> F32.float -> Z -> Z -> Z :=
  fun m yuv _ _ _ _ _ _ _ _ x y =>
    match data yuv with
    | Some p => load m (padd p (4 * x + 4 * y * luma_stride yuv))
    | None => 0
    end.

(** A 2x2 monochrome gain map in block 4, and one of width 3. *)
Definition gainmap_2x2 : ultrahdr_uncompressed_struct :=
  {| data := Some (mkptr 4 0); width := 2; height := 2;
     colorGamut := ULTRAHDR_COLORGAMUT_UNSPECIFIED;
     chroma_data := None; luma_stride := 2; chroma_stride := 0;
     pixelFormat := ULTRAHDR_PIX_FMT_MONOCHROME |}.

Definition gainmap_3x3 : ultrahdr_uncompressed_struct :=
  {| data := Some (mkptr 4 0); width := 3; height := 3;
     colorGamut := ULTRAHDR_COLORGAMUT_UNSPECIFIED;
     chroma_data := None; luma_stride := 3; chroma_stride := 0;
     pixelFormat := ULTRAHDR_PIX_FMT_MONOCHROME |}.

(** The metadata [generateGainMap] emits for HLG. *)
Definition hlg_metadata : ultrahdr_metadata_struct :=
  let boost := F32.div kHlgMaxNits kSdrWhiteNits in
  mkmetadata "1.0" boost (F32.of_Z 1) (F32.of_Z 1) F32.zero F32.zero
    (F32.of_Z 1) boost.

(** The same with gamma 2. *)
Definition gamma2_metadata : ultrahdr_metadata_struct :=
  let boost := F32.div kHlgMaxNits kSdrWhiteNits in
  mkmetadata "1.0" boost (F32.of_Z 1) (F32.of_Z 2) F32.zero F32.zero
    (F32.of_Z 1) boost.

(** A destination struct whose data pointer is null. *)
Definition dest_without_data : ultrahdr_uncompressed_struct :=
  {| data := None; width := 0; height := 0;
     colorGamut := ULTRAHDR_COLORGAMUT_UNSPECIFIED;
     chroma_data := None; luma_stride := 0; chroma_stride := 0;
     pixelFormat := ULTRAHDR_PIX_FMT_UNSPECIFIED |}.

(** Stand-ins for the colour kernel of the applier: the colour of a pixel is
    its gain-map sample. *)
Definition recovered_pixel0 :
  mem -> ultrahdr_uncompressed_struct -> ultrahdr_uncompressed_struct ->
  ultrahdr_metadata_struct -> F32.float -> Z -> Z -> Z -> Z :=
  fun m _ gm _ _ scale x y =>
    match data gm with
    | Some p => load m (padd p (x / scale + y / scale * luma_stride gm))
    | None => 0
    end.

Definition applyGainMap0 :=
  applyGainMap 4 Z recovered_pixel0 (fun c => c) (fun c => c)
    (fun c => c) (fun c => c) (fun c => (c, c, c)).

(** A 4x4 YUV 4:2:0 destination in block 1 with padded rows: six bytes a
    luma row, three a chroma row, chroma after luma. *)
Definition yuv_4x4_padded : ultrahdr_uncompressed_struct :=
  {| data := Some (mkptr 1 0); width := 4; height := 4;
     colorGamut := ULTRAHDR_COLORGAMUT_UNSPECIFIED;
     chroma_data := Some (mkptr 1 24); luma_stride := 6; chroma_stride := 3;
     pixelFormat := ULTRAHDR_PIX_FMT_YUV420 |}.

(** A 3x2 monochrome image in block 5 that declares no stride. *)
Definition gray_3x2 : ultrahdr_uncompressed_struct :=
  {| data := Some (mkptr 5 0); width := 3; height := 2;
     colorGamut := ULTRAHDR_COLORGAMUT_P3;
     chroma_data := None; luma_stride := 0; chroma_stride := 0;
     pixelFormat := ULTRAHDR_PIX_FMT_MONOCHROME |}.

(** An assembler nothing was added to, and one whose two raw slots hold
    the 4x4 samples. *)
Definition empty_assembler : UltraHdr :=
  mkUltraHdr None None None None None None None.

Definition raw_filled_assembler : UltraHdr :=
  mkUltraHdr None None (Some p010_4x4) (Some yuv_4x4) None None None.

(** The 320x240 YUV 4:2:0 image of the editor's tests, in block 6, with
    the optional members left at their defaults. *)
Definition yuv_320x240 : ultrahdr_uncompressed_struct :=
  {| data := Some (mkptr 6 0); width := 320; height := 240;
     colorGamut := ULTRAHDR_COLORGAMUT_BT709;
     chroma_data := None; luma_stride := 0; chroma_stride := 0;
     pixelFormat := ULTRAHDR_PIX_FMT_YUV420 |}.

End Sample.

(** More sample inputs. *)
Module Sample2.

(** A second destination struct, over block 8. *)
Definition blank_dest2 : ultrahdr_uncompressed_struct :=
  {| data := Some (mkptr 8 0); width := 0; height := 0;
     colorGamut := ULTRAHDR_COLORGAMUT_UNSPECIFIED;
     chroma_data := None; luma_stride := 0; chroma_stride := 0;
     pixelFormat := ULTRAHDR_PIX_FMT_UNSPECIFIED |}.

(** An assembler that holds the 4x4 P010 sample and nothing else. *)
Definition hdr_only_assembler : UltraHdr :=
  mkUltraHdr None None (Some Sample.p010_4x4) None None None None.

End Sample2.

(* ================================================================== *)
(** * Properties                                                        *)
(* ================================================================== *)

(** ** Machine integers *)

Lemma to_size_t_small z : 0 <= z < 2 ^ 64 -> to_size_t z = z.
Proof. intros H. unfold to_size_t. apply Z.mod_small. exact H. Qed.

Lemma to_int_small z : - 2 ^ 31 <= z < 2 ^ 31 -> to_int z = z.
Proof.
  intros H. unfold to_int. rewrite Z.mod_small; lia.
Qed.

(** Cutting a P010 word to eight bits keeps bits 8 to 15 of the word,
    whatever the word. *)
Lemma p010_to_8bit_bits word :
  p010_to_8bit word = Z.land (Z.shiftr (Z.shiftr word 6) 2) 255.
Proof.
  unfold p010_to_8bit, to_uint8, to_uint16.
  change 255 with (Z.ones 8).
  rewrite <- (Z.land_ones _ 8) by lia.
  rewrite <- Z.land_assoc, Z.land_diag.
  rewrite <- (Z.land_ones _ 16) by lia.
  apply Z.bits_inj'. intros n Hn.
  rewrite !Z.land_spec.
  rewrite (Z.shiftr_spec (Z.land _ _)), Z.land_spec by lia.
  rewrite !Z.shiftr_spec by lia.
  destruct (Z.ltb_spec n 8) as [Hlt | Hge].
  - rewrite (Z.ones_spec_low 16 (n + 2)) by lia.
    now rewrite andb_true_r.
  - rewrite (Z.ones_spec_high 8 n) by lia.
    now rewrite !andb_false_r.
Qed.

(** ** Pixel memory *)

Lemma load_store_same m p v : load (store m p v) p = v.
Proof. unfold load, store. now rewrite !Z.eqb_refl. Qed.

Lemma load_store_other m p q v : p <> q -> load (store m p v) q = load m q.
Proof.
  intros Hne. unfold load, store.
  destruct (Z.eqb_spec (blk q) (blk p)) as [Hb | Hb]; [| reflexivity].
  destruct (Z.eqb_spec (off q) (off p)) as [Ho | Ho]; [| reflexivity].
  exfalso. apply Hne. destruct p, q; simpl in *; congruence.
Qed.

Lemma load_memcpy_in m dst src n k :
  0 <= k < n -> load (memcpy m dst src n) (padd dst k) = load m (padd src k).
Proof.
  intros Hk. unfold load, memcpy, padd; simpl.
  rewrite Z.eqb_refl.
  destruct (Z.leb_spec (off dst) (off dst + k)); [| lia].
  destruct (Z.ltb_spec (off dst + k) (off dst + n)); [| lia].
  simpl. f_equal. lia.
Qed.

Lemma load_memcpy_out m dst src n q :
  (blk q <> blk dst \/ off q < off dst \/ off dst + n <= off q) ->
  load (memcpy m dst src n) q = load m q.
Proof.
  intros Hq. unfold load, memcpy.
  destruct (Z.eqb_spec (blk q) (blk dst)); simpl; [| reflexivity].
  destruct (Z.leb_spec (off dst) (off q)); simpl; [| reflexivity].
  destruct (Z.ltb_spec (off q) (off dst + n)); simpl; [| reflexivity].
  lia.
Qed.

Lemma load_memset_in m dst v n k :
  0 <= k < n -> load (memset m dst v n) (padd dst k) = v.
Proof.
  intros Hk. unfold load, memset, padd; simpl.
  rewrite Z.eqb_refl.
  destruct (Z.leb_spec (off dst) (off dst + k)); [| lia].
  destruct (Z.ltb_spec (off dst + k) (off dst + n)); [| lia].
  reflexivity.
Qed.

Lemma load_memset_out m dst v n q :
  (blk q <> blk dst \/ off q < off dst \/ off dst + n <= off q) ->
  load (memset m dst v n) q = load m q.
Proof.
  intros Hq. unfold load, memset.
  destruct (Z.eqb_spec (blk q) (blk dst)); simpl; [| reflexivity].
  destruct (Z.leb_spec (off dst) (off q)); simpl; [| reflexivity].
  destruct (Z.ltb_spec (off q) (off dst + n)); simpl; [| reflexivity].
  lia.
Qed.

Lemma padd_inj p k k' : padd p k = padd p k' -> k = k'.
Proof. unfold padd. intros H. injection H. lia. Qed.

Lemma padd_padd p k k' : padd (padd p k) k' = padd p (k + k').
Proof. unfold padd; simpl. f_equal. lia. Qed.

(** ** Loops *)

Lemma for_loop_inv {S : Type} (P : nat -> S -> Prop) n body (s : S) :
  P O s ->
  (forall k s', (k < n)%nat -> P k s' ->
                P (Datatypes.S k) (body (Z.of_nat k) s')) ->
  P n (for_loop n body s).
Proof.
  intros H0 Hstep. induction n as [| n IH]; simpl.
  - exact H0.
  - apply Hstep; [lia |]. apply IH. intros k s' Hk. apply Hstep. lia.
Qed.

(** A loop whose turn [k] writes the cells [addr k i], for the [i] that
    [dom k] admits, with values [val k i] fixed by the memory the loop
    started from, as long as the cells in [src] have not been written.
    Turns write different cells and none writes a cell of [src]. *)
Section LoopCells.

Context {I : Type}.
Variable n : nat.
Variable body : Z -> mem -> mem.
Variable m0 : mem.
Variable dom : Z -> I -> Prop.
Variable addr : Z -> I -> ptr.
Variable val : Z -> I -> Z.
Variable src : ptr -> Prop.

Let turn (k : Z) : Prop := 0 <= k < Z.of_nat n.

Hypothesis turns_apart :
  forall k i k' i', turn k -> dom k i -> turn k' -> dom k' i' ->
                    addr k i = addr k' i' -> k = k'.
Hypothesis src_apart :
  forall k i, turn k -> dom k i -> ~ src (addr k i).
Hypothesis body_spec :
  forall k m, turn k ->
    (forall p, src p -> load m p = load m0 p) ->
    (forall i, dom k i -> load (body k m) (addr k i) = val k i)
    /\ (forall p, (forall i, dom k i -> addr k i <> p) ->
                  load (body k m) p = load m p).

Lemma for_loop_cells :
  (forall k i, turn k -> dom k i ->
               load (for_loop n body m0) (addr k i) = val k i)
  /\ (forall p, (forall k i, turn k -> dom k i -> addr k i <> p) ->
                load (for_loop n body m0) p = load m0 p).
Proof.
  pose (P := fun (j : nat) (m : mem) =>
    (forall k i, 0 <= k < Z.of_nat j -> dom k i ->
                 load m (addr k i) = val k i)
    /\ (forall p, (forall k i, 0 <= k < Z.of_nat j -> dom k i ->
                               addr k i <> p) ->
                  load m p = load m0 p)).
  assert (HP : P n (for_loop n body m0)).
  { apply for_loop_inv.
    - split; [intros; lia | reflexivity].
    - intros j m Hj [Hval Hframe].
      assert (Hturn : turn (Z.of_nat j)) by (unfold turn; lia).
      assert (Hsrc : forall p, src p -> load m p = load m0 p).
      { intros p Hp. apply Hframe. intros k i Hk Hi Heq. subst p.
        apply (src_apart k i); [unfold turn; lia | exact Hi | exact Hp]. }
      destruct (body_spec (Z.of_nat j) m Hturn Hsrc) as [Bval Bframe].
      split.
      + intros k i Hk Hi.
        destruct (Z.eq_dec k (Z.of_nat j)) as [-> | Hne].
        * now apply Bval.
        * rewrite Bframe.
          -- apply Hval; [lia | exact Hi].
          -- intros i' Hi' Heq. apply Hne.
             apply (turns_apart k i (Z.of_nat j) i');
               [unfold turn; lia | exact Hi | exact Hturn | exact Hi' |].
             now symmetry.
      + intros p Hp. rewrite Bframe.
        * apply Hframe. intros k i Hk Hi. apply Hp; [lia | exact Hi].
        * intros i Hi. apply Hp; [lia | exact Hi]. }
  exact HP.
Qed.

End LoopCells.

(** ** The job queue *)

(** The loop that fills the queue ends: with a positive step, fuel beyond
    the number of rows left is never used up. *)
Lemma enqueue_rows_terminates fuel rowStart rowStep limit :
  0 <= rowStart -> limit + rowStep < 2 ^ 64 ->
  (rowStart < limit -> 0 < rowStep) ->
  (Z.to_nat (limit - rowStart) < fuel)%nat ->
  exists jobs, enqueue_rows to_size_t fuel rowStart rowStep limit = Some jobs.
Proof.
  revert rowStart.
  induction fuel as [| fuel IH]; intros rowStart H0 Hlim Hstep Hfuel.
  - lia.
  - simpl. destruct (Z.ltb_spec rowStart limit) as [Hlt | Hge].
    + specialize (Hstep Hlt).
      rewrite (to_size_t_small (rowStart + rowStep)) by lia.
      rewrite !(to_size_t_small (Z.min (rowStart + rowStep) limit)) by lia.
      destruct (IH (Z.min (rowStart + rowStep) limit)) as [q Hq];
        [lia | lia | lia | lia |].
      rewrite Hq. eauto.
    + eauto.
Qed.

(** ** [generateGainMap] *)

Section GenerateGainMapFacts.

Variable USE_HLG_INVOETF_LUT USE_PQ_INVOETF_LUT : bool.
Variable reported_cores : Z.
Variable gain_sample :
  mem -> ultrahdr_uncompressed_struct -> ultrahdr_uncompressed_struct ->
  ultrahdr_metadata_struct ->
  ColorTransformFn -> ColorTransformFn -> ColorCalculationFn ->
  ColorTransformFn -> ColorTransformFn -> F32.float ->
  Z -> Z -> Z.

Let generate :=
  generateGainMap USE_HLG_INVOETF_LUT USE_PQ_INVOETF_LUT reported_cores
    gain_sample.

(** The queue of [generateGainMap] is filled within its fuel. *)
Lemma generate_jobs_enqueued image_height :
  0 <= image_height < 2 ^ 64 ->
  let map_height := image_height / kMapDimensionScaleFactor in
  let threads := Z.min (GetCPUCoreCount reported_cores) 4 in
  let rowStep :=
    (if threads =? 1 then image_height else kJobSzInRows)
    / kMapDimensionScaleFactor in
  exists jobs,
    enqueue_rows to_size_t (Datatypes.S (Z.to_nat map_height)) 0 rowStep
      map_height = Some jobs.
Proof.
  intros Hh map_height threads rowStep.
  assert (Hmh : 0 <= map_height /\ map_height * 4 <= image_height).
  { unfold map_height, kMapDimensionScaleFactor.
    split; [apply Z.div_pos; lia |].
    pose proof (Z.mul_div_le image_height 4). lia. }
  assert (Hstep : rowStep = map_height \/ rowStep = 4).
  { unfold rowStep. destruct (threads =? 1); [left | right]; reflexivity. }
  apply enqueue_rows_terminates; lia.
Qed.

(** C1.  For every SDR YUV 4:2:0 image and HDR P010 image
    whose luma and chroma pointers are all non-null, of equal dimensions
    (W, H) with W and H divisible by 4 and both gamuts specified, and for a
    transfer function among LINEAR, HLG and PQ, [generateGainMap], given a
    metadata struct and a destination, succeeds and leaves in the
    destination a MONOCHROME buffer of width W/4 and height H/4 with luma
    stride W/4 and no chroma plane. *)
Theorem generateGainMap_map_dimensions
  (w : world) (yuv p010 : ultrahdr_uncompressed_struct)
  (hdr_tf : ultrahdr_transfer_function)
  (md : ultrahdr_metadata_struct) (d : ultrahdr_uncompressed_struct)
  (sdr_is_601 : bool) :
  data yuv <> None -> chroma_data yuv <> None ->
  data p010 <> None -> chroma_data p010 <> None ->
  pixelFormat yuv = ULTRAHDR_PIX_FMT_YUV420 ->
  pixelFormat p010 = ULTRAHDR_PIX_FMT_P010 ->
  width yuv = width p010 -> height yuv = height p010 ->
  0 <= height yuv < 2 ^ 64 ->
  width yuv mod kMapDimensionScaleFactor = 0 ->
  height yuv mod kMapDimensionScaleFactor = 0 ->
  colorGamut yuv <> ULTRAHDR_COLORGAMUT_UNSPECIFIED ->
  colorGamut p010 <> ULTRAHDR_COLORGAMUT_UNSPECIFIED ->
  known_transfer hdr_tf ->
  exists w' md' d',
    generate w (Some yuv) (Some p010) hdr_tf (Some md) (Some d) sdr_is_601
    = Returns (ULTRAHDR_NO_ERROR, w', Some md', Some d')
    /\ pixelFormat d' = ULTRAHDR_PIX_FMT_MONOCHROME
    /\ width d' = width yuv / 4 /\ height d' = height yuv / 4
    /\ 4 * width d' = width yuv /\ 4 * height d' = height yuv
    /\ luma_stride d' = width yuv / 4
    /\ chroma_data d' = None /\ chroma_stride d' = 0.
Proof.
  intros Hsy Hsc Hhy Hhc _ _ Hw Hh Hrange Hwm Hhm Hgs Hgh Htf.
  destruct (generate_jobs_enqueued (height yuv) Hrange) as [jobs Hjobs].
  unfold generate, generateGainMap.
  destruct (data yuv); [| congruence].
  destruct (chroma_data yuv); [| congruence].
  destruct (data p010); [| congruence].
  destruct (chroma_data p010); [| congruence].
  rewrite <- Hw, <- Hh, !Z.eqb_refl. cbn [negb orb].
  destruct (colorGamut yuv) eqn:Egs; [congruence | | |];
    (destruct (colorGamut p010) eqn:Egh; [congruence | | |]);
    cbn [gamut_eqb orb new_array];
    (destruct Htf as [-> | [-> | ->]]);
    cbv zeta; rewrite Hjobs;
    (do 3 eexists; split; [reflexivity |]);
    cbn [pixelFormat width height luma_stride chroma_data chroma_stride];
    unfold kMapDimensionScaleFactor in *;
    repeat split; try reflexivity;
    (pose proof (Z_div_mod_eq_full (width yuv) 4);
     pose proof (Z_div_mod_eq_full (height yuv) 4); lia).
Qed.

(** C2.  Whenever [generateGainMap] succeeds, the metadata it leaves has
    version "1.0", gamma 1, both offsets 0, minContentBoost and
    hdrCapacityMin 1, and maxContentBoost = hdrCapacityMax = hdrWhiteNits /
    203 in binary32, with hdrWhiteNits 1000 for HLG and LINEAR and 10000 for
    PQ; the four bounds are ordered minContentBoost <= hdrCapacityMin <=
    hdrCapacityMax <= maxContentBoost. *)
Theorem generateGainMap_metadata
  (w w' : world)
  (yuv420_image_ptr p010_image_ptr : option ultrahdr_uncompressed_struct)
  (hdr_tf : ultrahdr_transfer_function)
  (metadata metadata' : option ultrahdr_metadata_struct)
  (dest dest' : option ultrahdr_uncompressed_struct)
  (sdr_is_601 : bool) :
  generate w yuv420_image_ptr p010_image_ptr hdr_tf metadata dest sdr_is_601
  = Returns (ULTRAHDR_NO_ERROR, w', metadata', dest') ->
  exists md hdrWhiteNits,
    metadata' = Some md
    /\ (hdr_tf = ULTRAHDR_TF_HLG \/ hdr_tf = ULTRAHDR_TF_LINEAR ->
        hdrWhiteNits = F32.of_Z 1000)
    /\ (hdr_tf = ULTRAHDR_TF_PQ -> hdrWhiteNits = F32.of_Z 10000)
    /\ known_transfer hdr_tf
    /\ version md = "1.0"%string
    /\ gamma md = F32.of_Z 1
    /\ offsetSdr md = F32.zero /\ offsetHdr md = F32.zero
    /\ minContentBoost md = F32.of_Z 1
    /\ hdrCapacityMin md = F32.of_Z 1
    /\ maxContentBoost md = F32.div hdrWhiteNits (F32.of_Z 203)
    /\ hdrCapacityMax md = F32.div hdrWhiteNits (F32.of_Z 203)
    /\ F32.leb (minContentBoost md) (hdrCapacityMin md) = true
    /\ F32.leb (hdrCapacityMin md) (hdrCapacityMax md) = true
    /\ F32.leb (hdrCapacityMax md) (maxContentBoost md) = true.
Proof.
  intros H. unfold generate, generateGainMap in H.
  destruct yuv420_image_ptr as [yuv |]; [| discriminate H].
  destruct p010_image_ptr as [p010 |]; [| discriminate H].
  destruct metadata as [md0 |]; [| discriminate H].
  destruct dest as [d |]; [| discriminate H].
  destruct (data yuv); [| discriminate H].
  destruct (chroma_data yuv); [| discriminate H].
  destruct (data p010); [| discriminate H].
  destruct (chroma_data p010); [| discriminate H].
  destruct (_ || _); [discriminate H |].
  destruct (_ || _); [discriminate H |].
  cbn [new_array] in H. cbv zeta in H.
  destruct hdr_tf; try discriminate H;
    (destruct (colorGamut yuv); try discriminate H);
    (destruct (colorGamut p010); try discriminate H);
    (destruct (enqueue_rows _ _ _ _ _); [| discriminate H]);
    injection H as _ <- _;
    (eexists; eexists; split; [reflexivity |]);
    cbn [version gamma offsetSdr offsetHdr minContentBoost hdrCapacityMin
         maxContentBoost hdrCapacityMax];
    unfold known_transfer;
    (split; [intros [E | E]; try discriminate E; reflexivity |]);
    (split; [intros E; try discriminate E; reflexivity |]);
    (split; [tauto |]);
    repeat split; vm_compute; reflexivity.
Qed.

End GenerateGainMapFacts.

(** The null chroma pointer and the SRGB transfer function are both turned
    away, the first as a bad pointer, the second as an invalid transfer
    function: on these inputs the generator does not succeed. *)
Lemma generateGainMap_rejects_null_chroma_and_srgb :
  generateGainMap true true 4 Sample.gain_sample0 Sample.world0
    (Some Sample.yuv_4x4_chroma_null) (Some Sample.p010_4x4) ULTRAHDR_TF_HLG
    (Some Sample.blank_metadata) (Some Sample.blank_dest) false
  = Returns (ERROR_ULTRAHDR_BAD_PTR, Sample.world0,
             Some Sample.blank_metadata, Some Sample.blank_dest)
  /\ exists w' d',
      generateGainMap true true 4 Sample.gain_sample0 Sample.world0
        (Some Sample.yuv_4x4) (Some Sample.p010_4x4) ULTRAHDR_TF_SRGB
        (Some Sample.blank_metadata) (Some Sample.blank_dest) false
      = Returns (ERROR_ULTRAHDR_INVALID_TRANS_FUNC, w',
                 Some Sample.blank_metadata, d').
Proof.
  split; [reflexivity |].
  do 2 eexists. reflexivity.
Qed.

Lemma generateGainMap_map_dimensions_witness :
  exists w' md' d',
    generateGainMap true true 4 Sample.gain_sample0 Sample.world0
      (Some Sample.yuv_4x4) (Some Sample.p010_4x4) ULTRAHDR_TF_HLG
      (Some Sample.blank_metadata) (Some Sample.blank_dest) false
    = Returns (ULTRAHDR_NO_ERROR, w', Some md', Some d')
    /\ pixelFormat d' = ULTRAHDR_PIX_FMT_MONOCHROME
    /\ width d' = 4 / 4 /\ height d' = 4 / 4
    /\ 4 * width d' = 4 /\ 4 * height d' = 4
    /\ luma_stride d' = 4 / 4
    /\ chroma_data d' = None /\ chroma_stride d' = 0.
Proof.
  apply (generateGainMap_map_dimensions true true 4 Sample.gain_sample0
           Sample.world0 Sample.yuv_4x4 Sample.p010_4x4 ULTRAHDR_TF_HLG
           Sample.blank_metadata Sample.blank_dest false);
    try discriminate; try reflexivity.
  - simpl. lia.
  - right. left. reflexivity.
Defined.

Lemma generateGainMap_metadata_witness :
  exists md hdrWhiteNits,
    Some (mkmetadata "1.0" (F32.div kPqMaxNits kSdrWhiteNits) (F32.of_Z 1)
            (F32.of_Z 1) F32.zero F32.zero (F32.of_Z 1)
            (F32.div kPqMaxNits kSdrWhiteNits)) = Some md
    /\ (ULTRAHDR_TF_PQ = ULTRAHDR_TF_HLG \/ ULTRAHDR_TF_PQ = ULTRAHDR_TF_LINEAR ->
        hdrWhiteNits = F32.of_Z 1000)
    /\ (ULTRAHDR_TF_PQ = ULTRAHDR_TF_PQ -> hdrWhiteNits = F32.of_Z 10000)
    /\ known_transfer ULTRAHDR_TF_PQ
    /\ version md = "1.0"%string
    /\ gamma md = F32.of_Z 1
    /\ offsetSdr md = F32.zero /\ offsetHdr md = F32.zero
    /\ minContentBoost md = F32.of_Z 1
    /\ hdrCapacityMin md = F32.of_Z 1
    /\ maxContentBoost md = F32.div hdrWhiteNits (F32.of_Z 203)
    /\ hdrCapacityMax md = F32.div hdrWhiteNits (F32.of_Z 203)
    /\ F32.leb (minContentBoost md) (hdrCapacityMin md) = true
    /\ F32.leb (hdrCapacityMin md) (hdrCapacityMax md) = true
    /\ F32.leb (hdrCapacityMax md) (maxContentBoost md) = true.
Proof.
  eapply (generateGainMap_metadata true true 4 Sample.gain_sample0
            Sample.world0 _ (Some Sample.yuv_4x4) (Some Sample.p010_4x4)
            ULTRAHDR_TF_PQ (Some Sample.blank_metadata) _
            (Some Sample.blank_dest) _ false).
  reflexivity.
Defined.

(** ** [applyGainMap] *)

Section ApplyGainMapFacts.

Variable reported_cores : Z.
Variable Color : Type.
Variable recovered_pixel :
  mem -> ultrahdr_uncompressed_struct -> ultrahdr_uncompressed_struct ->
  ultrahdr_metadata_struct -> F32.float -> Z -> Z -> Z -> Color.
Variable colorToRgbaF16 : Color -> Z.
Variable colorToRgba1010102 : Color -> Z.
Variable hlgOetf pqOetf : Color -> Color.
Variable channels_10bit : Color -> Z * Z * Z.

Let apply :=
  applyGainMap reported_cores Color recovered_pixel colorToRgbaF16
    colorToRgba1010102 hlgOetf pqOetf channels_10bit.

Lemma supported_not_unsupported md :
  supported_metadata md -> ~ unsupported_metadata md.
Proof.
  intros (Hv & Hg & Hs & Hh & Hmin & Hmax) H.
  destruct H as [H | [H | [H | [H | [H | H]]]]]; congruence.
Qed.

(** C3.  [applyGainMap] returns BadPointer whenever the SDR
    image, gain-map, metadata or destination pointer, or the SDR luma, SDR
    chroma or gain-map data pointer, is null; with none of these null it
    returns BadMetadata whenever the version differs from "1.0", gamma is
    not 1.0, an offset is not 0, hdrCapacityMin is not minContentBoost or
    hdrCapacityMax is not maxContentBoost.  In both cases memory and the
    destination struct are as they were: no pixel is produced. *)
Theorem applyGainMap_rejections
  (m : mem)
  (yuv420_image_ptr gainmap_image_ptr : option ultrahdr_uncompressed_struct)
  (metadata : option ultrahdr_metadata_struct)
  (output_format : ultrahdr_output_format) (max_display_boost : F32.float)
  (dest : option ultrahdr_uncompressed_struct) :
  (null_checked_pointer yuv420_image_ptr gainmap_image_ptr metadata dest ->
   apply m yuv420_image_ptr gainmap_image_ptr metadata output_format
     max_display_boost dest
   = Returns (ERROR_ULTRAHDR_BAD_PTR, m, dest))
  /\ (~ null_checked_pointer yuv420_image_ptr gainmap_image_ptr metadata dest ->
      forall md, metadata = Some md -> unsupported_metadata md ->
      apply m yuv420_image_ptr gainmap_image_ptr metadata output_format
        max_display_boost dest
      = Returns (ERROR_ULTRAHDR_BAD_METADATA, m, dest)).
Proof.
  unfold apply, applyGainMap. split.
  - intros Hnull.
    destruct yuv420_image_ptr as [yuv |]; [| reflexivity].
    destruct gainmap_image_ptr as [gm |]; [| reflexivity].
    destruct metadata as [md |]; [| reflexivity].
    destruct dest as [d |]; [| reflexivity].
    destruct (data yuv) eqn:Ey; [| reflexivity].
    destruct (chroma_data yuv) eqn:Ec; [| reflexivity].
    destruct (data gm) eqn:Eg; [| reflexivity].
    exfalso.
    destruct Hnull as [H | [H | [H | [H | [(y & H & Hy) | (g & H & Hg)]]]]];
      try discriminate H.
    + injection H as <-. destruct Hy; congruence.
    + injection H as <-. congruence.
  - intros Hnn md -> Hbad.
    destruct yuv420_image_ptr as [yuv |];
      [| exfalso; apply Hnn; left; reflexivity].
    destruct gainmap_image_ptr as [gm |];
      [| exfalso; apply Hnn; right; left; reflexivity].
    destruct dest as [d |];
      [| exfalso; apply Hnn; do 3 right; left; reflexivity].
    destruct (data yuv) eqn:Ey;
      [| exfalso; apply Hnn; do 4 right; left; exists yuv; auto].
    destruct (chroma_data yuv) eqn:Ec;
      [| exfalso; apply Hnn; do 4 right; left; exists yuv; auto].
    destruct (data gm) eqn:Eg;
      [| exfalso; apply Hnn; do 5 right; exists gm; auto].
    destruct (String.eqb_spec (version md) kGainMapVersion) as [Hv | Hv];
      cbn [negb]; [| reflexivity].
    destruct (F32.neb (gamma md) (F32.of_Z 1)) eqn:Hg; [reflexivity |].
    destruct (F32.neb (offsetSdr md) F32.zero) eqn:Hs; [reflexivity |].
    destruct (F32.neb (offsetHdr md) F32.zero) eqn:Hh; [reflexivity |].
    destruct (F32.neb (hdrCapacityMin md) (minContentBoost md)) eqn:Hmin;
      [reflexivity |].
    destruct (F32.neb (hdrCapacityMax md) (maxContentBoost md)) eqn:Hmax;
      [reflexivity |].
    exfalso.
    destruct Hbad as [H | [H | [H | [H | [H | H]]]]]; congruence.
Qed.

(** C5.  For every SDR image and gain map whose width ratio is
    not integral, [applyGainMap], with its pointer and metadata tests
    passed, rejects the input with UnsupportedMapScaleFactor; it samples
    nothing, writes no pixel and leaves the destination struct alone. *)
Theorem applyGainMap_rejects_fractional_scale
  (m : mem) (yuv gm : ultrahdr_uncompressed_struct)
  (md : ultrahdr_metadata_struct)
  (output_format : ultrahdr_output_format) (max_display_boost : F32.float)
  (d : ultrahdr_uncompressed_struct) :
  ~ null_checked_pointer (Some yuv) (Some gm) (Some md) (Some d) ->
  supported_metadata md ->
  width gm <> 0 ->
  width yuv mod width gm <> 0 ->
  apply m (Some yuv) (Some gm) (Some md) output_format max_display_boost
    (Some d)
  = Returns (ERROR_ULTRAHDR_UNSUPPORTED_MAP_SCALE_FACTOR, m, Some d).
Proof.
  intros Hnn (Hv & Hg & Hs & Hh & Hmin & Hmax) Hgw Hfrac.
  unfold apply, applyGainMap.
  destruct (data yuv) eqn:Ey;
    [| exfalso; apply Hnn; do 4 right; left; exists yuv; auto].
  destruct (chroma_data yuv) eqn:Ec;
    [| exfalso; apply Hnn; do 4 right; left; exists yuv; auto].
  destruct (data gm) eqn:Eg;
    [| exfalso; apply Hnn; do 5 right; exists gm; auto].
  rewrite Hv, String.eqb_refl, Hg, Hs, Hh, Hmin, Hmax. cbn [negb orb].
  destruct (Z.eqb_spec (width gm) 0) as [E | _]; [contradiction |].
  destruct (Z.eqb_spec (width yuv mod width gm) 0) as [E | _];
    [contradiction |].
  reflexivity.
Qed.

(** No call with a fractional width ratio succeeds, whatever else is passed. *)
Lemma applyGainMap_fractional_scale_never_succeeds
  (m m' : mem) (yuv gm : ultrahdr_uncompressed_struct)
  (metadata : option ultrahdr_metadata_struct)
  (output_format : ultrahdr_output_format) (max_display_boost : F32.float)
  (dest dest' : option ultrahdr_uncompressed_struct) :
  width yuv mod width gm <> 0 ->
  apply m (Some yuv) (Some gm) metadata output_format max_display_boost dest
  <> Returns (ULTRAHDR_NO_ERROR, m', dest').
Proof.
  intros Hfrac H. unfold apply, applyGainMap in H.
  destruct metadata as [md |]; [| discriminate H].
  destruct dest as [d |]; [| discriminate H].
  destruct (data yuv); [| discriminate H].
  destruct (chroma_data yuv); [| discriminate H].
  destruct (data gm); [| discriminate H].
  destruct (negb _); [discriminate H |].
  destruct (F32.neb _ _); [discriminate H |].
  destruct (_ || _); [discriminate H |].
  destruct (_ || _); [discriminate H |].
  destruct (width gm =? 0); [discriminate H |].
  destruct (Z.eqb_spec (width yuv mod width gm) 0) as [E | _];
    [contradiction | discriminate H].
Qed.

End ApplyGainMapFacts.

(** The pointers of the samples are where they should be. *)
Lemma sample_pointers_present gm md :
  data gm <> None ->
  ~ null_checked_pointer (Some Sample.yuv_4x4) (Some gm) (Some md)
      (Some Sample.blank_dest).
Proof.
  intros Hgm H.
  destruct H as [H | [H | [H | [H | [(y & H & Hy) | (g & H & Hg)]]]]];
    try discriminate H.
  - injection H as <-. destruct Hy as [Hy | Hy]; discriminate Hy.
  - injection H as <-. contradiction.
Qed.

(** A destination whose data pointer is null is not turned away: asked for
    the SDR output format, for which no pixel is written, the applier
    reports success. *)
Lemma applyGainMap_accepts_null_dest_data :
  data Sample.dest_without_data = None
  /\ exists d',
      Sample.applyGainMap0 Sample.heap0 (Some Sample.yuv_4x4)
        (Some Sample.gainmap_2x2) (Some Sample.hlg_metadata)
        ULTRAHDR_OUTPUT_SDR (F32.of_Z 4) (Some Sample.dest_without_data)
      = Returns (ULTRAHDR_NO_ERROR, Sample.heap0, Some d').
Proof.
  split; [reflexivity |]. eexists. reflexivity.
Qed.

Lemma applyGainMap_rejections_witness :
  Sample.applyGainMap0 Sample.heap0 (Some Sample.yuv_4x4_chroma_null)
    (Some Sample.gainmap_2x2) (Some Sample.hlg_metadata)
    ULTRAHDR_OUTPUT_HDR_LINEAR (F32.of_Z 4) (Some Sample.blank_dest)
  = Returns (ERROR_ULTRAHDR_BAD_PTR, Sample.heap0, Some Sample.blank_dest)
  /\ Sample.applyGainMap0 Sample.heap0 (Some Sample.yuv_4x4)
       (Some Sample.gainmap_2x2) (Some Sample.gamma2_metadata)
       ULTRAHDR_OUTPUT_HDR_LINEAR (F32.of_Z 4) (Some Sample.blank_dest)
     = Returns (ERROR_ULTRAHDR_BAD_METADATA, Sample.heap0,
                Some Sample.blank_dest).
Proof.
  unfold Sample.applyGainMap0. split.
  - apply (proj1 (applyGainMap_rejections 4 Z Sample.recovered_pixel0
                    (fun c => c) (fun c => c) (fun c => c) (fun c => c)
                    (fun c => (c, c, c)) Sample.heap0
                    (Some Sample.yuv_4x4_chroma_null)
                    (Some Sample.gainmap_2x2) (Some Sample.hlg_metadata)
                    ULTRAHDR_OUTPUT_HDR_LINEAR (F32.of_Z 4)
                    (Some Sample.blank_dest))).
    do 4 right. left. exists Sample.yuv_4x4_chroma_null.
    split; [reflexivity | right; reflexivity].
  - apply (proj2 (applyGainMap_rejections 4 Z Sample.recovered_pixel0
                    (fun c => c) (fun c => c) (fun c => c) (fun c => c)
                    (fun c => (c, c, c)) Sample.heap0
                    (Some Sample.yuv_4x4)
                    (Some Sample.gainmap_2x2) (Some Sample.gamma2_metadata)
                    ULTRAHDR_OUTPUT_HDR_LINEAR (F32.of_Z 4)
                    (Some Sample.blank_dest)))
      with (md := Sample.gamma2_metadata).
    + apply sample_pointers_present. discriminate.
    + reflexivity.
    + right. left. reflexivity.
Defined.

(** A 4-wide image over a 3-wide gain map is turned away; and no input with
    a fractional width ratio makes the applier succeed, whatever the colour
    kernel and the other arguments are. *)
Lemma applyGainMap_no_bilinear_fallback :
  Sample.applyGainMap0 Sample.heap0 (Some Sample.yuv_4x4)
    (Some Sample.gainmap_3x3) (Some Sample.hlg_metadata)
    ULTRAHDR_OUTPUT_HDR_LINEAR (F32.of_Z 4) (Some Sample.blank_dest)
  = Returns (ERROR_ULTRAHDR_UNSUPPORTED_MAP_SCALE_FACTOR, Sample.heap0,
             Some Sample.blank_dest)
  /\ ~ (exists reported_cores (Color : Type) recovered_pixel colorToRgbaF16
               colorToRgba1010102 hlgOetf pqOetf channels_10bit
               m yuv gm metadata output_format max_display_boost dest m' dest',
          width yuv mod width gm <> 0
          /\ applyGainMap reported_cores Color recovered_pixel colorToRgbaF16
               colorToRgba1010102 hlgOetf pqOetf channels_10bit
               m (Some yuv) (Some gm) metadata output_format
               max_display_boost dest
             = Returns (ULTRAHDR_NO_ERROR, m', Some dest')).
Proof.
  split; [reflexivity |].
  intros (cores & Color & rp & f16 & f1010 & hlg & pq & ch & m & yuv & gm
          & md & fmt & boost & dest & m' & dest' & Hfrac & H).
  revert H.
  now apply applyGainMap_fractional_scale_never_succeeds.
Qed.

Lemma applyGainMap_rejects_fractional_scale_witness :
  Sample.applyGainMap0 Sample.heap0 (Some Sample.yuv_4x4)
    (Some Sample.gainmap_3x3) (Some Sample.hlg_metadata)
    ULTRAHDR_OUTPUT_HDR_LINEAR (F32.of_Z 4) (Some Sample.blank_dest)
  = Returns (ERROR_ULTRAHDR_UNSUPPORTED_MAP_SCALE_FACTOR, Sample.heap0,
             Some Sample.blank_dest).
Proof.
  unfold Sample.applyGainMap0.
  apply (applyGainMap_rejects_fractional_scale 4 Z Sample.recovered_pixel0
           (fun c => c) (fun c => c) (fun c => c) (fun c => c)
           (fun c => (c, c, c)) Sample.heap0 Sample.yuv_4x4
           Sample.gainmap_3x3 Sample.hlg_metadata
           ULTRAHDR_OUTPUT_HDR_LINEAR (F32.of_Z 4) Sample.blank_dest).
  - apply sample_pointers_present. discriminate.
  - repeat split; reflexivity.
  - discriminate.
  - discriminate.
Defined.

(** ** [toneMap] *)

Lemma load16_agree m m0 p i :
  (forall q, blk q = blk p -> load m q = load m0 q) ->
  load16 m p i = load16 m0 p i.
Proof.
  intros H. unfold load16. now rewrite !H by reflexivity.
Qed.

Lemma load_memset m dst v n q :
  load (memset m dst v n) q
  = if (blk q =? blk dst) && (off dst <=? off q) && (off q <? off dst + n)
    then v else load m q.
Proof. reflexivity. Qed.

Lemma ptr_at_offset (p base : ptr) :
  blk p = blk base -> p = padd base (off p - off base).
Proof.
  destruct p as [pb po], base as [bb bo]. unfold padd. simpl.
  intros ->. f_equal. lia.
Qed.

Ltac split_tests :=
  repeat match goal with
         | |- context [?a =? ?b] => destruct (Z.eqb_spec a b)
         | |- context [?a <=? ?b] => destruct (Z.leb_spec a b)
         | |- context [?a <? ?b] => destruct (Z.ltb_spec a b)
         end;
  cbn [andb negb].

Lemma row_major_inj n y x y' x' :
  0 <= x < n -> 0 <= x' < n -> y * n + x = y' * n + x' -> y = y'.
Proof. intros Hx Hx' E. nia. Qed.

Lemma row_major_bound h n y x :
  0 <= y < h -> 0 <= x < n -> 0 <= y * n + x < h * n.
Proof. intros Hy Hx. nia. Qed.

Lemma half_plane_bound c h : 0 <= c -> c * (h / 2) <= c * h / 2.
Proof.
  intros Hc. apply Z.div_le_lower_bound; [lia |].
  pose proof (Z.mul_div_le h 2). nia.
Qed.

Section ToneMapFacts.

Variable s d : ultrahdr_uncompressed_struct.
Variable src_y_data dst_y_data src_uv_data dst_u_data : ptr.
Variable m0 : mem.

Let W := width d.
Let H := height d.
Let ls := luma_stride d.
Let cs := chroma_stride d.

Hypothesis same_width : width s = W.
Hypothesis same_height : height s = H.
Hypothesis width_ok : 0 <= W.
Hypothesis height_ok : 0 <= H.
Hypothesis luma_stride_ok : W <= ls < 2 ^ 64.
Hypothesis chroma_stride_ok : W / 2 <= cs < 2 ^ 64.

(** What one turn of the luma loop leaves in row [y] of the destination. *)
Let luma_cell (y x : Z) : Z :=
  if x <? W
  then p010_to_8bit (load16 m0 src_y_data (y * luma_stride s + x))
  else 0.

Lemma toneMap_luma_row_spec y m :
  blk src_y_data <> blk dst_y_data ->
  (forall p, blk p = blk src_y_data -> load m p = load m0 p) ->
  (forall x, 0 <= x < ls ->
     load (toneMap_luma_row s d src_y_data dst_y_data y m)
       (padd dst_y_data (y * ls + x)) = luma_cell y x)
  /\ (forall p, (forall x, 0 <= x < ls -> padd dst_y_data (y * ls + x) <> p) ->
        load (toneMap_luma_row s d src_y_data dst_y_data y m) p = load m p).
Proof.
  intros Hblk Hsrc.
  unfold toneMap_luma_row. rewrite same_width. fold W ls.
  set (row := padd dst_y_data (y * ls)).
  set (pixels := for_loop _ _ m).
  assert (Hpix :
    (forall x (i : unit), 0 <= x < Z.of_nat (Z.to_nat W) -> True ->
       load pixels (padd row x)
       = p010_to_8bit (load16 m src_y_data (y * luma_stride s + x)))
    /\ (forall p, (forall x (i : unit), 0 <= x < Z.of_nat (Z.to_nat W) ->
                     True -> padd row x <> p) ->
          load pixels p = load m p)).
  { apply (for_loop_cells (I := unit)) with
      (src := fun p => blk p = blk src_y_data).
    - intros k _ k' _ _ _ _ _ Heq. now apply padd_inj in Heq.
    - intros k _ _ _ Hp. simpl in Hp. congruence.
    - intros k m1 _ Hm1. split.
      + intros _ _. rewrite load_store_same. f_equal.
        apply load16_agree. intros q Hq. now apply Hm1.
      + intros p Hp. apply load_store_other. now apply (Hp tt). }
  destruct Hpix as [Hval Hframe].
  rewrite Z2Nat.id in Hval, Hframe by lia.
  assert (Hrow : forall x, padd dst_y_data (y * ls + x) = padd row x).
  { intros x. unfold row. now rewrite padd_padd. }
  clearbody pixels row.
  destruct (Z.eqb_spec W ls) as [E | NE]; cbn [negb].
  - split.
    + intros x Hx. unfold luma_cell.
      destruct (Z.ltb_spec x W); [| lia].
      rewrite Hrow, (Hval x tt) by (trivial || lia).
      f_equal. apply load16_agree. intros q Hq. now apply Hsrc.
    + intros p Hp. apply Hframe. intros x _ Hx _.
      rewrite <- Hrow. apply Hp. lia.
  - rewrite to_size_t_small by lia. split.
    + intros x Hx. unfold luma_cell. rewrite Hrow.
      destruct (Z.ltb_spec x W) as [Hlt | Hge].
      * rewrite load_memset_out by (unfold padd; simpl; lia).
        rewrite (Hval x tt) by (trivial || lia).
        f_equal. apply load16_agree. intros q Hq. now apply Hsrc.
      * replace (padd row x) with (padd (padd row W) (x - W))
          by (rewrite padd_padd; f_equal; lia).
        apply load_memset_in. lia.
    + intros p Hp.
      destruct (Z.eq_dec (blk p) (blk row)) as [Eb | Nb].
      * destruct (Z_lt_ge_dec (off p) (off row + W)) as [Hlow | Hhigh].
        -- rewrite load_memset_out by (unfold padd; simpl; lia).
           apply Hframe. intros x _ Hx _. rewrite <- Hrow. apply Hp. lia.
        -- destruct (Z_lt_ge_dec (off p) (off row + ls)) as [Hin | Hout].
           ++ exfalso. apply (Hp (off p - off row)); [lia |].
              rewrite Hrow. destruct p as [pb po]. unfold padd in *.
              simpl in *. subst pb. f_equal. lia.
           ++ rewrite load_memset_out by (unfold padd; simpl; lia).
              apply Hframe. intros x _ Hx _. rewrite <- Hrow. apply Hp. lia.
      * rewrite load_memset_out by (left; exact Nb).
        apply Hframe. intros x _ Hx _. rewrite <- Hrow. apply Hp. lia.
Qed.

Let voff := cs * H / 2.
Let dst_v_data := padd dst_u_data voff.

(** What one turn of the chroma loop leaves in row [y] of the U plane
    ([v = false]) and of the V plane ([v = true]). *)
Let chroma_cell (y : Z) (v : bool) (x : Z) : Z :=
  if x <? W / 2
  then p010_to_8bit
         (load16 m0 src_uv_data
            (y * chroma_stride s + (2 * x + if v then 1 else 0)))
  else 0.

Let chroma_addr (y : Z) (v : bool) (x : Z) : ptr :=
  padd (if v then dst_v_data else dst_u_data) (y * cs + x).

Lemma toneMap_chroma_row_spec y m :
  blk src_uv_data <> blk dst_u_data ->
  cs <= voff ->
  (forall p, blk p = blk src_uv_data -> load m p = load m0 p) ->
  (forall v x, 0 <= x < cs ->
     load (toneMap_chroma_row s d src_uv_data dst_u_data dst_v_data y m)
       (chroma_addr y v x) = chroma_cell y v x)
  /\ (forall p, (forall v x, 0 <= x < cs -> chroma_addr y v x <> p) ->
        load (toneMap_chroma_row s d src_uv_data dst_u_data dst_v_data y m) p
        = load m p).
Proof.
  intros Hblk Hvoff Hsrc.
  assert (HW2 : 0 <= W / 2) by (apply Z.div_pos; lia).
  unfold toneMap_chroma_row. rewrite same_width. fold W cs.
  set (urow := padd dst_u_data (y * cs)).
  set (vrow := padd dst_v_data (y * cs)).
  set (pixels := for_loop _ _ m).
  assert (Hpix :
    (forall x (v : bool), 0 <= x < Z.of_nat (Z.to_nat (W / 2)) -> True ->
       load pixels (padd (if v then vrow else urow) x)
       = p010_to_8bit
           (load16 m src_uv_data
              (y * chroma_stride s + (2 * x + if v then 1 else 0))))
    /\ (forall p, (forall x (v : bool), 0 <= x < Z.of_nat (Z.to_nat (W / 2)) ->
                     True -> padd (if v then vrow else urow) x <> p) ->
          load pixels p = load m p)).
  { apply (for_loop_cells (I := bool)) with
      (src := fun p => blk p = blk src_uv_data).
    - intros k v k' v' Hk _ Hk' _ Heq.
      rewrite Z2Nat.id in Hk, Hk' by lia.
      destruct v, v'; unfold vrow, urow, dst_v_data, padd in Heq;
        simpl in Heq; injection Heq; lia.
    - intros k v _ _ Hp. destruct v; simpl in Hp; congruence.
    - intros k m1 Hk Hm1. rewrite Z2Nat.id in Hk by lia. split.
      + intros v _. rewrite Z.shiftl_mul_pow2 by lia.
        change (2 ^ 1) with 2. destruct v.
        * rewrite load_store_same. f_equal.
          rewrite (load16_agree m1 m) by (intros; now apply Hm1).
          f_equal. lia.
        * rewrite load_store_other, load_store_same.
          -- f_equal.
             rewrite (load16_agree m1 m) by (intros; now apply Hm1).
             f_equal. lia.
          -- unfold vrow, urow, dst_v_data, padd. simpl.
             intros Heq. injection Heq. lia.
      + intros p Hp.
        rewrite !load_store_other; [reflexivity | |].
        * now apply (Hp false).
        * now apply (Hp true). }
  destruct Hpix as [Hval Hframe].
  rewrite Z2Nat.id in Hval, Hframe by lia.
  assert (Hu : forall x, chroma_addr y false x = padd urow x).
  { intros x. unfold chroma_addr, urow. now rewrite padd_padd. }
  assert (Hv : forall x, chroma_addr y true x = padd vrow x).
  { intros x. unfold chroma_addr, vrow. now rewrite padd_padd. }
  assert (Hvb : blk vrow = blk urow) by reflexivity.
  assert (Hvo : off vrow = off urow + voff)
    by (unfold vrow, urow, dst_v_data, padd; simpl; lia).
  assert (Hpixel : forall (v : bool) x, 0 <= x < W / 2 ->
            load pixels (padd (if v then vrow else urow) x)
            = chroma_cell y v x).
  { intros v x Hx. rewrite (Hval x v) by (trivial || lia).
    unfold chroma_cell. destruct (Z.ltb_spec x (W / 2)); [| lia].
    f_equal. apply load16_agree. intros q Hq. now apply Hsrc. }
  assert (Hpad : forall v x, W / 2 <= x -> chroma_cell y v x = 0).
  { intros v x Hx. unfold chroma_cell.
    destruct (Z.ltb_spec x (W / 2)); [lia | reflexivity]. }
  assert (Hother : forall p,
            (forall v x, 0 <= x < cs -> chroma_addr y v x <> p) ->
            load pixels p = load m p).
  { intros p Hp. apply Hframe. intros x v Hx _.
    destruct v; [rewrite <- Hv | rewrite <- Hu]; apply Hp; lia. }
  clearbody pixels urow vrow. clear Hval Hframe.
  destruct (Z.eqb_spec (W / 2) cs) as [E | NE]; cbn [negb].
  - split.
    + intros v x Hx.
      destruct v; [rewrite Hv | rewrite Hu];
        [apply (Hpixel true) | apply (Hpixel false)]; lia.
    + exact Hother.
  - rewrite to_size_t_small by lia. split.
    + intros v x Hx.
      destruct v; [rewrite Hv | rewrite Hu]; rewrite !load_memset;
        unfold padd; simpl; split_tests; try lia;
        try (symmetry; apply Hpad; lia).
      * apply (Hpixel true). lia.
      * apply (Hpixel false). lia.
    + intros p Hp. rewrite !load_memset. unfold padd; simpl.
      split_tests;
        first
          [ now apply Hother
          | exfalso; apply (Hp true (off p - off vrow));
            [lia | rewrite Hv; symmetry; apply ptr_at_offset; congruence]
          | exfalso; apply (Hp false (off p - off urow));
            [lia | rewrite Hu; symmetry; apply ptr_at_offset; congruence] ].
Qed.

Hypothesis src_luma : data s = Some src_y_data.
Hypothesis src_chroma : chroma_data s = Some src_uv_data.
Hypothesis dst_luma : data d = Some dst_y_data.
Hypothesis dst_chroma : chroma_data d = Some dst_u_data.

(** The source is not written: its planes lie in other blocks than the
    destination's. *)
Hypothesis src_y_apart :
  blk src_y_data <> blk dst_y_data /\ blk src_y_data <> blk dst_u_data.
Hypothesis src_uv_apart :
  blk src_uv_data <> blk dst_y_data /\ blk src_uv_data <> blk dst_u_data.

(** The destination's luma plane and its chroma planes do not overlap. *)
Hypothesis planes_apart :
  blk dst_y_data <> blk dst_u_data
  \/ off dst_y_data + H * ls <= off dst_u_data
  \/ off dst_u_data + (voff + H / 2 * cs) <= off dst_y_data.

Lemma toneMap_run :
  exists m',
    toneMap m0 (Some s) (Some d)
    = Returns (ULTRAHDR_NO_ERROR, m',
               Some {| data := data d; width := width d; height := height d;
                       colorGamut := colorGamut s;
                       chroma_data := chroma_data d;
                       luma_stride := luma_stride d;
                       chroma_stride := chroma_stride d;
                       pixelFormat := pixelFormat d |})
    /\ (forall y x, 0 <= y < H -> 0 <= x < ls ->
          load m' (padd dst_y_data (y * ls + x)) = luma_cell y x)
    /\ (forall y v x, 0 <= y < H / 2 -> 0 <= x < cs ->
          load m' (chroma_addr y v x) = chroma_cell y v x).
Proof.
  destruct src_y_apart as [Hyy Hyu]. destruct src_uv_apart as [Huy Huu].
  assert (HW2 : 0 <= W / 2) by (apply Z.div_pos; lia).
  assert (HH2 : 0 <= H / 2) by (apply Z.div_pos; lia).
  assert (Hhalf : cs * (H / 2) <= voff) by (apply half_plane_bound; lia).
  unfold toneMap.
  rewrite same_width, same_height. fold W H. rewrite !Z.eqb_refl.
  cbn [negb orb].
  rewrite src_luma, dst_luma, src_chroma, dst_chroma.
  fold cs voff dst_v_data.
  set (m1 := for_loop (Z.to_nat H) _ m0).
  set (m2 := for_loop (Z.to_nat (H / 2)) _ m1).
  (* the luma loop *)
  assert (Hluma :
    (forall y x, 0 <= y < Z.of_nat (Z.to_nat H) -> 0 <= x < ls ->
       load m1 (padd dst_y_data (y * ls + x)) = luma_cell y x)
    /\ (forall p, (forall y x, 0 <= y < Z.of_nat (Z.to_nat H) ->
                     0 <= x < ls -> padd dst_y_data (y * ls + x) <> p) ->
          load m1 p = load m0 p)).
  { apply (for_loop_cells (I := Z)) with
      (src := fun p => blk p = blk src_y_data).
    - intros y x y' x' _ Hx _ Hx' Heq. apply padd_inj in Heq.
      now apply (row_major_inj ls y x y' x').
    - intros y x _ _ Hp. simpl in Hp. congruence.
    - intros y m _ Hm. apply toneMap_luma_row_spec; assumption. }
  destruct Hluma as [Hlv Hlf]. rewrite Z2Nat.id in Hlv, Hlf by lia.
  (* the chroma loop *)
  assert (Hchroma :
    (forall y (i : bool * Z), 0 <= y < Z.of_nat (Z.to_nat (H / 2)) ->
       0 <= snd i < cs ->
       load m2 (chroma_addr y (fst i) (snd i)) = chroma_cell y (fst i) (snd i))
    /\ (forall p, (forall y (i : bool * Z),
                     0 <= y < Z.of_nat (Z.to_nat (H / 2)) ->
                     0 <= snd i < cs ->
                     chroma_addr y (fst i) (snd i) <> p) ->
          load m2 p = load m1 p)).
  { apply (for_loop_cells (I := bool * Z)) with
      (src := fun p => blk p = blk src_uv_data).
    - intros y [v x] y' [v' x'] Hy Hx Hy' Hx' Heq. simpl in *.
      rewrite Z2Nat.id in Hy, Hy' by lia.
      pose proof (row_major_bound (H / 2) cs y x Hy Hx).
      pose proof (row_major_bound (H / 2) cs y' x' Hy' Hx').
      destruct v, v'; unfold chroma_addr, dst_v_data, padd in Heq;
        simpl in Heq; injection Heq; intros Heq';
        first [ apply (row_major_inj cs y x y' x'); lia | nia ].
    - intros y [v x] _ _ Hp. destruct v; simpl in Hp; congruence.
    - intros y m Hy Hm. rewrite Z2Nat.id in Hy by lia.
      destruct (toneMap_chroma_row_spec y m) as [Rv Rf]; [assumption | nia | |].
      + intros p Hp. rewrite Hm by exact Hp. apply Hlf.
        intros y' x' _ _ Heq. subst p. simpl in Hp. congruence.
      + split.
        * intros [v x] Hx. now apply Rv.
        * intros p Hp. apply Rf. intros v x Hx. now apply (Hp (v, x)). }
  destruct Hchroma as [Hcv Hcf]. rewrite Z2Nat.id in Hcv, Hcf by lia.
  exists m2. split; [reflexivity |]. split.
  - intros y x Hy Hx. rewrite Hcf; [now apply Hlv |].
    intros y' [v x'] Hy' Hx' Heq. simpl in Hx', Heq.
    pose proof (row_major_bound H ls y x Hy Hx).
    pose proof (row_major_bound (H / 2) cs y' x' Hy' Hx').
    destruct v; unfold chroma_addr, dst_v_data, padd in Heq; simpl in Heq;
      injection Heq; intros Ho Hb;
      (destruct planes_apart as [Hp | [Hp | Hp]]; [congruence | nia | nia]).
  - intros y v x Hy Hx. now apply (Hcv y (v, x)).
Qed.

End ToneMapFacts.

(** C4.  For a P010 source and a destination of equal dimensions, every
    sample [toneMap] writes is the source's 16-bit sample shifted right by 6,
    then by 2, and masked to 8 bits, [(v >> 6) >> 2 & 0xff]: for luma, and
    for the interleaved U and V samples, which land in two separate planes;
    the stride padding at the right of every output row is zero.  The
    destination's strides cover its rows, as the data model asks, its luma
    and chroma planes do not overlap, and the source lies elsewhere. *)
Theorem toneMap_reduces_to_8_bits
  (m : mem) (s d : ultrahdr_uncompressed_struct)
  (src_y_data src_uv_data dst_y_data dst_u_data : ptr) :
  data s = Some src_y_data -> chroma_data s = Some src_uv_data ->
  data d = Some dst_y_data -> chroma_data d = Some dst_u_data ->
  width s = width d -> height s = height d ->
  0 <= width d -> 0 <= height d ->
  width d <= luma_stride d < 2 ^ 64 ->
  width d / 2 <= chroma_stride d < 2 ^ 64 ->
  blk src_y_data <> blk dst_y_data /\ blk src_y_data <> blk dst_u_data ->
  blk src_uv_data <> blk dst_y_data /\ blk src_uv_data <> blk dst_u_data ->
  (blk dst_y_data <> blk dst_u_data
   \/ off dst_y_data + height d * luma_stride d <= off dst_u_data
   \/ off dst_u_data
      + (chroma_stride d * height d / 2 + height d / 2 * chroma_stride d)
      <= off dst_y_data) ->
  exists m' d',
    toneMap m (Some s) (Some d) = Returns (ULTRAHDR_NO_ERROR, m', Some d')
    /\ width d' = width s /\ height d' = height s
    /\ (forall x y, 0 <= x < width d -> 0 <= y < height d ->
          load m' (padd dst_y_data (y * luma_stride d + x))
          = Z.land
              (Z.shiftr
                 (Z.shiftr (load16 m src_y_data (y * luma_stride s + x)) 6) 2)
              255)
    /\ (forall x y, 0 <= x < width d / 2 -> 0 <= y < height d / 2 ->
          load m' (padd dst_u_data (y * chroma_stride d + x))
          = Z.land
              (Z.shiftr
                 (Z.shiftr
                    (load16 m src_uv_data (y * chroma_stride s + 2 * x)) 6) 2)
              255
          /\ load m'
               (padd dst_u_data
                  (chroma_stride d * height d / 2
                   + (y * chroma_stride d + x)))
             = Z.land
                 (Z.shiftr
                    (Z.shiftr
                       (load16 m src_uv_data
                          (y * chroma_stride s + (2 * x + 1))) 6) 2)
                 255)
    /\ (forall x y, width d <= x < luma_stride d -> 0 <= y < height d ->
          load m' (padd dst_y_data (y * luma_stride d + x)) = 0)
    /\ (forall x y, width d / 2 <= x < chroma_stride d ->
                    0 <= y < height d / 2 ->
          load m' (padd dst_u_data (y * chroma_stride d + x)) = 0
          /\ load m'
               (padd dst_u_data
                  (chroma_stride d * height d / 2
                   + (y * chroma_stride d + x))) = 0).
Proof.
  intros Hsy Hsuv Hdy Hdu Hw Hh HW HH Hls Hcs Hya Huva Hplanes.
  destruct (toneMap_run s d src_y_data dst_y_data src_uv_data dst_u_data m
              Hw Hh HW HH Hls Hcs Hsy Hsuv Hdy Hdu Hya Huva Hplanes)
    as (m' & Hrun & Hluma & Hchroma).
  assert (HW2 : 0 <= width d / 2) by (apply Z.div_pos; lia).
  exists m'. eexists. split; [exact Hrun |].
  cbn [width height]. split; [now symmetry |]. split; [now symmetry |].
  assert (Hv : forall y x,
            padd dst_u_data
              (chroma_stride d * height d / 2 + (y * chroma_stride d + x))
            = padd (padd dst_u_data (chroma_stride d * height d / 2))
                (y * chroma_stride d + x))
    by (intros; now rewrite padd_padd).
  repeat split.
  - intros x y Hx Hy. rewrite Hluma by lia.
    destruct (Z.ltb_spec x (width d)); [| lia].
    apply p010_to_8bit_bits.
  - rewrite (Hchroma y false x) by lia.
    destruct (Z.ltb_spec x (width d / 2)); [| lia].
    rewrite p010_to_8bit_bits. do 4 f_equal. lia.
  - rewrite Hv, (Hchroma y true x) by lia.
    destruct (Z.ltb_spec x (width d / 2)); [| lia].
    now rewrite p010_to_8bit_bits.
  - intros x y Hx Hy. rewrite Hluma by lia.
    destruct (Z.ltb_spec x (width d)); [lia | reflexivity].
  - rewrite (Hchroma y false x) by lia.
    destruct (Z.ltb_spec x (width d / 2)); [lia | reflexivity].
  - rewrite Hv, (Hchroma y true x) by lia.
    destruct (Z.ltb_spec x (width d / 2)); [lia | reflexivity].
Qed.

Lemma toneMap_reduces_to_8_bits_witness :
  let m := Sample.heap0 in
  let s := Sample.p010_4x4 in
  let d := Sample.yuv_4x4_padded in
  let src_y_data := mkptr 2 0 in
  let src_uv_data := mkptr 2 32 in
  let dst_y_data := mkptr 1 0 in
  let dst_u_data := mkptr 1 24 in
  exists m' d',
    toneMap m (Some s) (Some d) = Returns (ULTRAHDR_NO_ERROR, m', Some d')
    /\ width d' = width s /\ height d' = height s
    /\ (forall x y, 0 <= x < width d -> 0 <= y < height d ->
          load m' (padd dst_y_data (y * luma_stride d + x))
          = Z.land
              (Z.shiftr
                 (Z.shiftr (load16 m src_y_data (y * luma_stride s + x)) 6) 2)
              255)
    /\ (forall x y, 0 <= x < width d / 2 -> 0 <= y < height d / 2 ->
          load m' (padd dst_u_data (y * chroma_stride d + x))
          = Z.land
              (Z.shiftr
                 (Z.shiftr
                    (load16 m src_uv_data (y * chroma_stride s + 2 * x)) 6) 2)
              255
          /\ load m'
               (padd dst_u_data
                  (chroma_stride d * height d / 2
                   + (y * chroma_stride d + x)))
             = Z.land
                 (Z.shiftr
                    (Z.shiftr
                       (load16 m src_uv_data
                          (y * chroma_stride s + (2 * x + 1))) 6) 2)
                 255)
    /\ (forall x y, width d <= x < luma_stride d -> 0 <= y < height d ->
          load m' (padd dst_y_data (y * luma_stride d + x)) = 0)
    /\ (forall x y, width d / 2 <= x < chroma_stride d ->
                    0 <= y < height d / 2 ->
          load m' (padd dst_u_data (y * chroma_stride d + x)) = 0
          /\ load m'
               (padd dst_u_data
                  (chroma_stride d * height d / 2
                   + (y * chroma_stride d + x))) = 0).
Proof.
  apply (toneMap_reduces_to_8_bits Sample.heap0 Sample.p010_4x4
           Sample.yuv_4x4_padded (mkptr 2 0) (mkptr 2 32) (mkptr 1 0)
           (mkptr 1 24));
    try reflexivity;
    cbn [width height luma_stride chroma_stride blk off
         Sample.yuv_4x4_padded Sample.p010_4x4];
    try lia.
  vm_compute. split; [discriminate | reflexivity].
Defined.

(** ** The editor's pixel loops *)

Lemma loop_range k n : 0 <= k < Z.of_nat (Z.to_nat n) <-> 0 <= k < n.
Proof. lia. Qed.

(** A cell the loops do not address keeps its content. *)
Lemma copy_cells_frame rows cols dest src dst_at src_at m p :
  (forall r c, 0 <= r < rows -> 0 <= c < cols ->
               padd dest (dst_at r c) <> p) ->
  load (Editor.copy_cells rows cols dest src dst_at src_at m) p = load m p.
Proof.
  intros Hp. unfold Editor.copy_cells.
  apply (for_loop_inv (fun _ m' => load m' p = load m p)); [reflexivity |].
  intros r m1 Hr IH1.
  apply (for_loop_inv (fun _ m' => load m' p = load m p)); [exact IH1 |].
  intros c m2 Hc IH2.
  rewrite load_store_other; [exact IH2 |].
  apply Hp; lia.
Qed.

(** With source and destination in different blocks and every cell
    addressed once, each addressed cell ends up with the source cell it was
    paired with. *)
Lemma copy_cells_values rows cols dest src dst_at src_at m :
  blk src <> blk dest ->
  (forall r c r' c', 0 <= r < rows -> 0 <= c < cols ->
                     0 <= r' < rows -> 0 <= c' < cols ->
                     dst_at r c = dst_at r' c' -> r = r' /\ c = c') ->
  forall r c, 0 <= r < rows -> 0 <= c < cols ->
    load (Editor.copy_cells rows cols dest src dst_at src_at m)
      (padd dest (dst_at r c))
    = load m (padd src (src_at r c)).
Proof.
  intros Hblk Hinj.
  assert (Hall :
    (forall r c, 0 <= r < Z.of_nat (Z.to_nat rows) -> 0 <= c < cols ->
       load (Editor.copy_cells rows cols dest src dst_at src_at m)
         (padd dest (dst_at r c))
       = load m (padd src (src_at r c)))
    /\ (forall p, (forall r c, 0 <= r < Z.of_nat (Z.to_nat rows) ->
                    0 <= c < cols -> padd dest (dst_at r c) <> p) ->
          load (Editor.copy_cells rows cols dest src dst_at src_at m) p
          = load m p)).
  { unfold Editor.copy_cells.
    apply (for_loop_cells (I := Z)) with (src := fun p => blk p = blk src).
    - intros r c r' c' Hr Hc Hr' Hc' Heq. apply padd_inj in Heq.
      destruct (Hinj r c r' c'); [lia | lia | lia | lia | exact Heq |].
      assumption.
    - intros r c _ _ Hp. simpl in Hp. congruence.
    - intros r m1 Hr0 Hm1. assert (Hr : 0 <= r < rows) by lia. clear Hr0.
      assert (Hrow :
        (forall c (u : unit), 0 <= c < Z.of_nat (Z.to_nat cols) -> True ->
           load (for_loop (Z.to_nat cols)
                   (fun j m => store m (padd dest (dst_at r j))
                                 (load m (padd src (src_at r j)))) m1)
             (padd dest (dst_at r c))
           = load m1 (padd src (src_at r c)))
        /\ (forall p, (forall c (u : unit),
                         0 <= c < Z.of_nat (Z.to_nat cols) -> True ->
                         padd dest (dst_at r c) <> p) ->
              load (for_loop (Z.to_nat cols)
                      (fun j m => store m (padd dest (dst_at r j))
                                    (load m (padd src (src_at r j)))) m1) p
              = load m1 p)).
      { apply (for_loop_cells (I := unit)) with
          (src := fun p => blk p = blk src).
        - intros c _ c' _ Hc _ Hc' _ Heq. apply padd_inj in Heq.
          destruct (Hinj r c r c'); [lia | lia | lia | lia | exact Heq |].
          assumption.
        - intros c _ _ _ Hp. simpl in Hp. congruence.
        - intros c m2 _ Hm2. split.
          + intros _ _. rewrite load_store_same. now apply Hm2.
          + intros p Hp. apply load_store_other. now apply (Hp tt). }
      destruct Hrow as [Rv Rf]. split.
      + intros c Hc. rewrite (Rv c tt) by (trivial || lia). now apply Hm1.
      + intros p Hp. apply Rf. intros c _ Hc _. apply Hp. lia. }
  intros r c Hr Hc. apply (proj1 Hall); lia.
Qed.

(** ** [rotate] *)

Section RotateFacts.

Variable m : mem.
Variable i o : ultrahdr_uncompressed_struct.
Variable in_data out_data : ptr.

Hypothesis in_present : data i = Some in_data.
Hypothesis out_present : data o = Some out_data.
Hypothesis format_ok :
  pixelFormat i = ULTRAHDR_PIX_FMT_YUV420
  \/ pixelFormat i = ULTRAHDR_PIX_FMT_MONOCHROME.
Hypothesis apart : blk in_data <> blk out_data.
Hypothesis width_int : 0 <= width i < 2 ^ 31.
Hypothesis height_int : 0 <= height i < 2 ^ 31.
Hypothesis stride_ok :
  luma_stride i = 0 \/ width i <= luma_stride i < 2 ^ 31.

Let W := width i.
Let H := height i.
Let in_stride := if luma_stride i =? 0 then W else luma_stride i.

Lemma in_luma_stride_value :
  Editor.in_luma_stride_of i = in_stride /\ W <= in_stride < 2 ^ 31.
Proof.
  unfold Editor.in_luma_stride_of, in_stride, W.
  destruct (Z.eqb_spec (luma_stride i) 0) as [E | NE]; cbn [negb].
  - rewrite to_int_small by lia. lia.
  - rewrite to_int_small by lia. lia.
Qed.

Lemma format_supported : Editor.unsupported_format i = false.
Proof.
  unfold Editor.unsupported_format.
  destruct format_ok as [-> | ->]; reflexivity.
Qed.

(** The writes of the two chroma planes land behind the luma plane. *)
Lemma chroma_behind_luma rows cols ols oh ocs voff src_u src_v from mem0 r c :
  0 <= ocs -> 0 <= voff -> 0 <= r * ols + c < ols * oh ->
  load
    (Editor.copy_cells rows cols (padd (padd out_data (ols * oh)) voff) src_v
       (fun r c => r * ocs + c) from
       (Editor.copy_cells rows cols (padd out_data (ols * oh)) src_u
          (fun r c => r * ocs + c) from mem0))
    (padd out_data (r * ols + c))
  = load mem0 (padd out_data (r * ols + c)).
Proof.
  intros Hocs Hvoff Hcell.
  rewrite !copy_cells_frame; [reflexivity | |];
    intros r' c' Hr' Hc' Heq; unfold padd in Heq; simpl in Heq;
    injection Heq; nia.
Qed.

Lemma rotate_90 :
  exists m' o',
    Editor.rotate m (Some i) 90 (Some o) = (ULTRAHDR_NO_ERROR, m', Some o')
    /\ width o' = H /\ height o' = W /\ luma_stride o' = H
    /\ colorGamut o' = colorGamut i /\ pixelFormat o' = pixelFormat i
    /\ forall r c, 0 <= r < W -> 0 <= c < H ->
         load m' (padd out_data (r * H + c))
         = load m (padd in_data ((H - 1 - c) * in_stride + r)).
Proof.
  destruct in_luma_stride_value as [Hstride Hbound].
  assert (HW2 : 0 <= W / 2) by (apply Z.div_pos; unfold W; lia).
  assert (HH2 : 0 <= H / 2) by (apply Z.div_pos; unfold H; lia).
  unfold Editor.rotate. rewrite in_present, out_present, format_supported.
  change (negb (90 =? 90) && negb (90 =? 180) && negb (90 =? 270)) with false.
  change (90 =? 90) with true. cbv iota. rewrite Hstride. fold W H.
  assert (Hluma : forall mem0 r c, 0 <= r < W -> 0 <= c < H ->
    load (Editor.copy_cells W H out_data in_data (fun r c => r * H + c)
            (fun r c => (H - c - 1) * in_stride + r) mem0)
      (padd out_data (r * H + c))
    = load mem0 (padd in_data ((H - 1 - c) * in_stride + r))).
  { intros mem0 r c Hr Hc.
    rewrite (copy_cells_values W H out_data in_data
               (fun r c => r * H + c)) by
      (try assumption;
       intros r1 c1 r2 c2 Hr1 Hc1 Hr2 Hc2 E;
       assert (r1 = r2) by (apply (row_major_inj H r1 c1 r2 c2); lia);
       split; lia).
    do 2 f_equal. lia. }
  destruct (Editor.is_monochrome i).
  - do 2 eexists. split; [reflexivity |].
    cbn [width height luma_stride colorGamut pixelFormat].
    repeat split. intros r c Hr Hc. now apply Hluma.
  - do 2 eexists. split; [reflexivity |].
    cbn [width height luma_stride colorGamut pixelFormat].
    repeat split. intros r c Hr Hc.
    rewrite chroma_behind_luma.
    + now apply Hluma.
    + apply Z.div_pos; unfold H; lia.
    + apply Z.mul_nonneg_nonneg; [apply Z.div_pos; unfold H; lia | lia].
    + pose proof (row_major_bound W H r c Hr Hc). lia.
Qed.

Lemma rotate_180 :
  exists m' o',
    Editor.rotate m (Some i) 180 (Some o) = (ULTRAHDR_NO_ERROR, m', Some o')
    /\ width o' = W /\ height o' = H /\ luma_stride o' = in_stride
    /\ colorGamut o' = colorGamut i /\ pixelFormat o' = pixelFormat i
    /\ forall r c, 0 <= r < H -> 0 <= c < W ->
         load m' (padd out_data (r * in_stride + c))
         = load m (padd in_data ((H - 1 - r) * in_stride + (W - 1 - c))).
Proof.
  destruct in_luma_stride_value as [Hstride Hbound].
  assert (HW0 : 0 <= W) by (unfold W; lia).
  unfold Editor.rotate. rewrite in_present, out_present, format_supported.
  change (negb (180 =? 90) && negb (180 =? 180) && negb (180 =? 270))
    with false.
  change (180 =? 90) with false. change (180 =? 180) with true.
  cbv iota. rewrite Hstride. fold W H.
  rewrite (to_size_t_small in_stride) by lia.
  assert (Hluma : forall mem0 r c, 0 <= r < H -> 0 <= c < W ->
    load (Editor.copy_cells H W out_data in_data
            (fun r c => r * in_stride + c)
            (fun r c => (H - r - 1) * in_stride + (W - c - 1)) mem0)
      (padd out_data (r * in_stride + c))
    = load mem0 (padd in_data ((H - 1 - r) * in_stride + (W - 1 - c)))).
  { intros mem0 r c Hr Hc.
    rewrite (copy_cells_values H W out_data in_data
               (fun r c => r * in_stride + c)) by
      (try assumption;
       intros r1 c1 r2 c2 Hr1 Hc1 Hr2 Hc2 E;
       assert (r1 = r2)
         by (apply (row_major_inj in_stride r1 c1 r2 c2); lia);
       split; lia).
    do 2 f_equal. lia. }
  destruct (Editor.is_monochrome i).
  - do 2 eexists. split; [reflexivity |].
    cbn [width height luma_stride colorGamut pixelFormat].
    repeat split. intros r c Hr Hc. now apply Hluma.
  - do 2 eexists. split; [reflexivity |].
    cbn [width height luma_stride colorGamut pixelFormat].
    repeat split. intros r c Hr Hc.
    rewrite chroma_behind_luma.
    + now apply Hluma.
    + apply Z.div_pos; lia.
    + apply Z.mul_nonneg_nonneg; apply Z.div_pos; unfold H; lia.
    + assert (0 <= c < in_stride) by lia.
      pose proof (row_major_bound H in_stride r c Hr). lia.
Qed.

Lemma rotate_270 :
  exists m' o',
    Editor.rotate m (Some i) 270 (Some o) = (ULTRAHDR_NO_ERROR, m', Some o')
    /\ width o' = H /\ height o' = W /\ luma_stride o' = H
    /\ colorGamut o' = colorGamut i /\ pixelFormat o' = pixelFormat i
    /\ forall r c, 0 <= r < W -> 0 <= c < H ->
         load m' (padd out_data (r * H + c))
         = load m (padd in_data (c * in_stride + (W - 1 - r))).
Proof.
  destruct in_luma_stride_value as [Hstride Hbound].
  unfold Editor.rotate. rewrite in_present, out_present, format_supported.
  change (negb (270 =? 90) && negb (270 =? 180) && negb (270 =? 270))
    with false.
  change (270 =? 90) with false. change (270 =? 180) with false.
  change (270 =? 270) with true.
  cbv iota. rewrite Hstride. fold W H.
  assert (HW2 : 0 <= W / 2) by (apply Z.div_pos; unfold W; lia).
  assert (Hluma : forall mem0 r c, 0 <= r < W -> 0 <= c < H ->
    load (Editor.copy_cells W H out_data in_data (fun r c => r * H + c)
            (fun r c => c * in_stride + (W - r - 1)) mem0)
      (padd out_data (r * H + c))
    = load mem0 (padd in_data (c * in_stride + (W - 1 - r)))).
  { intros mem0 r c Hr Hc.
    rewrite (copy_cells_values W H out_data in_data
               (fun r c => r * H + c)) by
      (try assumption;
       intros r1 c1 r2 c2 Hr1 Hc1 Hr2 Hc2 E;
       assert (r1 = r2) by (apply (row_major_inj H r1 c1 r2 c2); lia);
       split; lia).
    do 2 f_equal. lia. }
  destruct (Editor.is_monochrome i).
  - do 2 eexists. split; [reflexivity |].
    cbn [width height luma_stride colorGamut pixelFormat].
    repeat split. intros r c Hr Hc. now apply Hluma.
  - do 2 eexists. split; [reflexivity |].
    cbn [width height luma_stride colorGamut pixelFormat].
    repeat split. intros r c Hr Hc.
    rewrite chroma_behind_luma.
    + now apply Hluma.
    + apply Z.div_pos; unfold H; lia.
    + apply Z.mul_nonneg_nonneg; [apply Z.div_pos; unfold H; lia | lia].
    + pose proof (row_major_bound W H r c Hr Hc). lia.
Qed.

End RotateFacts.



(** ** [addEffects] *)

(** The size [addEffects] copies, when the pixel count fits an [int]. *)
Lemma buffer_size_small single pixels :
  0 <= pixels -> pixels * 3 < 2 ^ 31 ->
  Editor.buffer_size single (to_size_t pixels)
  = if single then pixels else pixels * 3 / 2.
Proof.
  intros H0 H3. unfold Editor.buffer_size.
  rewrite to_size_t_small, to_int_small by lia.
  destruct single; cbn [negb]; [reflexivity |].
  apply Z.quot_div_nonneg; lia.
Qed.

(** C10.  For a YUV 4:2:0 or monochrome input, [addEffects] with an empty
    list of effects returns NO_ERROR and is the identity: the output's
    width, height, gamut, pixel format and the two strides are the
    input's, and the output bytes are the input's, W*H of them for
    monochrome and W*H*3/2 for YUV 4:2:0.  The two buffers are distinct
    and the byte count fits the [int] the code holds it in. *)
Theorem addEffects_no_effect_is_identity
  (w : world) (junk i o : ultrahdr_uncompressed_struct)
  (in_data out_data : ptr) :
  data i = Some in_data -> data o = Some out_data ->
  pixelFormat i = ULTRAHDR_PIX_FMT_YUV420
  \/ pixelFormat i = ULTRAHDR_PIX_FMT_MONOCHROME ->
  blk in_data <> blk out_data ->
  0 <= width i -> 0 <= height i -> width i * height i * 3 < 2 ^ 31 ->
  exists w' o',
    Editor.addEffects w junk (Some i) [] (Some o)
    = (ULTRAHDR_NO_ERROR, w', Some o')
    /\ width o' = width i /\ height o' = height i
    /\ colorGamut o' = colorGamut i /\ pixelFormat o' = pixelFormat i
    /\ luma_stride o' = luma_stride i /\ chroma_stride o' = chroma_stride i
    /\ (pixelFormat i = ULTRAHDR_PIX_FMT_MONOCHROME ->
        forall k, 0 <= k < width i * height i ->
          load (heap w') (padd out_data k) = load (heap w) (padd in_data k))
    /\ (pixelFormat i = ULTRAHDR_PIX_FMT_YUV420 ->
        forall k, 0 <= k < width i * height i * 3 / 2 ->
          load (heap w') (padd out_data k) = load (heap w) (padd in_data k)).
Proof.
  intros Hi Ho Hfmt _ HW HH Hsize.
  assert (Hpix : 0 <= width i * height i) by nia.
  assert (Hhalf : 0 <= width i * height i * 3 / 2 < 2 ^ 31).
  { split; [apply Z.div_pos; lia |].
    apply Z.div_lt_upper_bound; lia. }
  unfold Editor.addEffects. rewrite Hi, Ho. cbn [fold_left].
  rewrite buffer_size_small by lia.
  do 2 eexists. split; [reflexivity |].
  cbn [Editor.st_out Editor.st_world heap width height colorGamut pixelFormat
       luma_stride chroma_stride].
  repeat split.
  - intros Hmono k Hk. unfold Editor.is_monochrome. rewrite Hmono.
    cbn [pixfmt_eqb]. rewrite to_size_t_small by lia.
    now apply load_memcpy_in.
  - intros Hyuv k Hk. unfold Editor.is_monochrome. rewrite Hyuv.
    cbn [pixfmt_eqb]. rewrite to_size_t_small by lia.
    now apply load_memcpy_in.
Qed.

Lemma addEffects_no_effect_is_identity_witness :
  let w := Sample.world0 in
  let i := Sample.yuv_4x4 in
  let in_data := mkptr 1 0 in
  let out_data := mkptr 3 0 in
  exists w' o',
    Editor.addEffects w Sample.gray_3x2 (Some i) [] (Some Sample.blank_dest)
    = (ULTRAHDR_NO_ERROR, w', Some o')
    /\ width o' = width i /\ height o' = height i
    /\ colorGamut o' = colorGamut i /\ pixelFormat o' = pixelFormat i
    /\ luma_stride o' = luma_stride i /\ chroma_stride o' = chroma_stride i
    /\ (pixelFormat i = ULTRAHDR_PIX_FMT_MONOCHROME ->
        forall k, 0 <= k < width i * height i ->
          load (heap w') (padd out_data k) = load (heap w) (padd in_data k))
    /\ (pixelFormat i = ULTRAHDR_PIX_FMT_YUV420 ->
        forall k, 0 <= k < width i * height i * 3 / 2 ->
          load (heap w') (padd out_data k) = load (heap w) (padd in_data k)).
Proof.
  apply (addEffects_no_effect_is_identity Sample.world0 Sample.gray_3x2
           Sample.yuv_4x4 Sample.blank_dest (mkptr 1 0) (mkptr 3 0)).
  - reflexivity.
  - reflexivity.
  - left. reflexivity.
  - discriminate.
  - discriminate.
  - discriminate.
  - reflexivity.
Defined.

(** The test [editingCombinationYuvImage] of the repository: resize to
    240x180, mirror vertically, rotate by 900 degrees, crop to columns
    20..149 and rows 10..99.  The call reports success and the output has
    the size of the crop; the rotation left no trace. *)
Lemma editingCombinationYuvImage :
  let effects :=
    [ultrahdr_resize_effect 240 180;
     ultrahdr_mirror_effect ULTRAHDR_MIRROR_VERTICAL;
     ultrahdr_rotate_effect 900;
     ultrahdr_crop_effect 20 149 10 99] in
  let r :=
    Editor.addEffects Sample.world0 Sample.gray_3x2
      (Some Sample.yuv_320x240) effects (Some Sample.blank_dest) in
  fst (fst r) = ULTRAHDR_NO_ERROR
  /\ option_map width (snd r) = Some 130
  /\ option_map height (snd r) = Some 90
  /\ option_map colorGamut (snd r) = Some ULTRAHDR_COLORGAMUT_BT709
  /\ option_map pixelFormat (snd r) = Some ULTRAHDR_PIX_FMT_YUV420.
Proof. lazy. repeat split. Qed.

(** C7.  [rotate] turns 900 degrees away with
    InvalidCropping, but [addEffects] does not look at what it returns: a
    list holding that rotation still ends in NO_ERROR, and what reaches the
    output is [tmp] as it was before the rotation was tried, here never
    initialized. *)
Theorem addEffects_rotate_900_not_rejected :
  Editor.rotate Sample.heap0 (Some Sample.gray_3x2) 900
    (Some Sample.blank_dest)
  = (ERROR_ULTRAHDR_INVALID_CROPPING_PARAMETERS, Sample.heap0,
     Some Sample.blank_dest)
  /\ exists w' o',
      Editor.addEffects Sample.world0 Sample.yuv_4x4_padded
        (Some Sample.gray_3x2) [ultrahdr_rotate_effect 900]
        (Some Sample.blank_dest)
      = (ULTRAHDR_NO_ERROR, w', Some o')
      /\ width o' = width Sample.yuv_4x4_padded
      /\ height o' = height Sample.yuv_4x4_padded
      /\ pixelFormat o' = ULTRAHDR_PIX_FMT_UNSPECIFIED.
Proof.
  split; [reflexivity |].
  do 2 eexists. split; [reflexivity |].
  repeat split.
Qed.

(** ** The assembler *)

(** What [isJpeg] tests. *)
Lemma isJpeg_spec d len :
  isJpeg (Some d) len = true
  <-> 3 <= len
      /\ ((byte_at d 0 = 255 /\ byte_at d 1 = 216) \/ byte_at d 2 = 255).
Proof.
  unfold isJpeg. destruct (Z.ltb_spec len 3) as [Hlt | Hge].
  - split; [discriminate | lia].
  - rewrite orb_true_iff, andb_true_iff, !Z.eqb_eq. tauto.
Qed.

(** C8.  The three bytes 00 00 FF do not start with the SOI
    marker and are too short to carry a brand, yet [isJpeg] accepts them
    for their third byte, and [addImage] takes the JPEG path: whatever the
    scanner and the decoders make of them, the bytes end up in the
    [sdr_jpeg_img] slot. *)
Theorem addImage_third_byte_ff_taken_for_jpeg :
  let bytes := [0; 0; 255] in
  let image := mkcompressed (Some bytes) 3 3 ULTRAHDR_COLORGAMUT_BT709 in
  isJpeg (Some bytes) 3 = true
  /\ isHeif (Some bytes) 3 = false
  /\ forall jpeg_scan decompressImage getMetadataFromXMP addImage_heif
            stack_junk w self,
       exists st w' self',
         addImage_compressed jpeg_scan decompressImage getMetadataFromXMP
           addImage_heif stack_junk w self (Some image)
         = Returns (st, w', self')
         /\ (sdr_jpeg_img self = None -> sdr_jpeg_img self' <> None).
Proof.
  split; [reflexivity |]. split; [reflexivity |].
  intros scan dec xmp heif junk w self.
  unfold addImage_compressed.
  change (isJpeg _ _) with true. cbv iota.
  assert (Hfill : forall src image',
            sdr_jpeg_img self = None ->
            sdr_jpeg_img (fill_sdr_jpeg_img self src image') <> None).
  { intros src image' Hnone. unfold fill_sdr_jpeg_img. rewrite Hnone.
    discriminate. }
  destruct (extractPrimaryImageAndGainMap scan _ junk junk)
    as [[err primary] gainmap].
  destruct err;
    try (do 3 eexists; split; [reflexivity | now apply Hfill]).
  set (self1 := fill_sdr_jpeg_img self primary _).
  assert (H1 : sdr_jpeg_img self = None -> sdr_jpeg_img self1 <> None)
    by apply Hfill.
  clearbody self1.
  repeat (cbn [gain_map_raw_img gain_map_metadata set_gain_map_raw_img
               set_gain_map_metadata new_array negb];
          match goal with
          | |- context [match ?x with _ => _ end] =>
              lazymatch x with
              | context [match _ with _ => _ end] => fail
              | _ => destruct x eqn:?
              end
          end);
    (do 3 eexists; split;
     [reflexivity
     | intros Hn;
       cbn [sdr_jpeg_img set_gain_map_raw_img set_gain_map_metadata];
       now apply H1]).
Qed.

(** C9.  [addImage] on an uncompressed buffer is first-writer-wins.  With
    the [hdr_raw_img] slot empty, a P010 image fills it, and with the
    [sdr_raw_img] slot empty a YUV 4:2:0 image fills that one: the slot
    takes the image's dimensions, gamut and format and a copy of its
    bytes in a block of its own, and no other slot changes.  With the slot
    already filled, a call with that pixel format returns NO_ERROR and
    leaves the assembler and the heap exactly as they were.  A filling
    call allocates: its byte count W*H*3 fits the [int] the code holds
    it in, so that [new] is asked for a valid length, and the copy stays
    within the bytes allocated. *)
Theorem addImage_uncompressed_first_writer_wins
  (w : world) (self : UltraHdr) (img : ultrahdr_uncompressed_struct) :
  (pixelFormat img = ULTRAHDR_PIX_FMT_P010 ->
     (hdr_raw_img self <> None ->
        addImage_uncompressed w self (Some img)
        = Returns (ULTRAHDR_NO_ERROR, w, self))
     /\ (hdr_raw_img self = None -> forall src, data img = Some src ->
          0 <= width img * height img * 3 < 2 ^ 31 ->
          exists w' self' slot,
            addImage_uncompressed w self (Some img)
            = Returns (ULTRAHDR_NO_ERROR, w', self')
            /\ hdr_raw_img self' = Some slot
            /\ sdr_raw_img self' = sdr_raw_img self
            /\ sdr_jpeg_img self' = sdr_jpeg_img self
            /\ sdr_heif_img self' = sdr_heif_img self
            /\ gain_map_raw_img self' = gain_map_raw_img self
            /\ gain_map_metadata self' = gain_map_metadata self
            /\ exif self' = exif self
            /\ width slot = width img /\ height slot = height img
            /\ colorGamut slot = colorGamut img
            /\ pixelFormat slot = ULTRAHDR_PIX_FMT_P010
            /\ data slot = Some (mkptr (next_block w) 0)
            /\ (forall k, 0 <= k < width img * height img * 3 ->
                  load (heap w') (mkptr (next_block w) k)
                  = load (heap w) (padd src k))
            /\ (forall q, blk q <> next_block w \/ off q < 0
                           \/ width img * height img * 3 <= off q ->
                  load (heap w') q = load (heap w) q)))
  /\ (pixelFormat img = ULTRAHDR_PIX_FMT_YUV420 ->
      (sdr_raw_img self <> None ->
         addImage_uncompressed w self (Some img)
         = Returns (ULTRAHDR_NO_ERROR, w, self))
      /\ (sdr_raw_img self = None -> forall src, data img = Some src ->
           0 <= width img * height img * 3 < 2 ^ 31 ->
           exists w' self' slot,
             addImage_uncompressed w self (Some img)
             = Returns (ULTRAHDR_NO_ERROR, w', self')
             /\ sdr_raw_img self' = Some slot
             /\ hdr_raw_img self' = hdr_raw_img self
             /\ sdr_jpeg_img self' = sdr_jpeg_img self
             /\ sdr_heif_img self' = sdr_heif_img self
             /\ gain_map_raw_img self' = gain_map_raw_img self
             /\ gain_map_metadata self' = gain_map_metadata self
             /\ exif self' = exif self
             /\ width slot = width img /\ height slot = height img
             /\ colorGamut slot = colorGamut img
             /\ pixelFormat slot = ULTRAHDR_PIX_FMT_YUV420
             /\ data slot = Some (mkptr (next_block w) 0)
             /\ (forall k, 0 <= k < width img * height img * 3 / 2 ->
                   load (heap w') (mkptr (next_block w) k)
                   = load (heap w) (padd src k))
             /\ (forall q, blk q <> next_block w \/ off q < 0
                            \/ width img * height img * 3 / 2 <= off q ->
                   load (heap w') q = load (heap w) q))).
Proof.
  split; intros Hfmt;
    (split; [intros Hfull | intros Hempty src Hsrc Hsize]);
    unfold addImage_uncompressed; rewrite Hfmt.
  - destruct (hdr_raw_img self); [reflexivity | congruence].
  - rewrite Hempty, Hsrc. cbn [new_array].
    do 3 eexists. split; [reflexivity |].
    cbn [hdr_raw_img sdr_raw_img sdr_jpeg_img sdr_heif_img gain_map_raw_img
         gain_map_metadata exif width height colorGamut pixelFormat data heap].
    rewrite (to_size_t_small (width img * height img * 3)) by lia.
    rewrite to_int_small, to_size_t_small by lia.
    repeat split; try assumption.
    + intros k Hk.
      change (mkptr (next_block w) k) with (padd (mkptr (next_block w) 0) k).
      now apply load_memcpy_in.
    + intros q Hq. apply load_memcpy_out. cbn [blk off]. lia.
  - destruct (sdr_raw_img self); [reflexivity | congruence].
  - rewrite Hempty, Hsrc. cbn [new_array].
    do 3 eexists. split; [reflexivity |].
    cbn [hdr_raw_img sdr_raw_img sdr_jpeg_img sdr_heif_img gain_map_raw_img
         gain_map_metadata exif width height colorGamut pixelFormat data heap].
    assert (Hhalf : 0 <= width img * height img * 3 / 2 < 2 ^ 31).
    { split; [apply Z.div_pos; lia |].
      apply Z.div_lt_upper_bound; lia. }
    rewrite (to_size_t_small (width img * height img * 3)) by lia.
    rewrite to_int_small, to_size_t_small by lia.
    repeat split; try assumption.
    + intros k Hk.
      change (mkptr (next_block w) k) with (padd (mkptr (next_block w) 0) k).
      now apply load_memcpy_in.
    + intros q Hq. apply load_memcpy_out. cbn [blk off]. lia.
Qed.

Lemma addImage_uncompressed_first_writer_wins_witness :
  (* a second P010 image meets a filled slot *)
  addImage_uncompressed Sample.world0 Sample.raw_filled_assembler
    (Some Sample.p010_4x4)
  = Returns (ULTRAHDR_NO_ERROR, Sample.world0, Sample.raw_filled_assembler)
  (* a first YUV 4:2:0 image meets an empty one *)
  /\ exists w' self' slot,
      addImage_uncompressed Sample.world0 Sample.empty_assembler
        (Some Sample.yuv_4x4)
      = Returns (ULTRAHDR_NO_ERROR, w', self')
      /\ sdr_raw_img self' = Some slot
      /\ hdr_raw_img self' = None
      /\ width slot = 4 /\ height slot = 4
      /\ data slot = Some (mkptr 10 0).
Proof.
  destruct (addImage_uncompressed_first_writer_wins Sample.world0
              Sample.raw_filled_assembler Sample.p010_4x4) as [Hp010 _].
  destruct (addImage_uncompressed_first_writer_wins Sample.world0
              Sample.empty_assembler Sample.yuv_4x4) as [_ Hyuv].
  split.
  - apply Hp010; [reflexivity | discriminate].
  - assert (Hsize : 0 <= 4 * 4 * 3 < 2 ^ 31) by lia.
    destruct (proj2 (Hyuv eq_refl) eq_refl (mkptr 1 0) eq_refl Hsize)
      as (w' & self' & slot & Hrun & Hslot & Hhdr & _ & _ & _ & _ & _
          & Hw & Hh & _ & _ & Hdata & _).
    exists w', self', slot. repeat split; assumption.
Defined.

(** ** Row copies *)

(** A cell outside every destination row is not touched by the row loop. *)
Lemma copy_rows_frame rows dest src dst_row src_row n m p :
  (forall r c, 0 <= r < rows -> 0 <= c < n ->
               padd dest (dst_row r + c) <> p) ->
  load (Editor.copy_rows rows dest src dst_row src_row n m) p = load m p.
Proof.
  intros Hp. unfold Editor.copy_rows.
  apply (for_loop_inv (fun _ m' => load m' p = load m p)); [reflexivity |].
  intros r m1 Hr IH.
  rewrite load_memcpy_out; [exact IH |].
  destruct (Z.eq_dec (blk p) (blk dest)) as [Hb | Hb]; [| now left].
  right. cbn [padd off].
  destruct (Z_lt_dec (off p) (off dest + dst_row (Z.of_nat r)));
    [now left | right].
  destruct (Z_le_dec (off dest + dst_row (Z.of_nat r) + n) (off p));
    [assumption | exfalso].
  apply (Hp (Z.of_nat r) (off p - off dest - dst_row (Z.of_nat r)));
    [lia | lia |].
  destruct p as [pb po], dest as [db dof]. unfold padd. simpl in *.
  subst. f_equal. lia.
Qed.

(** With the source in another block and rows that do not overlap, byte
    [c] of destination row [r] is byte [c] of source row [r]. *)
Lemma copy_rows_values rows dest src dst_row src_row n m :
  blk src <> blk dest ->
  (forall r c r' c', 0 <= r < rows -> 0 <= c < n ->
                     0 <= r' < rows -> 0 <= c' < n ->
                     dst_row r + c = dst_row r' + c' -> r = r') ->
  forall r c, 0 <= r < rows -> 0 <= c < n ->
    load (Editor.copy_rows rows dest src dst_row src_row n m)
      (padd dest (dst_row r + c))
    = load m (padd src (src_row r + c)).
Proof.
  intros Hblk Hinj.
  assert (Hall :
    (forall r c, 0 <= r < Z.of_nat (Z.to_nat rows) -> 0 <= c < n ->
       load (Editor.copy_rows rows dest src dst_row src_row n m)
         (padd dest (dst_row r + c))
       = load m (padd src (src_row r + c)))
    /\ (forall p, (forall r c, 0 <= r < Z.of_nat (Z.to_nat rows) ->
                    0 <= c < n -> padd dest (dst_row r + c) <> p) ->
          load (Editor.copy_rows rows dest src dst_row src_row n m) p
          = load m p)).
  { unfold Editor.copy_rows.
    apply (for_loop_cells (I := Z)) with (src := fun p => blk p = blk src).
    - intros r c r' c' Hr Hc Hr' Hc' Heq. apply padd_inj in Heq.
      apply (Hinj r c r' c'); lia.
    - intros r c _ _ Hp. simpl in Hp. congruence.
    - intros r m1 Hr Hm1. split.
      + intros c Hc. rewrite <- padd_padd.
        rewrite load_memcpy_in by lia. rewrite padd_padd.
        now apply Hm1.
      + intros p Hp. apply load_memcpy_out.
        destruct (Z.eq_dec (blk p) (blk dest)) as [Hb | Hb]; [| now left].
        right. cbn [padd off].
        destruct (Z_lt_dec (off p) (off dest + dst_row r)); [now left | right].
        destruct (Z_le_dec (off dest + dst_row r + n) (off p));
          [assumption | exfalso].
        apply (Hp (off p - off dest - dst_row r)); [lia |].
        destruct p as [pb po], dest as [db dof]. unfold padd. simpl in *.
        subst. f_equal. lia. }
  intros r c Hr Hc. apply (proj1 Hall); lia.
Qed.

(** The editor's loops write to the destination's block only. *)
Lemma copy_rows_block rows dest src dst_row src_row n m p :
  blk p <> blk dest ->
  load (Editor.copy_rows rows dest src dst_row src_row n m) p = load m p.
Proof.
  intros Hb. apply copy_rows_frame. intros r c _ _ E. subst p.
  now apply Hb.
Qed.

Lemma copy_cells_block rows cols dest src dst_at src_at m p :
  blk p <> blk dest ->
  load (Editor.copy_cells rows cols dest src dst_at src_at m) p = load m p.
Proof.
  intros Hb. apply copy_cells_frame. intros r c _ _ E. subst p.
  now apply Hb.
Qed.

(** A cell below the destination pointer is out of the loops' reach when
    no destination index is negative. *)
Lemma copy_rows_above rows dest src dst_row src_row n m p :
  (forall r, 0 <= r < rows -> 0 <= dst_row r) ->
  off p < off dest ->
  load (Editor.copy_rows rows dest src dst_row src_row n m) p = load m p.
Proof.
  intros Hpos Hp. apply copy_rows_frame. intros r c Hr Hc E. subst p.
  specialize (Hpos r Hr). cbn [padd off] in Hp. lia.
Qed.

Lemma copy_cells_above rows cols dest src dst_at src_at m p :
  (forall r c, 0 <= r < rows -> 0 <= c < cols -> 0 <= dst_at r c) ->
  off p < off dest ->
  load (Editor.copy_cells rows cols dest src dst_at src_at m) p = load m p.
Proof.
  intros Hpos Hp. apply copy_cells_frame. intros r c Hr Hc E. subst p.
  specialize (Hpos r c Hr Hc). cbn [padd off] in Hp. lia.
Qed.

Lemma shiftr_1_half z : Z.shiftr z 1 = z / 2.
Proof. now rewrite Z.shiftr_div_pow2 by lia. Qed.

(** The U and the V plane written one after the other, each by the same
    index map, into planes [voff] apart. *)
Lemma two_planes_cells rows cols ocs voff dest_u src_u src_v from m1 r c :
  blk src_u <> blk dest_u -> blk src_v <> blk dest_u ->
  cols <= ocs -> rows * ocs <= voff ->
  0 <= r < rows -> 0 <= c < cols ->
  let mU :=
    Editor.copy_cells rows cols dest_u src_u (fun r c => r * ocs + c) from
      m1 in
  let mV :=
    Editor.copy_cells rows cols (padd dest_u voff) src_v
      (fun r c => r * ocs + c) from mU in
  load mV (padd dest_u (r * ocs + c)) = load m1 (padd src_u (from r c))
  /\ load mV (padd (padd dest_u voff) (r * ocs + c))
     = load m1 (padd src_v (from r c)).
Proof.
  intros Hu Hv Hcols Hvoff Hr Hc mU mV.
  assert (Hinj : forall r1 c1 r2 c2, 0 <= r1 < rows -> 0 <= c1 < cols ->
            0 <= r2 < rows -> 0 <= c2 < cols ->
            r1 * ocs + c1 = r2 * ocs + c2 -> r1 = r2 /\ c1 = c2).
  { intros r1 c1 r2 c2 Hr1 Hc1 Hr2 Hc2 E.
    assert (r1 = r2) by (apply (row_major_inj ocs r1 c1 r2 c2); lia).
    split; lia. }
  split.
  - unfold mV. rewrite copy_cells_above.
    + unfold mU.
      now rewrite (copy_cells_values rows cols dest_u src_u
                     (fun r c => r * ocs + c)).
    + intros; nia.
    + cbn [padd off]. nia.
  - unfold mV.
    rewrite (copy_cells_values rows cols (padd dest_u voff) src_v
               (fun r c => r * ocs + c)); try assumption.
    unfold mU. apply copy_cells_block. cbn [padd blk]. assumption.
Qed.

Lemma two_planes_rows rows cols ocs voff dest_u src_u src_v dst_row src_row
  m1 r c :
  blk src_u <> blk dest_u -> blk src_v <> blk dest_u ->
  cols <= ocs -> rows * ocs <= voff ->
  (forall k, 0 <= k < rows -> exists j, 0 <= j < rows /\ dst_row k = j * ocs) ->
  (forall k k', 0 <= k < rows -> 0 <= k' < rows ->
                dst_row k = dst_row k' -> k = k') ->
  0 <= r < rows -> 0 <= c < cols ->
  let mU :=
    Editor.copy_rows rows dest_u src_u dst_row src_row cols m1 in
  let mV :=
    Editor.copy_rows rows (padd dest_u voff) src_v dst_row src_row cols mU in
  load mV (padd dest_u (dst_row r + c)) = load m1 (padd src_u (src_row r + c))
  /\ load mV (padd (padd dest_u voff) (dst_row r + c))
     = load m1 (padd src_v (src_row r + c)).
Proof.
  intros Hu Hv Hcols Hvoff Hrow Hrinj Hr Hc mU mV.
  assert (Hinj : forall r1 c1 r2 c2, 0 <= r1 < rows -> 0 <= c1 < cols ->
            0 <= r2 < rows -> 0 <= c2 < cols ->
            dst_row r1 + c1 = dst_row r2 + c2 -> r1 = r2).
  { intros r1 c1 r2 c2 Hr1 Hc1 Hr2 Hc2 E.
    destruct (Hrow r1 Hr1) as (j1 & Hj1 & E1).
    destruct (Hrow r2 Hr2) as (j2 & Hj2 & E2).
    apply Hrinj; try assumption.
    assert (j1 = j2) by (apply (row_major_inj ocs j1 c1 j2 c2); lia).
    congruence. }
  split.
  - unfold mV. rewrite copy_rows_above.
    + unfold mU. now rewrite copy_rows_values.
    + intros k Hk. destruct (Hrow k Hk) as (j & Hj & ->). nia.
    + cbn [padd off]. destruct (Hrow r Hr) as (j & Hj & ->). nia.
  - unfold mV. rewrite copy_rows_values; try assumption.
    unfold mU. apply copy_rows_block. cbn [padd blk]. assumption.
Qed.

Section EditorFacts.

Variable m : mem.
Variable i o : ultrahdr_uncompressed_struct.
Variable in_data out_data : ptr.

Hypothesis in_present : data i = Some in_data.
Hypothesis out_present : data o = Some out_data.
Hypothesis format_ok :
  pixelFormat i = ULTRAHDR_PIX_FMT_YUV420
  \/ pixelFormat i = ULTRAHDR_PIX_FMT_MONOCHROME.
Hypothesis apart : blk in_data <> blk out_data.
Hypothesis width_int : 0 <= width i < 2 ^ 31.
Hypothesis height_int : 0 <= height i < 2 ^ 31.
Hypothesis stride_ok :
  luma_stride i = 0 \/ width i <= luma_stride i < 2 ^ 31.

Let W := width i.
Let H := height i.
Let S := luma_stride_in_use i.

Lemma luma_stride_in_use_value :
  Editor.in_luma_stride_of i = S /\ W <= S < 2 ^ 31.
Proof.
  unfold S, luma_stride_in_use.
  exact (in_luma_stride_value i width_int stride_ok).
Qed.

Lemma crop_luma left right top bottom :
  0 <= left <= right -> right < W -> 0 <= top <= bottom -> bottom < H ->
  exists m' o',
    Editor.crop m (Some i) left right top bottom (Some o)
    = (ULTRAHDR_NO_ERROR, m', Some o')
    /\ data o' = Some out_data
    /\ width o' = right - left + 1 /\ height o' = bottom - top + 1
    /\ luma_stride o' = right - left + 1
    /\ colorGamut o' = colorGamut i /\ pixelFormat o' = pixelFormat i
    /\ forall r c, 0 <= r < bottom - top + 1 -> 0 <= c < right - left + 1 ->
         load m' (padd out_data (r * (right - left + 1) + c))
         = load m (padd in_data ((top + r) * S + (left + c))).
Proof.
  intros Hl Hr Ht Hb.
  destruct luma_stride_in_use_value as [Hstride Hbound].
  unfold Editor.crop. rewrite in_present, out_present.
  rewrite (format_supported i format_ok). fold W H.
  rewrite !to_size_t_small by lia.
  destruct (Z.ltb_spec left 0); [lia |].
  destruct (Z.leb_spec W right); [lia |].
  destruct (Z.ltb_spec top 0); [lia |].
  destruct (Z.leb_spec H bottom); [lia |].
  cbn [orb]. rewrite Hstride.
  set (ow := right - left + 1). set (oh := bottom - top + 1).
  assert (Hluma : forall r c, 0 <= r < oh -> 0 <= c < ow ->
    load (Editor.copy_rows oh out_data (padd in_data (S * top + left))
            (fun r => r * ow) (fun r => r * S) ow m)
      (padd out_data (r * ow + c))
    = load m (padd in_data ((top + r) * S + (left + c)))).
  { intros r c Hr' Hc'.
    rewrite (copy_rows_values oh out_data (padd in_data (S * top + left))
               (fun r => r * ow) (fun r => r * S) ow m) by
      (try assumption;
       intros r1 c1 r2 c2 Hr1 Hc1 Hr2 Hc2 E;
       apply (row_major_inj ow r1 c1 r2 c2); lia).
    rewrite padd_padd. do 2 f_equal. lia. }
  destruct (Editor.is_monochrome i).
  - do 2 eexists. split; [reflexivity |].
    cbn [data width height luma_stride colorGamut pixelFormat].
    repeat split; assumption.
  - do 2 eexists. split; [reflexivity |].
    cbn [data width height luma_stride colorGamut pixelFormat].
    repeat split; try assumption. intros r c Hr' Hc'.
    rewrite copy_rows_above.
    + now apply Hluma.
    + intros r' Hr''. assert (0 <= ow / 2) by (apply Z.div_pos; lia). nia.
    + cbn [padd off].
      pose proof (row_major_bound oh ow r c Hr' Hc'). lia.
Qed.

Lemma mirror_luma dir :
  exists m' o',
    Editor.mirror m (Some i) dir (Some o) = (ULTRAHDR_NO_ERROR, m', Some o')
    /\ data o' = Some out_data
    /\ width o' = W /\ height o' = H /\ luma_stride o' = S
    /\ colorGamut o' = colorGamut i /\ pixelFormat o' = pixelFormat i
    /\ forall r c, 0 <= r < H -> 0 <= c < W ->
         load m' (padd out_data (r * S + c))
         = load m (padd in_data
                     match dir with
                     | ULTRAHDR_MIRROR_VERTICAL => (H - 1 - r) * S + c
                     | ULTRAHDR_MIRROR_HORIZONTAL => r * S + (W - 1 - c)
                     end).
Proof.
  destruct luma_stride_in_use_value as [Hstride Hbound].
  assert (HW0 : 0 <= W) by (unfold W; lia).
  assert (HH0 : 0 <= H) by (unfold H; lia).
  assert (HH2 : 0 <= H / 2) by (apply Z.div_pos; lia).
  assert (HS2 : 0 <= S / 2) by (apply Z.div_pos; lia).
  unfold Editor.mirror. rewrite in_present, out_present.
  rewrite (format_supported i format_ok), Hstride. fold W H.
  rewrite (to_size_t_small S) by lia.
  destruct dir.
  - (* vertical *)
    assert (Hluma : forall r c, 0 <= r < H -> 0 <= c < W ->
      load (Editor.copy_rows H out_data in_data
              (fun r => (H - r - 1) * S) (fun r => r * S) W m)
        (padd out_data (r * S + c))
      = load m (padd in_data ((H - 1 - r) * S + c))).
    { intros r c Hr Hc.
      replace (r * S + c) with ((H - (H - 1 - r) - 1) * S + c)
        by (f_equal; f_equal; lia).
      rewrite (copy_rows_values H out_data in_data
                 (fun r => (H - r - 1) * S) (fun r => r * S) W m) by
        (try assumption; try lia;
         intros r1 c1 r2 c2 Hr1 Hc1 Hr2 Hc2 E;
         assert (H - r1 - 1 = H - r2 - 1)
           by (apply (row_major_inj S _ c1 _ c2); lia);
         lia).
      reflexivity. }
    destruct (Editor.is_monochrome i).
    + do 2 eexists. split; [reflexivity |].
      cbn [data width height luma_stride colorGamut pixelFormat].
      repeat split; assumption.
    + do 2 eexists. split; [reflexivity |].
      cbn [data width height luma_stride colorGamut pixelFormat].
      repeat split; try assumption. intros r c Hr Hc.
      pose proof (row_major_bound H S r c Hr ltac:(lia)).
      rewrite copy_rows_above;
        [rewrite copy_rows_above; [now apply Hluma | |] | |];
        try (intros; nia); cbn [padd off]; nia.
  - (* horizontal *)
    assert (Hluma : forall r c, 0 <= r < H -> 0 <= c < W ->
      load (Editor.copy_cells H W out_data in_data
              (fun r c => r * S + c) (fun r c => r * S + (W - c - 1)) m)
        (padd out_data (r * S + c))
      = load m (padd in_data (r * S + (W - 1 - c)))).
    { intros r c Hr Hc.
      rewrite (copy_cells_values H W out_data in_data
                 (fun r c => r * S + c)) by
        (try assumption;
         intros r1 c1 r2 c2 Hr1 Hc1 Hr2 Hc2 E;
         assert (r1 = r2) by (apply (row_major_inj S r1 c1 r2 c2); lia);
         split; lia).
      do 2 f_equal. lia. }
    destruct (Editor.is_monochrome i).
    + do 2 eexists. split; [reflexivity |].
      cbn [data width height luma_stride colorGamut pixelFormat].
      repeat split; assumption.
    + do 2 eexists. split; [reflexivity |].
      cbn [data width height luma_stride colorGamut pixelFormat].
      repeat split; try assumption. intros r c Hr Hc.
      pose proof (row_major_bound H S r c Hr ltac:(lia)).
      rewrite copy_cells_above;
        [rewrite copy_cells_above; [now apply Hluma | |] | |];
        try (intros; nia); cbn [padd off]; nia.
Qed.

Lemma resize_luma out_width out_height :
  0 <= out_width < 2 ^ 31 -> 0 <= out_height < 2 ^ 31 ->
  exists m' o',
    Editor.resize m (Some i) out_width out_height (Some o)
    = (ULTRAHDR_NO_ERROR, m', Some o')
    /\ data o' = Some out_data
    /\ width o' = out_width /\ height o' = out_height
    /\ luma_stride o' = out_width
    /\ colorGamut o' = colorGamut i /\ pixelFormat o' = pixelFormat i
    /\ forall r c, 0 <= r < out_height -> 0 <= c < out_width ->
         load m' (padd out_data (r * out_width + c))
         = load m (padd in_data
                     (r * H / out_height * S + c * W / out_width)).
Proof.
  intros How Hoh.
  destruct luma_stride_in_use_value as [Hstride Hbound].
  unfold Editor.resize. rewrite in_present, out_present.
  rewrite (format_supported i format_ok), Hstride. fold W H.
  rewrite !to_size_t_small by lia.
  assert (Hluma : forall r c, 0 <= r < out_height -> 0 <= c < out_width ->
    load (Editor.copy_cells out_height out_width out_data in_data
            (fun r c => r * out_width + c)
            (fun r c => r * H / out_height * S + c * W / out_width) m)
      (padd out_data (r * out_width + c))
    = load m (padd in_data (r * H / out_height * S + c * W / out_width))).
  { intros r c Hr Hc.
    now rewrite (copy_cells_values out_height out_width out_data in_data
                   (fun r c => r * out_width + c)) by
      (try assumption;
       intros r1 c1 r2 c2 Hr1 Hc1 Hr2 Hc2 E;
       assert (r1 = r2)
         by (apply (row_major_inj out_width r1 c1 r2 c2); lia);
       split; lia). }
  destruct (Editor.is_monochrome i).
  - do 2 eexists. split; [reflexivity |].
    cbn [data width height luma_stride colorGamut pixelFormat].
    repeat split; assumption.
  - do 2 eexists. split; [reflexivity |].
    cbn [data width height luma_stride colorGamut pixelFormat].
    repeat split; try assumption. intros r c Hr Hc.
    pose proof (row_major_bound out_height out_width r c Hr Hc).
    assert (0 <= out_width / 2) by (apply Z.div_pos; lia).
    rewrite copy_cells_above; [now apply Hluma | |];
      try (intros; nia); cbn [padd off]; nia.
Qed.

(** *** Chroma *)

Hypothesis yuv : pixelFormat i = ULTRAHDR_PIX_FMT_YUV420.
Hypothesis chroma_stride_ok :
  chroma_stride i = 0 \/ width i / 2 <= chroma_stride i < 2 ^ 31.

Let C := chroma_plane_in_use i in_data.
Let CS := chroma_stride_in_use i.

Hypothesis chroma_apart : blk C <> blk out_data.

Lemma not_monochrome : Editor.is_monochrome i = false.
Proof. unfold Editor.is_monochrome. now rewrite yuv. Qed.

Lemma chroma_in_use_value :
  Editor.in_chroma_stride_of i = CS /\ Editor.chroma_src i in_data = C
  /\ W / 2 <= CS < 2 ^ 31.
Proof.
  destruct luma_stride_in_use_value as [Hstride Hbound].
  unfold Editor.in_chroma_stride_of, Editor.chroma_src, CS, C,
    chroma_stride_in_use, chroma_plane_in_use.
  rewrite Hstride, shiftr_1_half. fold S W.
  assert (HS2 : W / 2 <= S / 2 < 2 ^ 31).
  { split; [apply Z.div_le_mono; lia |].
    apply Z.div_lt_upper_bound; lia. }
  assert (HW2 : 0 <= W / 2) by (apply Z.div_pos; unfold W; lia).
  destruct (Z.eqb_spec (chroma_stride i) 0) as [E | NE]; cbn [negb];
    rewrite to_int_small by (fold W in chroma_stride_ok; lia);
    (split; [reflexivity |]); (split; [reflexivity |]);
    fold W in chroma_stride_ok; lia.
Qed.

Lemma crop_chroma left right top bottom :
  0 <= left <= right -> right < W -> 0 <= top <= bottom -> bottom < H ->
  let ow := right - left + 1 in
  let oh := bottom - top + 1 in
  exists m' o',
    Editor.crop m (Some i) left right top bottom (Some o)
    = (ULTRAHDR_NO_ERROR, m', Some o')
    /\ chroma_data o' = Some (padd out_data (ow * oh))
    /\ chroma_stride o' = ow / 2
    /\ forall r c, 0 <= r < oh -> 0 <= c < ow / 2 ->
         load m' (padd (padd out_data (ow * oh)) (r * (ow / 2) + c))
         = load m (padd C ((top / 2 + r) * CS + (left / 2 + c))).
Proof.
  intros Hl Hr Ht Hb ow oh.
  destruct luma_stride_in_use_value as [Hstride Hbound].
  destruct chroma_in_use_value as (Hcs & Hc & Hcbound).
  unfold Editor.crop. rewrite in_present, out_present.
  rewrite (format_supported i format_ok), not_monochrome. fold W H.
  rewrite !to_size_t_small by lia.
  destruct (Z.ltb_spec left 0); [lia |].
  destruct (Z.leb_spec W right); [lia |].
  destruct (Z.ltb_spec top 0); [lia |].
  destruct (Z.leb_spec H bottom); [lia |].
  cbn [orb]. rewrite Hstride, Hcs, Hc. fold ow oh.
  rewrite !Z.quot_div_nonneg by lia.
  do 2 eexists. split; [reflexivity |].
  cbn [chroma_data chroma_stride].
  repeat split. intros r c Hr' Hc'.
  rewrite (copy_rows_values oh (padd out_data (ow * oh))
             (padd C (CS * (top / 2) + left / 2))
             (fun r => r * (ow / 2)) (fun r => r * CS) (ow / 2)) by
    (try assumption;
     intros r1 c1 r2 c2 Hr1 Hc1 Hr2 Hc2 E;
     apply (row_major_inj (ow / 2) r1 c1 r2 c2); lia).
  rewrite copy_rows_block by assumption.
  rewrite padd_padd. do 2 f_equal. lia.
Qed.

Lemma mirror_chroma dir :
  exists m' o',
    Editor.mirror m (Some i) dir (Some o) = (ULTRAHDR_NO_ERROR, m', Some o')
    /\ chroma_data o' = Some (padd out_data (S * H))
    /\ chroma_stride o' = S / 2
    /\ forall r c, 0 <= r < H / 2 -> 0 <= c < W / 2 ->
         let from :=
           match dir with
           | ULTRAHDR_MIRROR_VERTICAL => (H / 2 - 1 - r) * CS + c
           | ULTRAHDR_MIRROR_HORIZONTAL => r * CS + (W / 2 - 1 - c)
           end in
         load m' (padd (padd out_data (S * H)) (r * (S / 2) + c))
         = load m (padd C from)
         /\ load m' (padd (padd (padd out_data (S * H)) (S / 2 * (H / 2)))
                       (r * (S / 2) + c))
            = load m (padd (padd C (CS * (H / 2))) from).
Proof.
  destruct luma_stride_in_use_value as [Hstride Hbound].
  destruct chroma_in_use_value as (Hcs & Hc & Hcbound).
  assert (HW0 : 0 <= W) by (unfold W; lia).
  assert (HH0 : 0 <= H) by (unfold H; lia).
  assert (HH2 : 0 <= H / 2) by (apply Z.div_pos; lia).
  assert (HS2 : W / 2 <= S / 2) by (apply Z.div_le_mono; lia).
  unfold Editor.mirror. rewrite in_present, out_present.
  rewrite (format_supported i format_ok), not_monochrome, Hstride, Hcs, Hc.
  fold W H. rewrite (to_size_t_small S) by lia.
  destruct dir; (do 2 eexists; split; [reflexivity |]);
    cbn [chroma_data chroma_stride];
    (split; [reflexivity |]); (split; [reflexivity |]);
    intros r c Hr Hc'; cbv zeta.
  - (* vertical *)
    replace (r * (S / 2) + c) with ((H / 2 - (H / 2 - 1 - r) - 1) * (S / 2) + c)
      by (f_equal; f_equal; lia).
    destruct (two_planes_rows (H / 2) (W / 2) (S / 2) (S / 2 * (H / 2))
                (padd out_data (S * H)) C (padd C (CS * (H / 2)))
                (fun r => (H / 2 - r - 1) * (S / 2)) (fun r => r * CS)
                (Editor.copy_rows H out_data in_data
                   (fun r => (H - r - 1) * S) (fun r => r * S) W m)
                (H / 2 - 1 - r) c) as [HU HV];
      try assumption; try lia.
    + intros k Hk. exists (H / 2 - k - 1). split; [lia | reflexivity].
    + intros k k' Hk Hk' E.
      assert (H / 2 - k - 1 = H / 2 - k' - 1)
        by (apply (row_major_inj (S / 2) _ 0 _ 0); lia).
      lia.
    + cbv zeta in HU, HV. cbv beta in HU, HV.
      rewrite HU, HV, !copy_rows_block by (cbn [padd blk]; assumption).
      split; reflexivity.
  - (* horizontal *)
    destruct (two_planes_cells (H / 2) (W / 2) (S / 2) (S / 2 * (H / 2))
                (padd out_data (S * H)) C (padd C (CS * (H / 2)))
                (fun r c => r * CS + (W / 2 - c - 1))
                (Editor.copy_cells H W out_data in_data
                   (fun r c => r * S + c)
                   (fun r c => r * S + (W - c - 1)) m)
                r c) as [HU HV];
      try assumption; try lia.
    cbv zeta in HU, HV. cbv beta in HU, HV.
    rewrite HU, HV, !copy_cells_block by (cbn [padd blk]; assumption).
    split; do 2 f_equal; lia.
Qed.

Lemma rotate_chroma_90 :
  exists m' o',
    Editor.rotate m (Some i) 90 (Some o) = (ULTRAHDR_NO_ERROR, m', Some o')
    /\ chroma_data o' = Some (padd out_data (H * W))
    /\ chroma_stride o' = H / 2
    /\ forall r c, 0 <= r < W / 2 -> 0 <= c < H / 2 ->
         load m' (padd (padd out_data (H * W)) (r * (H / 2) + c))
         = load m (padd C ((H / 2 - 1 - c) * CS + r))
         /\ load m' (padd (padd (padd out_data (H * W)) (H / 2 * (W / 2)))
                       (r * (H / 2) + c))
            = load m (padd (padd C (CS * (H / 2)))
                        ((H / 2 - 1 - c) * CS + r)).
Proof.
  destruct luma_stride_in_use_value as [Hstride Hbound].
  destruct chroma_in_use_value as (Hcs & Hc & Hcbound).
  unfold Editor.rotate. rewrite in_present, out_present.
  rewrite (format_supported i format_ok), not_monochrome, Hstride, Hcs, Hc.
  change (negb (90 =? 90) && negb (90 =? 180) && negb (90 =? 270)) with false.
  change (90 =? 90) with true. cbv iota. fold W H.
  do 2 eexists; split; [reflexivity |].
  cbn [chroma_data chroma_stride].
  (split; [reflexivity |]); (split; [reflexivity |]).
  intros r c Hr Hc'.
  destruct (two_planes_cells (W / 2) (H / 2) (H / 2) (H / 2 * (W / 2))
              (padd out_data (H * W)) C (padd C (CS * (H / 2)))
              (fun r c => (H / 2 - c - 1) * CS + r)
              (Editor.copy_cells W H out_data in_data
                 (fun r c => r * H + c)
                 (fun r c => (H - c - 1) * S + r) m)
              r c) as [HU HV];
    try assumption; try lia.
  cbv zeta in HU, HV. cbv beta in HU, HV.
  rewrite HU, HV, !copy_cells_block by (cbn [padd blk]; assumption).
  split; do 2 f_equal; lia.
Qed.

Lemma rotate_chroma_180 :
  exists m' o',
    Editor.rotate m (Some i) 180 (Some o) = (ULTRAHDR_NO_ERROR, m', Some o')
    /\ chroma_data o' = Some (padd out_data (S * H))
    /\ chroma_stride o' = S / 2
    /\ forall r c, 0 <= r < H / 2 -> 0 <= c < W / 2 ->
         load m' (padd (padd out_data (S * H)) (r * (S / 2) + c))
         = load m (padd C ((H / 2 - 1 - r) * CS + (W / 2 - 1 - c)))
         /\ load m' (padd (padd (padd out_data (S * H)) (S / 2 * (H / 2)))
                       (r * (S / 2) + c))
            = load m (padd (padd C (CS * (H / 2)))
                        ((H / 2 - 1 - r) * CS + (W / 2 - 1 - c))).
Proof.
  destruct luma_stride_in_use_value as [Hstride Hbound].
  destruct chroma_in_use_value as (Hcs & Hc & Hcbound).
  assert (HW0 : 0 <= W) by (unfold W; lia).
  assert (HS2 : W / 2 <= S / 2) by (apply Z.div_le_mono; lia).
  unfold Editor.rotate. rewrite in_present, out_present.
  rewrite (format_supported i format_ok), not_monochrome, Hstride, Hcs, Hc.
  change (negb (180 =? 90) && negb (180 =? 180) && negb (180 =? 270))
    with false.
  change (180 =? 90) with false. change (180 =? 180) with true.
  cbv iota. fold W H. rewrite (to_size_t_small S) by lia.
  do 2 eexists; split; [reflexivity |].
  cbn [chroma_data chroma_stride].
  (split; [reflexivity |]); (split; [reflexivity |]).
  intros r c Hr Hc'.
  destruct (two_planes_cells (H / 2) (W / 2) (S / 2) (S / 2 * (H / 2))
              (padd out_data (S * H)) C (padd C (CS * (H / 2)))
              (fun r c => (H / 2 - r - 1) * CS + (W / 2 - c - 1))
              (Editor.copy_cells H W out_data in_data
                 (fun r c => r * S + c)
                 (fun r c => (H - r - 1) * S + (W - c - 1)) m)
              r c) as [HU HV];
    try assumption; try lia.
  cbv zeta in HU, HV. cbv beta in HU, HV.
  rewrite HU, HV, !copy_cells_block by (cbn [padd blk]; assumption).
  split; do 2 f_equal; lia.
Qed.

Lemma rotate_chroma_270 :
  exists m' o',
    Editor.rotate m (Some i) 270 (Some o) = (ULTRAHDR_NO_ERROR, m', Some o')
    /\ chroma_data o' = Some (padd out_data (H * W))
    /\ chroma_stride o' = H / 2
    /\ forall r c, 0 <= r < W / 2 -> 0 <= c < H / 2 ->
         load m' (padd (padd out_data (H * W)) (r * (H / 2) + c))
         = load m (padd C (c * CS + (W / 2 - 1 - r)))
         /\ load m' (padd (padd (padd out_data (H * W)) (H / 2 * (W / 2)))
                       (r * (H / 2) + c))
            = load m (padd (padd C (CS * (H / 2)))
                        (c * CS + (W / 2 - 1 - r))).
Proof.
  destruct luma_stride_in_use_value as [Hstride Hbound].
  destruct chroma_in_use_value as (Hcs & Hc & Hcbound).
  unfold Editor.rotate. rewrite in_present, out_present.
  rewrite (format_supported i format_ok), not_monochrome, Hstride, Hcs, Hc.
  change (negb (270 =? 90) && negb (270 =? 180) && negb (270 =? 270))
    with false.
  change (270 =? 90) with false. change (270 =? 180) with false.
  change (270 =? 270) with true.
  cbv iota. fold W H.
  do 2 eexists; split; [reflexivity |].
  cbn [chroma_data chroma_stride].
  (split; [reflexivity |]); (split; [reflexivity |]).
  intros r c Hr Hc'.
  destruct (two_planes_cells (W / 2) (H / 2) (H / 2) (H / 2 * (W / 2))
              (padd out_data (H * W)) C (padd C (CS * (H / 2)))
              (fun r c => c * CS + (W / 2 - r - 1))
              (Editor.copy_cells W H out_data in_data
                 (fun r c => r * H + c)
                 (fun r c => c * S + (W - r - 1)) m)
              r c) as [HU HV];
    try assumption; try lia.
  cbv zeta in HU, HV. cbv beta in HU, HV.
  rewrite HU, HV, !copy_cells_block by (cbn [padd blk]; assumption).
  split; do 2 f_equal; lia.
Qed.

End EditorFacts.

(** ** [crop] *)





(** ** [mirror] *)





(** ** [rotate] *)



(** ** [resize] *)

(** X6.  For a YUV 4:2:0 or monochrome input, [resize] returns NO_ERROR
    and gives an output of the requested width and height with a luma
    stride equal to its width, keeping gamut and pixel format; the luma
    plane is sampled by nearest neighbour with the indices rounded down,
    out[r][c] = in[r*H/out_height][c*W/out_width].  Asked for the input's
    own size, it copies the luma plane. *)
Theorem resize_samples_nearest_neighbour
  (m : mem) (i o : ultrahdr_uncompressed_struct) (in_data out_data : ptr)
  (out_width out_height : Z) :
  data i = Some in_data -> data o = Some out_data ->
  pixelFormat i = ULTRAHDR_PIX_FMT_YUV420
  \/ pixelFormat i = ULTRAHDR_PIX_FMT_MONOCHROME ->
  blk in_data <> blk out_data ->
  0 <= width i < 2 ^ 31 -> 0 <= height i < 2 ^ 31 ->
  luma_stride i = 0 \/ width i <= luma_stride i < 2 ^ 31 ->
  0 <= out_width < 2 ^ 31 -> 0 <= out_height < 2 ^ 31 ->
  exists m' o',
    Editor.resize m (Some i) out_width out_height (Some o)
    = (ULTRAHDR_NO_ERROR, m', Some o')
    /\ data o' = Some out_data
    /\ width o' = out_width /\ height o' = out_height
    /\ luma_stride o' = out_width
    /\ colorGamut o' = colorGamut i /\ pixelFormat o' = pixelFormat i
    /\ (forall r c, 0 <= r < out_height -> 0 <= c < out_width ->
          pixel m' out_data (luma_stride o') r c
          = pixel m in_data (luma_stride_in_use i)
              (r * height i / out_height) (c * width i / out_width))
    /\ (out_width = width i -> out_height = height i ->
        forall r c, 0 <= r < height i -> 0 <= c < width i ->
          pixel m' out_data (luma_stride o') r c
          = pixel m in_data (luma_stride_in_use i) r c).
Proof.
  intros Hi Ho Hfmt Hblk HW HH Hstride How Hoh.
  destruct (resize_luma m i o in_data out_data Hi Ho Hfmt Hblk HW Hstride
              out_width out_height How Hoh)
    as (m' & o' & Hrun & Hd & Hw & Hh & Hls & Hg & Hf & Hpx).
  exists m', o'. unfold pixel. rewrite Hls.
  repeat split; try assumption.
  intros -> -> r c Hr Hc. rewrite Hpx by assumption.
  now rewrite !Z.div_mul by lia.
Qed.

Lemma resize_samples_nearest_neighbour_witness :
  let m := Sample.heap0 in
  let i := Sample.gray_3x2 in
  let o := Sample.blank_dest in
  let in_data := mkptr 5 0 in
  let out_data := mkptr 3 0 in
  let out_width := 6 in
  let out_height := 1 in
  exists m' o',
    Editor.resize m (Some i) out_width out_height (Some o)
    = (ULTRAHDR_NO_ERROR, m', Some o')
    /\ data o' = Some out_data
    /\ width o' = out_width /\ height o' = out_height
    /\ luma_stride o' = out_width
    /\ colorGamut o' = colorGamut i /\ pixelFormat o' = pixelFormat i
    /\ (forall r c, 0 <= r < out_height -> 0 <= c < out_width ->
          pixel m' out_data (luma_stride o') r c
          = pixel m in_data (luma_stride_in_use i)
              (r * height i / out_height) (c * width i / out_width))
    /\ (out_width = width i -> out_height = height i ->
        forall r c, 0 <= r < height i -> 0 <= c < width i ->
          pixel m' out_data (luma_stride o') r c
          = pixel m in_data (luma_stride_in_use i) r c).
Proof.
  apply (resize_samples_nearest_neighbour Sample.heap0 Sample.gray_3x2
           Sample.blank_dest (mkptr 5 0) (mkptr 3 0) 6 1);
    try reflexivity; try discriminate;
    cbn [width height luma_stride Sample.gray_3x2]; try lia.
  right. reflexivity.
Defined.

(** ** Operations undone *)

(** The stride an output of the editor is read with is its luma stride. *)
Lemma luma_stride_in_use_of_output o' w s :
  width o' = w -> luma_stride o' = s -> 0 <= w <= s ->
  luma_stride_in_use o' = s.
Proof.
  intros Hw Hs Hws. unfold luma_stride_in_use. rewrite Hw, Hs.
  destruct (Z.eqb_spec s 0); lia.
Qed.



(** None of the four operations moves the output's data pointer. *)
Lemma rotate_keeps_data m i deg o st m' o' :
  Editor.rotate m (Some i) deg (Some o) = (st, m', Some o') ->
  data o' = data o.
Proof.
  unfold Editor.rotate. intros E.
  destruct (data i); [| now injection E as _ _ <-].
  destruct (data o) eqn:Ho; [| injection E as _ _ <-; now rewrite Ho].
  destruct (_ && _); [injection E as _ _ <-; now rewrite Ho |].
  destruct (Editor.unsupported_format i);
    [injection E as _ _ <-; now rewrite Ho |].
  destruct (deg =? 90); [| destruct (deg =? 180); [| destruct (deg =? 270)]];
    destruct (Editor.is_monochrome i); injection E as _ _ <-;
    cbn [data]; reflexivity.
Qed.



(** ** Rejections *)

(** X9.  [crop], [mirror], [rotate] and [resize] either return NO_ERROR or
    return BAD_PTR, INVALID_CROPPING_PARAMETERS or UNSUPPORTED_FEATURE and
    then have written nothing: memory and the output struct are as they
    were before the call. *)
Theorem editor_rejections_write_nothing
  (m : mem) (in_img out_img : option ultrahdr_uncompressed_struct) :
  let rejected (res : Editor.result) :=
    let '(st, m', o') := res in
    st = ULTRAHDR_NO_ERROR
    \/ ((st = ERROR_ULTRAHDR_BAD_PTR
         \/ st = ERROR_ULTRAHDR_INVALID_CROPPING_PARAMETERS
         \/ st = ERROR_ULTRAHDR_UNSUPPORTED_FEATURE)
        /\ m' = m /\ o' = out_img) in
  (forall left right top bottom,
     rejected (Editor.crop m in_img left right top bottom out_img))
  /\ (forall mirror_dir, rejected (Editor.mirror m in_img mirror_dir out_img))
  /\ (forall clockwise_degree,
        rejected (Editor.rotate m in_img clockwise_degree out_img))
  /\ (forall out_width out_height,
        rejected (Editor.resize m in_img out_width out_height out_img)).
Proof.
  cbv zeta.
  assert (Hbad : forall st : status_t,
            st = ERROR_ULTRAHDR_BAD_PTR ->
            st = ULTRAHDR_NO_ERROR
            \/ ((st = ERROR_ULTRAHDR_BAD_PTR
                 \/ st = ERROR_ULTRAHDR_INVALID_CROPPING_PARAMETERS
                 \/ st = ERROR_ULTRAHDR_UNSUPPORTED_FEATURE)
                /\ m = m /\ out_img = out_img)) by (intros; tauto).
  repeat split; intros.
  - unfold Editor.crop.
    destruct in_img as [i |], out_img as [o |]; try (now apply Hbad).
    destruct (data i), (data o); try (now apply Hbad).
    destruct (_ || _); [right; tauto |].
    destruct (Editor.unsupported_format i); [right; tauto |].
    destruct (Editor.is_monochrome i); now left.
  - unfold Editor.mirror.
    destruct in_img as [i |], out_img as [o |]; try (now apply Hbad).
    destruct (data i), (data o); try (now apply Hbad).
    destruct (Editor.unsupported_format i); [right; tauto |].
    destruct (Editor.is_monochrome i); now left.
  - unfold Editor.rotate.
    destruct in_img as [i |], out_img as [o |]; try (now apply Hbad).
    destruct (data i), (data o); try (now apply Hbad).
    destruct (_ && _); [right; tauto |].
    destruct (Editor.unsupported_format i); [right; tauto |].
    destruct (clockwise_degree =? 90);
      [| destruct (clockwise_degree =? 180);
         [| destruct (clockwise_degree =? 270)]];
      destruct (Editor.is_monochrome i); now left.
  - unfold Editor.resize.
    destruct in_img as [i |], out_img as [o |]; try (now apply Hbad).
    destruct (data i), (data o); try (now apply Hbad).
    destruct (Editor.unsupported_format i); [right; tauto |].
    destruct (Editor.is_monochrome i); now left.
Qed.

(** An effect function that reports an error has written nothing and has
    left the output struct alone. *)
Lemma refused_effect_writes_nothing m i tmp (e : ultrahdr_effect) :
  let call :=
    match e with
    | ultrahdr_crop_effect l r t b =>
        Editor.crop m (Some i) l r t b (Some tmp)
    | ultrahdr_mirror_effect mirror_dir =>
        Editor.mirror m (Some i) mirror_dir (Some tmp)
    | ultrahdr_rotate_effect clockwise_degree =>
        Editor.rotate m (Some i) clockwise_degree (Some tmp)
    | ultrahdr_resize_effect new_width new_height =>
        Editor.resize m (Some i) new_width new_height (Some tmp)
    end in
  fst (fst call) <> ULTRAHDR_NO_ERROR ->
  call = (fst (fst call), m, Some tmp).
Proof.
  destruct e as [l r t b | d | d | nw nh]; cbv zeta.
  - unfold Editor.crop.
    destruct (data i), (data tmp); try reflexivity.
    destruct (_ || _); [reflexivity |].
    destruct (Editor.unsupported_format i); [reflexivity |].
    destruct (Editor.is_monochrome i); intros H; now elim H.
  - unfold Editor.mirror.
    destruct (data i), (data tmp); try reflexivity.
    destruct (Editor.unsupported_format i); [reflexivity |].
    destruct (Editor.is_monochrome i); intros H; now elim H.
  - unfold Editor.rotate.
    destruct (data i), (data tmp); try reflexivity.
    destruct (_ && _); [reflexivity |].
    destruct (Editor.unsupported_format i); [reflexivity |].
    destruct (d =? 90);
      [| destruct (d =? 180); [| destruct (d =? 270)]];
      destruct (Editor.is_monochrome i); intros H; now elim H.
  - unfold Editor.resize.
    destruct (data i), (data tmp); try reflexivity.
    destruct (Editor.unsupported_format i); [reflexivity |].
    destruct (Editor.is_monochrome i); intros H; now elim H.
Qed.

(** X10.  An effect that its function refuses does not make [addEffects]
    fail.  For a single effect on non-null buffers, with byte counts that
    fit the [int] they are held in: when [crop], [mirror], [rotate] or
    [resize] reports an error for the effect, it has written nothing, and
    [addEffects] returns NO_ERROR all the same; the caller's output struct
    takes the width and height of the local [tmp], which nobody has
    initialized, and the caller's buffer receives the bytes of the
    temporary buffer as [new] handed it out.  Nothing but the caller's
    output buffer is written. *)
Theorem addEffects_ignores_a_refusal
  (w : world) (junk i o : ultrahdr_uncompressed_struct)
  (in_data out_data : ptr) (e : ultrahdr_effect) :
  let single := Editor.is_monochrome i in
  let m :=
    memcpy (heap w) out_data in_data
      (to_size_t
         (Editor.buffer_size single (to_size_t (width i * height i)))) in
  let tmp_data := mkptr (next_block w) 0 in
  let tmp := Editor.set_data tmp_data (Editor.uninitialized_struct junk) in
  let pixels :=
    match e with
    | ultrahdr_crop_effect l r t b => (b - t + 1) * (r - l + 1)
    | ultrahdr_resize_effect new_width new_height => new_width * new_height
    | _ => width i * height i
    end in
  let call :=
    match e with
    | ultrahdr_crop_effect l r t b =>
        Editor.crop m (Some i) l r t b (Some tmp)
    | ultrahdr_mirror_effect mirror_dir =>
        Editor.mirror m (Some i) mirror_dir (Some tmp)
    | ultrahdr_rotate_effect clockwise_degree =>
        Editor.rotate m (Some i) clockwise_degree (Some tmp)
    | ultrahdr_resize_effect new_width new_height =>
        Editor.resize m (Some i) new_width new_height (Some tmp)
    end in
  data i = Some in_data -> data o = Some out_data ->
  blk out_data <> next_block w ->
  0 <= width i * height i -> width i * height i * 3 < 2 ^ 31 ->
  0 <= pixels -> pixels * 3 < 2 ^ 31 ->
  fst (fst call) <> ULTRAHDR_NO_ERROR ->
  call = (fst (fst call), m, Some tmp)
  /\ exists w' o',
       Editor.addEffects w junk (Some i) [e] (Some o)
       = (ULTRAHDR_NO_ERROR, w', Some o')
       /\ data o' = Some out_data
       /\ width o' = width junk /\ height o' = height junk
       /\ pixelFormat o' = ULTRAHDR_PIX_FMT_UNSPECIFIED
       /\ (forall k, 0 <= k < (if single then pixels else pixels * 3 / 2) ->
             load (heap w') (padd out_data k)
             = load (heap w) (padd tmp_data k))
       /\ (forall q, blk q <> blk out_data ->
             load (heap w') q = load (heap w) q).
Proof.
  intros single m tmp_data tmp pixels call Hi Ho Hfresh HWH0 HWH Hp0 Hp
    Hrefused.
  pose proof (refused_effect_writes_nothing m i tmp e Hrefused) as Hcall.
  fold call in Hcall. split; [exact Hcall |].
  set (size := if single then pixels else pixels * 3 / 2).
  assert (Hsize :
    match e with
    | ultrahdr_crop_effect l r t b =>
        Editor.buffer_size single ((b - t + 1) * (r - l + 1))
    | ultrahdr_mirror_effect _ | ultrahdr_rotate_effect _ =>
        Editor.buffer_size single (to_size_t (width i * height i))
    | ultrahdr_resize_effect new_width new_height =>
        Editor.buffer_size single (new_width * new_height)
    end = size).
  { unfold size, pixels in *.
    destruct e as [l r t b | d | d | nw nh];
      try (apply buffer_size_small; assumption);
      match goal with
      | |- Editor.buffer_size _ ?p = _ =>
          rewrite <- (to_size_t_small p) at 1 by lia;
          apply buffer_size_small; assumption
      end. }
  assert (Hsize0 : 0 <= size < 2 ^ 31).
  { unfold size. destruct single; [lia |].
    split; [apply Z.div_pos; lia | apply Z.div_lt_upper_bound; lia]. }
  unfold Editor.addEffects. rewrite Hi, Ho. fold single. fold m.
  cbn [fold_left]. unfold Editor.apply_effect.
  cbn [Editor.st_world Editor.st_tmp Editor.st_last Editor.st_out
       new_array heap next_block].
  fold tmp_data. fold tmp.
  rewrite Hsize.
  assert (Hrun :
    match e with
    | ultrahdr_crop_effect l r t b =>
        Editor.crop m (Some i) l r t b (Some tmp)
    | ultrahdr_mirror_effect mirror_dir =>
        Editor.mirror m (Some i) mirror_dir (Some tmp)
    | ultrahdr_rotate_effect clockwise_degree =>
        Editor.rotate m (Some i) clockwise_degree (Some tmp)
    | ultrahdr_resize_effect new_width new_height =>
        Editor.resize m (Some i) new_width new_height (Some tmp)
    end = (fst (fst call), m, Some tmp)) by exact Hcall.
  rewrite Hrun.
  do 2 eexists. split; [reflexivity |].
  cbn [Editor.st_world Editor.st_out data width height pixelFormat heap
       tmp Editor.set_data Editor.uninitialized_struct].
  split; [reflexivity |]. split; [reflexivity |]. split; [reflexivity |].
  split; [reflexivity |]. split.
  - intros k Hk. rewrite to_size_t_small by lia.
    rewrite load_memcpy_in by exact Hk.
    unfold m. apply load_memcpy_out. left. cbn [padd blk tmp_data].
    intros E. apply Hfresh. now symmetry.
  - intros q Hq. unfold m. rewrite !load_memcpy_out by (left; exact Hq).
    reflexivity.
Qed.

Lemma addEffects_ignores_a_refusal_witness :
  (* a crop that reaches beyond the right edge of a 3x2 image *)
  let e := ultrahdr_crop_effect 0 5 0 0 in
  Editor.crop Sample.heap0 (Some Sample.gray_3x2) 0 5 0 0
    (Some Sample2.blank_dest2)
  = (ERROR_ULTRAHDR_INVALID_CROPPING_PARAMETERS, Sample.heap0,
     Some Sample2.blank_dest2)
  /\ exists w' o',
       Editor.addEffects Sample.world0 Sample.yuv_4x4_padded
         (Some Sample.gray_3x2) [e] (Some Sample.blank_dest)
       = (ULTRAHDR_NO_ERROR, w', Some o')
       /\ width o' = 4 /\ height o' = 4
       /\ load (heap w') (mkptr 3 5) = load Sample.heap0 (mkptr 10 5).
Proof.
  intros e. split; [reflexivity |].
  destruct (addEffects_ignores_a_refusal Sample.world0 Sample.yuv_4x4_padded
              Sample.gray_3x2 Sample.blank_dest (mkptr 5 0) (mkptr 3 0) e)
    as (_ & w' & o' & Hrun & _ & Hw & Hh & _ & Hbytes & _);
    try reflexivity; try discriminate; try (cbn; lia).
  exists w', o'. split; [exact Hrun |]. split; [exact Hw |].
  split; [exact Hh |]. apply (Hbytes 5). cbn. lia.
Defined.

(** ** One effect *)



(** ** Samples *)

(** X12.  Cutting a P010 word to eight bits keeps its upper byte: for a
    16-bit word the result is word / 256, a value from 0 to 255 that grows
    with the word; a 10-bit sample v stored as v << 6 comes out as v / 4. *)
Theorem p010_to_8bit_keeps_upper_byte (word : Z) :
  0 <= word < 2 ^ 16 ->
  p010_to_8bit word = word / 2 ^ 8
  /\ 0 <= p010_to_8bit word < 2 ^ 8
  /\ (forall word', word <= word' < 2 ^ 16 ->
        p010_to_8bit word <= p010_to_8bit word')
  /\ (forall v, 0 <= v < 2 ^ 10 -> word = Z.shiftl v 6 ->
        p010_to_8bit word = v / 4).
Proof.
  intros Hw.
  assert (Hval : forall z, 0 <= z < 2 ^ 16 -> p010_to_8bit z = z / 2 ^ 8).
  { intros z Hz. rewrite p010_to_8bit_bits.
    rewrite Z.shiftr_shiftr by lia. change (6 + 2) with 8.
    change 255 with (Z.ones 8). rewrite Z.land_ones by lia.
    rewrite Z.shiftr_div_pow2 by lia.
    apply Z.mod_small. split; [apply Z.div_pos; lia |].
    apply Z.div_lt_upper_bound; lia. }
  rewrite Hval by assumption.
  split; [reflexivity |]. split.
  - split; [apply Z.div_pos; lia | apply Z.div_lt_upper_bound; lia].
  - split.
    + intros word' Hw'. rewrite Hval by lia. apply Z.div_le_mono; lia.
    + intros v Hv ->. rewrite Z.shiftl_mul_pow2 by lia.
      change (2 ^ 8) with (2 ^ 6 * 4).
      rewrite <- Z.div_div by lia. now rewrite Z.div_mul by lia.
Qed.

Lemma p010_to_8bit_keeps_upper_byte_witness :
  let word := 1023 * 64 in
  p010_to_8bit word = word / 2 ^ 8
  /\ 0 <= p010_to_8bit word < 2 ^ 8
  /\ (forall word', word <= word' < 2 ^ 16 ->
        p010_to_8bit word <= p010_to_8bit word')
  /\ (forall v, 0 <= v < 2 ^ 10 -> word = Z.shiftl v 6 ->
        p010_to_8bit word = v / 4).
Proof.
  apply (p010_to_8bit_keeps_upper_byte (1023 * 64)). lia.
Defined.

(** ** The job queue *)

Lemma row_range_empty first last : last <= first -> row_range first last = [].
Proof.
  intros H. unfold row_range.
  replace (Z.to_nat (last - first)) with O by lia. reflexivity.
Qed.

Lemma map_seq_from {A : Type} (f : nat -> A) n len :
  map f (seq n len) = map (fun k => f (n + k)%nat) (seq 0 len).
Proof.
  revert f n. induction len as [| len IH]; intros f n; [reflexivity |].
  cbn [seq map]. rewrite Nat.add_0_r. f_equal.
  rewrite (IH f (S n)), (IH (fun k => f (n + k)%nat) 1%nat).
  apply map_ext. intros k. f_equal. lia.
Qed.

Lemma row_range_split first mid last :
  first <= mid <= last ->
  row_range first last = row_range first mid ++ row_range mid last.
Proof.
  intros H. unfold row_range.
  replace (Z.to_nat (last - first))
    with (Z.to_nat (mid - first) + Z.to_nat (last - mid))%nat by lia.
  rewrite seq_app, map_app. f_equal.
  rewrite map_seq_from. apply map_ext. intros k. lia.
Qed.

(** The loop that fills the queue, for a conversion that keeps the row
    numbers in play: it ends within its fuel, and the jobs it leaves are
    non-empty, at most [rowStep] rows long and follow one another from
    [rowStart] to [limit]. *)
Lemma enqueue_rows_tiles conv fuel rowStart rowStep limit :
  (forall z, 0 <= z <= limit -> conv z = z) ->
  0 <= rowStart -> limit + rowStep < 2 ^ 64 ->
  (rowStart < limit -> 0 < rowStep) ->
  (Z.to_nat (limit - rowStart) < fuel)%nat ->
  exists jobs,
    enqueue_rows conv fuel rowStart rowStep limit = Some jobs
    /\ rows_of jobs = row_range rowStart limit
    /\ Forall (fun job => rowStart <= fst job < snd job
                         /\ snd job <= limit
                         /\ snd job - fst job <= rowStep) jobs.
Proof.
  intros Hconv. revert rowStart.
  induction fuel as [| fuel IH]; intros rowStart H0 Hlim Hstep Hfuel.
  - lia.
  - cbn [enqueue_rows]. destruct (Z.ltb_spec rowStart limit) as [Hlt | Hge].
    + specialize (Hstep Hlt).
      rewrite (to_size_t_small (rowStart + rowStep)) by lia.
      rewrite (Hconv (Z.min (rowStart + rowStep) limit)) by lia.
      rewrite !(to_size_t_small (Z.min (rowStart + rowStep) limit)) by lia.
      destruct (IH (Z.min (rowStart + rowStep) limit)) as (q & Hq & Hrows & Hall);
        [lia | lia | lia | lia |].
      rewrite Hq. eexists. split; [reflexivity |]. split.
      * unfold rows_of in *. cbn [flat_map fst snd]. rewrite Hrows.
        symmetry. apply row_range_split. lia.
      * constructor; [cbn [fst snd]; lia |].
        eapply Forall_impl; [| exact Hall]. cbn beta. intros job Hjob. lia.
    + exists []. split; [reflexivity |]. split; [| constructor].
      unfold rows_of. cbn [flat_map]. symmetry. apply row_range_empty. lia.
Qed.

Lemma for_loop_fold {S : Type} n (body : Z -> S -> S) (s : S) :
  for_loop n body s = fold_left (fun s k => body (Z.of_nat k) s) (seq 0 n) s.
Proof.
  induction n as [| n IH]; [reflexivity |].
  rewrite seq_S, fold_left_app. cbn [for_loop fold_left plus].
  now rewrite IH.
Qed.

(** Draining the queue in order runs the row body over the rows the jobs
    list, in that order. *)
Lemma drain_jobs_rows jobs cols pixel m :
  drain_jobs jobs cols pixel m
  = fold_left
      (fun m y => for_loop (Z.to_nat cols) (fun x m => pixel x y m) m)
      (rows_of jobs) m.
Proof.
  unfold drain_jobs, rows_of. revert m.
  induction jobs as [| [rowStart rowEnd] jobs IH]; intros m; [reflexivity |].
  cbn [fold_left flat_map fst snd]. rewrite fold_left_app, IH. f_equal.
  rewrite for_loop_fold. unfold row_range.
  generalize (seq 0 (Z.to_nat (rowEnd - rowStart))). intros l. revert m.
  induction l as [| k l IHl]; intros m; [reflexivity |].
  cbn [fold_left map]. apply IHl.
Qed.

(** Queueing the rows [0, limit) and draining the queue. *)
Lemma enqueue_then_drain conv rowStep limit cols pixel m :
  (forall z, 0 <= z <= limit -> conv z = z) ->
  limit + rowStep < 2 ^ 64 -> (0 < limit -> 0 < rowStep) ->
  exists jobs,
    enqueue_rows conv (Datatypes.S (Z.to_nat limit)) 0 rowStep limit
    = Some jobs
    /\ rows_of jobs = row_range 0 limit
    /\ Forall (fun job => 0 <= fst job < snd job /\ snd job <= limit
                         /\ snd job - fst job <= rowStep) jobs
    /\ drain_jobs jobs cols pixel m
       = for_loop (Z.to_nat limit)
           (fun y m => for_loop (Z.to_nat cols) (fun x m => pixel x y m) m)
           m.
Proof.
  intros Hconv Hlim Hstep.
  destruct (enqueue_rows_tiles conv (Datatypes.S (Z.to_nat limit)) 0 rowStep
              limit Hconv) as (jobs & Hjobs & Hrows & Hall);
    [lia | lia | lia | lia |].
  exists jobs. repeat split; try assumption.
  rewrite drain_jobs_rows, Hrows, for_loop_fold.
  unfold row_range. rewrite Z.sub_0_r.
  generalize (seq 0 (Z.to_nat limit)). intros l. revert m.
  induction l as [| k l IHl]; intros m; [reflexivity |].
  cbn [fold_left map]. rewrite Z.add_0_l. apply IHl.
Qed.

(** X13.  The loop that cuts the rows [0, limit) into jobs ends, and the
    jobs it queues are non-empty, at most [rowStep] rows long, and list
    every row once, in increasing order; so draining the queue in order is
    the plain loop over the rows.  This holds for the [size_t] loop of
    [generateGainMap] and the [int] loop of [applyGainMap], as long as the
    row numbers fit the type. *)
Theorem row_jobs_cover_every_row_once
  (conv : Z -> Z) (rowStep limit cols : Z) (pixel : Z -> Z -> mem -> mem)
  (m : mem) :
  (forall z, 0 <= z <= limit -> conv z = z) ->
  limit + rowStep < 2 ^ 64 -> (0 < limit -> 0 < rowStep) ->
  exists jobs,
    enqueue_rows conv (Datatypes.S (Z.to_nat limit)) 0 rowStep limit
    = Some jobs
    /\ rows_of jobs = row_range 0 limit
    /\ Forall (fun job => 0 <= fst job < snd job /\ snd job <= limit
                         /\ snd job - fst job <= rowStep) jobs
    /\ drain_jobs jobs cols pixel m
       = for_loop (Z.to_nat limit)
           (fun y m => for_loop (Z.to_nat cols) (fun x m => pixel x y m) m)
           m.
Proof. apply enqueue_then_drain. Qed.

Lemma row_jobs_cover_every_row_once_witness :
  let pixel x y m := store m (mkptr 3 (x + y * 4)) (x + y) in
  exists jobs,
    enqueue_rows to_int 11 0 4 10 = Some jobs
    /\ rows_of jobs = row_range 0 10
    /\ Forall (fun job => 0 <= fst job < snd job /\ snd job <= 10
                         /\ snd job - fst job <= 4) jobs
    /\ drain_jobs jobs 4 pixel Sample.heap0
       = for_loop (Z.to_nat 10)
           (fun y m => for_loop (Z.to_nat 4) (fun x m => pixel x y m) m)
           Sample.heap0.
Proof.
  apply (row_jobs_cover_every_row_once to_int 4 10 4
           (fun x y m => store m (mkptr 3 (x + y * 4)) (x + y)) Sample.heap0).
  - intros z Hz. apply to_int_small. lia.
  - lia.
  - lia.
Defined.

(** ** The pixels of [generateGainMap] *)

(** A plane filled row by row with values computed from cells of other
    blocks. *)
Lemma plane_fill rows cols base stride (value : mem -> Z -> Z -> Z) m0 :
  0 <= cols <= stride ->
  (forall m x y,
     (forall p, blk p <> blk base -> load m p = load m0 p) ->
     value m x y = value m0 x y) ->
  let m' :=
    for_loop (Z.to_nat rows)
      (fun y m =>
         for_loop (Z.to_nat cols)
           (fun x m => store m (padd base (x + y * stride)) (value m x y)) m)
      m0 in
  (forall x y, 0 <= x < cols -> 0 <= y < rows ->
     load m' (padd base (x + y * stride)) = value m0 x y)
  /\ (forall p, blk p <> blk base -> load m' p = load m0 p).
Proof.
  intros Hcols Hvalue m'.
  assert (Hall :
    (forall y x, 0 <= y < Z.of_nat (Z.to_nat rows) -> 0 <= x < cols ->
       load m' (padd base (x + y * stride)) = value m0 x y)
    /\ (forall p, (forall y x, 0 <= y < Z.of_nat (Z.to_nat rows) ->
                    0 <= x < cols -> padd base (x + y * stride) <> p) ->
          load m' p = load m0 p)).
  { unfold m'.
    apply (for_loop_cells (I := Z)) with (src := fun p => blk p <> blk base).
    - intros y x y' x' Hy Hx Hy' Hx' Heq. apply padd_inj in Heq.
      apply (row_major_inj stride y x y' x'); lia.
    - intros y x _ _ Hp. apply Hp. reflexivity.
    - intros y m1 Hy Hm1.
      assert (Hrow :
        (forall x (u : unit), 0 <= x < Z.of_nat (Z.to_nat cols) -> True ->
           load (for_loop (Z.to_nat cols)
                   (fun x m => store m (padd base (x + y * stride))
                                 (value m x y)) m1)
             (padd base (x + y * stride))
           = value m0 x y)
        /\ (forall p, (forall x (u : unit),
                         0 <= x < Z.of_nat (Z.to_nat cols) -> True ->
                         padd base (x + y * stride) <> p) ->
              load (for_loop (Z.to_nat cols)
                      (fun x m => store m (padd base (x + y * stride))
                                    (value m x y)) m1) p
              = load m1 p)).
      { apply (for_loop_cells (I := unit)) with
          (src := fun p => blk p <> blk base).
        - intros x _ x' _ _ _ _ _ Heq. apply padd_inj in Heq. lia.
        - intros x _ _ _ Hp. apply Hp. reflexivity.
        - intros x m2 _ Hm2. split.
          + intros _ _. rewrite load_store_same. apply Hvalue.
            intros p Hp. rewrite Hm2 by exact Hp. now apply Hm1.
          + intros p Hp. apply load_store_other. now apply (Hp tt). }
      destruct Hrow as [Rv Rf]. split.
      + intros x Hx. apply (Rv x tt); (trivial || lia).
      + intros p Hp. apply Rf. intros x _ Hx _. apply Hp. lia. }
  destruct Hall as [Hv Hf]. split.
  - intros x y Hx Hy. apply Hv; lia.
  - intros p Hp. apply Hf. intros y x _ _ Heq. subst p. now apply Hp.
Qed.

(** A cell no pixel writes is as it was after the queue is drained. *)
Lemma drain_jobs_frame jobs cols pixel m p :
  (forall x y m1, load (pixel x y m1) p = load m1 p) ->
  load (drain_jobs jobs cols pixel m) p = load m p.
Proof.
  intros Hpixel. rewrite drain_jobs_rows.
  generalize (rows_of jobs). intros rows. revert m.
  induction rows as [| y rows IH]; intros m; [reflexivity |].
  cbn [fold_left]. rewrite IH.
  apply (for_loop_inv (fun _ m' => load m' p = load m p)); [reflexivity |].
  intros x m1 _ IH1. now rewrite Hpixel.
Qed.

Section GainMapPixels.

Variable USE_HLG_INVOETF_LUT USE_PQ_INVOETF_LUT : bool.
Variable reported_cores : Z.
Variable gain_sample :
  mem -> ultrahdr_uncompressed_struct -> ultrahdr_uncompressed_struct ->
  ultrahdr_metadata_struct ->
  ColorTransformFn -> ColorTransformFn -> ColorCalculationFn ->
  ColorTransformFn -> ColorTransformFn -> F32.float ->
  Z -> Z -> Z.

Let generate :=
  generateGainMap USE_HLG_INVOETF_LUT USE_PQ_INVOETF_LUT reported_cores
    gain_sample.

Lemma generateGainMap_frame w yuv420_image_ptr p010_image_ptr hdr_tf metadata
  dest sdr_is_601 st w' metadata' dest' p :
  generate w yuv420_image_ptr p010_image_ptr hdr_tf metadata dest sdr_is_601
  = Returns (st, w', metadata', dest') ->
  blk p <> next_block w ->
  load (heap w') p = load (heap w) p.
Proof.
  intros H Hp. unfold generate, generateGainMap in H.
  destruct yuv420_image_ptr as [yuv |]; [| now injection H as _ <- _ _].
  destruct p010_image_ptr as [p010 |]; [| now injection H as _ <- _ _].
  destruct metadata as [md0 |]; [| now injection H as _ <- _ _].
  destruct dest as [d |]; [| now injection H as _ <- _ _].
  destruct (data yuv); [| now injection H as _ <- _ _].
  destruct (chroma_data yuv); [| now injection H as _ <- _ _].
  destruct (data p010); [| now injection H as _ <- _ _].
  destruct (chroma_data p010); [| now injection H as _ <- _ _].
  destruct (_ || _); [now injection H as _ <- _ _ |].
  destruct (_ || _); [now injection H as _ <- _ _ |].
  cbn [new_array] in H. cbv zeta in H.
  destruct hdr_tf; try (now injection H as _ <- _ _);
    (destruct (colorGamut yuv); try (now injection H as _ <- _ _));
    (destruct (colorGamut p010); try (now injection H as _ <- _ _));
    (destruct (enqueue_rows _ _ _ _ _); [| discriminate H]);
    injection H as _ <- _ _; cbn [heap];
    apply drain_jobs_frame; intros x y m1;
    apply load_store_other; intros E; apply Hp; rewrite <- E; reflexivity.
Qed.

Lemma generateGainMap_pixels w yuv p010 hdr_tf md d sdr_is_601 :
  data yuv <> None -> chroma_data yuv <> None ->
  data p010 <> None -> chroma_data p010 <> None ->
  width yuv = width p010 -> height yuv = height p010 ->
  0 <= width yuv -> 0 <= height yuv < 2 ^ 63 ->
  colorGamut yuv <> ULTRAHDR_COLORGAMUT_UNSPECIFIED ->
  colorGamut p010 <> ULTRAHDR_COLORGAMUT_UNSPECIFIED ->
  known_transfer hdr_tf ->
  (forall m md' f1 f2 f3 f4 f5 nits x y,
     (forall p, blk p <> next_block w -> load m p = load (heap w) p) ->
     gain_sample m yuv p010 md' f1 f2 f3 f4 f5 nits x y
     = gain_sample (heap w) yuv p010 md' f1 f2 f3 f4 f5 nits x y) ->
  exists w' md' d' f1 f2 f3 f4 f5 nits,
    generate w (Some yuv) (Some p010) hdr_tf (Some md) (Some d) sdr_is_601
    = Returns (ULTRAHDR_NO_ERROR, w', Some md', Some d')
    /\ data d' = Some (mkptr (next_block w) 0)
    /\ width d' = width yuv / 4 /\ height d' = height yuv / 4
    /\ forall x y, 0 <= x < width yuv / 4 -> 0 <= y < height yuv / 4 ->
         load (heap w') (padd (mkptr (next_block w) 0) (x + y * (width yuv / 4)))
         = gain_sample (heap w) yuv p010 md' f1 f2 f3 f4 f5 nits x y.
Proof.
  intros Hsy Hsc Hhy Hhc Hw Hh HW HH Hgs Hgh Htf Hkernel.
  set (map_data := mkptr (next_block w) 0).
  set (mw := width yuv / 4). set (mh := height yuv / 4).
  assert (Hmw : 0 <= mw) by (apply Z.div_pos; lia).
  assert (Hmh : 0 <= mh /\ mh * 4 <= height yuv).
  { unfold mh. split; [apply Z.div_pos; lia |].
    pose proof (Z.mul_div_le (height yuv) 4). lia. }
  assert (Hloop : forall rowStep md' f1 f2 f3 f4 f5 nits,
    (rowStep = mh \/ rowStep = 4) ->
    exists jobs,
      enqueue_rows to_size_t (Datatypes.S (Z.to_nat mh)) 0 rowStep mh
      = Some jobs
      /\ forall x y, 0 <= x < mw -> 0 <= y < mh ->
           load
             (drain_jobs jobs mw
                (fun x y m =>
                   store m (padd map_data (x + y * mw))
                     (gain_sample m yuv p010 md' f1 f2 f3 f4 f5 nits x y))
                (heap w))
             (padd map_data (x + y * mw))
           = gain_sample (heap w) yuv p010 md' f1 f2 f3 f4 f5 nits x y).
  { intros rowStep md' f1 f2 f3 f4 f5 nits Hstep.
    destruct (enqueue_then_drain to_size_t rowStep mh mw
                (fun x y m =>
                   store m (padd map_data (x + y * mw))
                     (gain_sample m yuv p010 md' f1 f2 f3 f4 f5 nits x y))
                (heap w))
      as (jobs & Hjobs & _ & _ & Hdrain).
    - intros z Hz. apply to_size_t_small. lia.
    - lia.
    - lia.
    - exists jobs. split; [exact Hjobs |]. rewrite Hdrain.
      intros x y Hx Hy.
      apply (plane_fill mh mw map_data mw
               (fun m x y =>
                  gain_sample m yuv p010 md' f1 f2 f3 f4 f5 nits x y)
               (heap w)); try lia.
      intros m x' y' Hm. apply Hkernel. exact Hm. }
  unfold generate, generateGainMap.
  destruct (data yuv); [| congruence].
  destruct (chroma_data yuv); [| congruence].
  destruct (data p010); [| congruence].
  destruct (chroma_data p010); [| congruence].
  rewrite <- Hw, <- Hh, !Z.eqb_refl. cbn [negb orb].
  unfold kMapDimensionScaleFactor, kJobSzInRows. fold mw mh.
  destruct (colorGamut yuv) eqn:Egs; [congruence | | |];
    (destruct (colorGamut p010) eqn:Egh; [congruence | | |]);
    cbn [gamut_eqb orb new_array];
    (destruct Htf as [-> | [-> | ->]]);
    cbv zeta; cbn [width]; fold map_data;
    match goal with
    | |- context [enqueue_rows _ _ _ ?step _] =>
        match goal with
        | |- context [gain_sample _ _ _ ?md' ?f1 ?f2 ?f3 ?f4 ?f5 ?nits] =>
            destruct (Hloop step md' f1 f2 f3 f4 f5 nits)
              as (jobs & Hjobs & Hpx);
            [ destruct (Z.min (GetCPUCoreCount reported_cores) 4 =? 1);
              [left | right]; reflexivity
            | rewrite Hjobs;
              exists (mkworld
                        (drain_jobs jobs mw
                           (fun x y m =>
                              store m (padd map_data (x + y * mw))
                                (gain_sample m yuv p010 md' f1 f2 f3 f4 f5
                                   nits x y))
                           (heap w))
                        (next_block w + 1)), md';
              eexists; exists f1, f2, f3, f4, f5, nits;
              split; [reflexivity |];
              cbn [data width height heap];
              split; [reflexivity |]; split; [reflexivity |];
              split; [reflexivity |]; exact Hpx ]
        end
    end.
Qed.

End GainMapPixels.

(** X14.  On success [generateGainMap] has written every cell of the map
    it allocated: cell (x, y) of the W/4 by H/4 map holds the gain the
    colour kernel computes for (x, y) from the two input images as they
    were before the call, with one selection of conversion functions and
    one white level for the whole map, whatever the number of worker
    threads.  The kernel is assumed to read nothing of the block the map
    is allocated in. *)
Theorem generateGainMap_fills_the_map
  (USE_HLG_INVOETF_LUT USE_PQ_INVOETF_LUT : bool) (reported_cores : Z)
  (gain_sample :
     mem -> ultrahdr_uncompressed_struct -> ultrahdr_uncompressed_struct ->
     ultrahdr_metadata_struct ->
     ColorTransformFn -> ColorTransformFn -> ColorCalculationFn ->
     ColorTransformFn -> ColorTransformFn -> F32.float -> Z -> Z -> Z)
  (w : world) (yuv p010 : ultrahdr_uncompressed_struct)
  (hdr_tf : ultrahdr_transfer_function)
  (md : ultrahdr_metadata_struct) (d : ultrahdr_uncompressed_struct)
  (sdr_is_601 : bool) :
  data yuv <> None -> chroma_data yuv <> None ->
  data p010 <> None -> chroma_data p010 <> None ->
  width yuv = width p010 -> height yuv = height p010 ->
  0 <= width yuv -> 0 <= height yuv < 2 ^ 63 ->
  colorGamut yuv <> ULTRAHDR_COLORGAMUT_UNSPECIFIED ->
  colorGamut p010 <> ULTRAHDR_COLORGAMUT_UNSPECIFIED ->
  known_transfer hdr_tf ->
  (forall m md' f1 f2 f3 f4 f5 nits x y,
     (forall p, blk p <> next_block w -> load m p = load (heap w) p) ->
     gain_sample m yuv p010 md' f1 f2 f3 f4 f5 nits x y
     = gain_sample (heap w) yuv p010 md' f1 f2 f3 f4 f5 nits x y) ->
  exists w' md' d' map_data
         hdrInvOetf hdrGamutConversionFn luminanceFn sdrYuvToRgbFn
         hdrYuvToRgbFn hdr_white_nits,
    generateGainMap USE_HLG_INVOETF_LUT USE_PQ_INVOETF_LUT reported_cores
      gain_sample w (Some yuv) (Some p010) hdr_tf (Some md) (Some d)
      sdr_is_601
    = Returns (ULTRAHDR_NO_ERROR, w', Some md', Some d')
    /\ data d' = Some map_data
    /\ blk map_data = next_block w
    /\ width d' = width yuv / 4 /\ height d' = height yuv / 4
    /\ forall x y, 0 <= x < width d' -> 0 <= y < height d' ->
         load (heap w') (padd map_data (x + y * width d'))
         = gain_sample (heap w) yuv p010 md' hdrInvOetf hdrGamutConversionFn
             luminanceFn sdrYuvToRgbFn hdrYuvToRgbFn hdr_white_nits x y.
Proof.
  intros Hsy Hsc Hhy Hhc Hw Hh HW HH Hgs Hgh Htf Hkernel.
  destruct (generateGainMap_pixels USE_HLG_INVOETF_LUT USE_PQ_INVOETF_LUT
              reported_cores gain_sample w yuv p010 hdr_tf md d sdr_is_601
              Hsy Hsc Hhy Hhc Hw Hh HW HH Hgs Hgh Htf Hkernel)
    as (w' & md' & d' & f1 & f2 & f3 & f4 & f5 & nits
        & Hrun & Hd & Hdw & Hdh & Hpx).
  exists w', md', d', (mkptr (next_block w) 0), f1, f2, f3, f4, f5, nits.
  rewrite Hdw, Hdh. repeat split; assumption.
Qed.

Lemma generateGainMap_fills_the_map_witness :
  let w := Sample.world0 in
  let yuv := Sample.yuv_4x4 in
  let p010 := Sample.p010_4x4 in
  exists w' md' d' map_data
         hdrInvOetf hdrGamutConversionFn luminanceFn sdrYuvToRgbFn
         hdrYuvToRgbFn hdr_white_nits,
    generateGainMap true true 4 Sample.gain_sample0 w (Some yuv) (Some p010)
      ULTRAHDR_TF_HLG (Some Sample.blank_metadata) (Some Sample.blank_dest)
      false
    = Returns (ULTRAHDR_NO_ERROR, w', Some md', Some d')
    /\ data d' = Some map_data
    /\ blk map_data = next_block w
    /\ width d' = width yuv / 4 /\ height d' = height yuv / 4
    /\ forall x y, 0 <= x < width d' -> 0 <= y < height d' ->
         load (heap w') (padd map_data (x + y * width d'))
         = Sample.gain_sample0 (heap w) yuv p010 md' hdrInvOetf
             hdrGamutConversionFn luminanceFn sdrYuvToRgbFn hdrYuvToRgbFn
             hdr_white_nits x y.
Proof.
  apply (generateGainMap_fills_the_map true true 4 Sample.gain_sample0
           Sample.world0 Sample.yuv_4x4 Sample.p010_4x4 ULTRAHDR_TF_HLG
           Sample.blank_metadata Sample.blank_dest false);
    try discriminate; try reflexivity.
  - simpl. lia.
  - right. left. reflexivity.
  - intros m md' f1 f2 f3 f4 f5 nits x y Hm.
    unfold Sample.gain_sample0. cbn [data Sample.yuv_4x4].
    apply Hm. discriminate.
Defined.

(** X15.  [generateGainMap] writes into the block it allocates for the
    map and nowhere else: whatever it returns, every cell of every block
    that existed before the call, the two input images among them, is as
    it was. *)
Theorem generateGainMap_writes_only_its_map
  (USE_HLG_INVOETF_LUT USE_PQ_INVOETF_LUT : bool) (reported_cores : Z)
  (gain_sample :
     mem -> ultrahdr_uncompressed_struct -> ultrahdr_uncompressed_struct ->
     ultrahdr_metadata_struct ->
     ColorTransformFn -> ColorTransformFn -> ColorCalculationFn ->
     ColorTransformFn -> ColorTransformFn -> F32.float -> Z -> Z -> Z)
  (w w' : world)
  (yuv420_image_ptr p010_image_ptr : option ultrahdr_uncompressed_struct)
  (hdr_tf : ultrahdr_transfer_function)
  (metadata metadata' : option ultrahdr_metadata_struct)
  (dest dest' : option ultrahdr_uncompressed_struct)
  (sdr_is_601 : bool) (st : status_t) :
  generateGainMap USE_HLG_INVOETF_LUT USE_PQ_INVOETF_LUT reported_cores
    gain_sample w yuv420_image_ptr p010_image_ptr hdr_tf metadata dest
    sdr_is_601
  = Returns (st, w', metadata', dest') ->
  forall p, blk p <> next_block w -> load (heap w') p = load (heap w) p.
Proof.
  intros H p Hp.
  exact (generateGainMap_frame USE_HLG_INVOETF_LUT USE_PQ_INVOETF_LUT
           reported_cores gain_sample w yuv420_image_ptr p010_image_ptr
           hdr_tf metadata dest sdr_is_601 st w' metadata' dest' p H Hp).
Qed.

Lemma generateGainMap_writes_only_its_map_witness :
  let p := mkptr 1 5 in
  load
    (heap
       (match
          generateGainMap true true 4 Sample.gain_sample0 Sample.world0
            (Some Sample.yuv_4x4) (Some Sample.p010_4x4) ULTRAHDR_TF_PQ
            (Some Sample.blank_metadata) (Some Sample.blank_dest) false
        with
        | Returns (_, w', _, _) => w'
        | _ => Sample.world0
        end)) p
  = load (heap Sample.world0) p.
Proof.
  eapply (generateGainMap_writes_only_its_map true true 4
            Sample.gain_sample0 Sample.world0 _ (Some Sample.yuv_4x4)
            (Some Sample.p010_4x4) ULTRAHDR_TF_PQ
            (Some Sample.blank_metadata) _ (Some Sample.blank_dest) _ false).
  - reflexivity.
  - discriminate.
Defined.

(** ** From generator to applier *)

(** The metadata [generateGainMap] leaves on success passes the tests of
    [applyGainMap]. *)
Lemma generated_metadata_is_supported
  USE_HLG_INVOETF_LUT USE_PQ_INVOETF_LUT reported_cores gain_sample
  w yuv420_image_ptr p010_image_ptr hdr_tf metadata dest sdr_is_601
  w' md' dest' :
  generateGainMap USE_HLG_INVOETF_LUT USE_PQ_INVOETF_LUT reported_cores
    gain_sample w yuv420_image_ptr p010_image_ptr hdr_tf metadata dest
    sdr_is_601
  = Returns (ULTRAHDR_NO_ERROR, w', Some md', dest') ->
  supported_metadata md'.
Proof.
  intros H. unfold generateGainMap in H.
  destruct yuv420_image_ptr as [yuv |]; [| discriminate H].
  destruct p010_image_ptr as [p010 |]; [| discriminate H].
  destruct metadata as [md0 |]; [| discriminate H].
  destruct dest as [d |]; [| discriminate H].
  destruct (data yuv); [| discriminate H].
  destruct (chroma_data yuv); [| discriminate H].
  destruct (data p010); [| discriminate H].
  destruct (chroma_data p010); [| discriminate H].
  destruct (_ || _); [discriminate H |].
  destruct (_ || _); [discriminate H |].
  cbn [new_array] in H. cbv zeta in H.
  destruct hdr_tf; try discriminate H;
    (destruct (colorGamut yuv); try discriminate H);
    (destruct (colorGamut p010); try discriminate H);
    (destruct (enqueue_rows _ _ _ _ _); [| discriminate H]);
    injection H as _ <- _;
    unfold supported_metadata;
    cbn [version gamma offsetSdr offsetHdr minContentBoost hdrCapacityMin
         maxContentBoost hdrCapacityMax];
    repeat split; vm_compute; reflexivity.
Qed.

Lemma load_store_le_other n m p v q :
  blk q <> blk p -> load (store_le n m p v) q = load m q.
Proof.
  revert m p v. induction n as [| n IH]; intros m p v Hq; [reflexivity |].
  cbn [store_le]. rewrite IH by (cbn [padd blk]; exact Hq).
  apply load_store_other. intros E. apply Hq. now rewrite E.
Qed.

Section ApplyGainMapMore.

Variable reported_cores : Z.
Variable Color : Type.
Variable recovered_pixel :
  mem -> ultrahdr_uncompressed_struct -> ultrahdr_uncompressed_struct ->
  ultrahdr_metadata_struct -> F32.float -> Z -> Z -> Z -> Color.
Variable colorToRgbaF16 : Color -> Z.
Variable colorToRgba1010102 : Color -> Z.
Variable hlgOetf pqOetf : Color -> Color.
Variable channels_10bit : Color -> Z * Z * Z.

Let apply :=
  applyGainMap reported_cores Color recovered_pixel colorToRgbaF16
    colorToRgba1010102 hlgOetf pqOetf channels_10bit.

Lemma emit_pixel_frame output_format dest_data width height pixel_idx rgb_hdr
  m q :
  blk q <> blk dest_data ->
  load (emit_pixel Color colorToRgbaF16 colorToRgba1010102 hlgOetf pqOetf
          channels_10bit output_format dest_data width height pixel_idx
          rgb_hdr m) q
  = load m q.
Proof.
  intros Hq. unfold emit_pixel.
  destruct output_format; try reflexivity;
    try (apply load_store_le_other; exact Hq).
  destruct (channels_10bit rgb_hdr) as [[r g] b].
  now rewrite !load_store_le_other by exact Hq.
Qed.

Lemma applyGainMap_frame m yuv420_image_ptr gainmap_image_ptr metadata
  output_format max_display_boost dest st m' dest' q :
  apply m yuv420_image_ptr gainmap_image_ptr metadata output_format
    max_display_boost dest
  = Returns (st, m', dest') ->
  (forall d dest_data, dest = Some d -> data d = Some dest_data ->
                       blk q <> blk dest_data) ->
  load m' q = load m q.
Proof.
  intros H Hq. unfold apply, applyGainMap in H.
  destruct yuv420_image_ptr as [yuv |]; [| now injection H as _ <- _].
  destruct gainmap_image_ptr as [gm |]; [| now injection H as _ <- _].
  destruct metadata as [md |]; [| now injection H as _ <- _].
  destruct dest as [d |]; [| now injection H as _ <- _].
  destruct (data yuv); [| now injection H as _ <- _].
  destruct (chroma_data yuv); [| now injection H as _ <- _].
  destruct (data gm); [| now injection H as _ <- _].
  destruct (negb _); [now injection H as _ <- _ |].
  destruct (F32.neb _ _); [now injection H as _ <- _ |].
  destruct (_ || _); [now injection H as _ <- _ |].
  destruct (_ || _); [now injection H as _ <- _ |].
  destruct (width gm =? 0); [discriminate H |].
  destruct (negb _); [now injection H as _ <- _ |].
  destruct (height gm =? 0); [discriminate H |].
  destruct (negb _); [now injection H as _ <- _ |].
  destruct (negb _); [now injection H as _ <- _ |].
  cbv zeta in H.
  destruct (enqueue_rows _ _ _ _ _) as [jobs |]; [| discriminate H].
  destruct (data d) as [dest_data |] eqn:Ed.
  - injection H as _ <- _. apply drain_jobs_frame. intros x y m1.
    apply emit_pixel_frame. now apply (Hq d dest_data).
  - destruct (_ && _); [discriminate H |]. now injection H as _ <- _.
Qed.

Lemma applyGainMap_succeeds m yuv gm md output_format max_display_boost d
  dest_data :
  data yuv <> None -> chroma_data yuv <> None -> data gm <> None ->
  data d = Some dest_data ->
  supported_metadata md ->
  0 < width gm -> 0 < height gm ->
  0 < width yuv -> 0 < height yuv < 2 ^ 31 ->
  width yuv mod width gm = 0 -> height yuv mod height gm = 0 ->
  width yuv * height gm = height yuv * width gm ->
  width yuv / width gm < 2 ^ 31 ->
  exists m' d',
    apply m (Some yuv) (Some gm) (Some md) output_format max_display_boost
      (Some d)
    = Returns (ULTRAHDR_NO_ERROR, m', Some d')
    /\ data d' = Some dest_data
    /\ width d' = width yuv /\ height d' = height yuv
    /\ colorGamut d' = colorGamut yuv.
Proof.
  intros Hy Hc Hg Hd (Hv & Hga & Hs & Hh & Hmin & Hmax)
    Hgw Hgh HW HH Hwm Hhm Hratio Hscale.
  unfold apply, applyGainMap.
  destruct (data yuv); [| congruence].
  destruct (chroma_data yuv); [| congruence].
  destruct (data gm); [| congruence].
  rewrite Hv, String.eqb_refl, Hga, Hs, Hh, Hmin, Hmax. cbn [negb orb].
  destruct (Z.eqb_spec (width gm) 0); [lia |].
  destruct (Z.eqb_spec (height gm) 0); [lia |].
  rewrite Hwm, Hhm, Hratio, !Z.eqb_refl. cbn [negb]. cbv zeta.
  assert (Hsf : 1 <= width yuv / width gm).
  { apply Z.div_le_lower_bound; [lia |]. rewrite Z.mul_1_r.
    apply Z.divide_pos_le; [lia |]. apply Z.mod_divide; lia. }
  set (rowStep := to_int _).
  assert (Hstep : 0 < rowStep <= Z.max (height yuv) (width yuv / width gm)).
  { unfold rowStep.
    destruct (_ =? 1); rewrite to_int_small by lia; lia. }
  destruct (enqueue_rows_tiles to_int (Datatypes.S (Z.to_nat (height yuv))) 0
              rowStep (height yuv)) as (jobs & Hjobs & _);
    [intros z Hz; apply to_int_small; lia | lia | lia | lia | lia |].
  rewrite Hjobs, Hd.
  do 2 eexists. split; [reflexivity |].
  cbn [data width height colorGamut]. repeat split.
Qed.

End ApplyGainMapMore.

(** X16.  What [generateGainMap] produces, [applyGainMap] accepts: for an
    SDR and an HDR image whose sides are positive multiples of 4, the
    metadata and the gain map the generator leaves pass the applier's
    metadata and scale-factor tests together with the same SDR image, and
    the applier returns NO_ERROR with a destination of the SDR image's
    width, height and gamut. *)
Theorem generated_gain_map_is_accepted
  (USE_HLG_INVOETF_LUT USE_PQ_INVOETF_LUT : bool)
  (cores_at_encode cores_at_decode : Z)
  (gain_sample :
     mem -> ultrahdr_uncompressed_struct -> ultrahdr_uncompressed_struct ->
     ultrahdr_metadata_struct ->
     ColorTransformFn -> ColorTransformFn -> ColorCalculationFn ->
     ColorTransformFn -> ColorTransformFn -> F32.float -> Z -> Z -> Z)
  (Color : Type)
  (recovered_pixel :
     mem -> ultrahdr_uncompressed_struct -> ultrahdr_uncompressed_struct ->
     ultrahdr_metadata_struct -> F32.float -> Z -> Z -> Z -> Color)
  (colorToRgbaF16 colorToRgba1010102 : Color -> Z)
  (hlgOetf pqOetf : Color -> Color) (channels_10bit : Color -> Z * Z * Z)
  (w : world) (yuv p010 : ultrahdr_uncompressed_struct)
  (hdr_tf : ultrahdr_transfer_function)
  (md : ultrahdr_metadata_struct) (map_struct : ultrahdr_uncompressed_struct)
  (sdr_is_601 : bool)
  (output_format : ultrahdr_output_format) (max_display_boost : F32.float)
  (dest : ultrahdr_uncompressed_struct) :
  data yuv <> None -> chroma_data yuv <> None ->
  data p010 <> None -> chroma_data p010 <> None ->
  data dest <> None ->
  width yuv = width p010 -> height yuv = height p010 ->
  0 < width yuv -> 0 < height yuv < 2 ^ 31 ->
  width yuv mod 4 = 0 -> height yuv mod 4 = 0 ->
  colorGamut yuv <> ULTRAHDR_COLORGAMUT_UNSPECIFIED ->
  colorGamut p010 <> ULTRAHDR_COLORGAMUT_UNSPECIFIED ->
  known_transfer hdr_tf ->
  exists w' md' gm m'' dest',
    generateGainMap USE_HLG_INVOETF_LUT USE_PQ_INVOETF_LUT cores_at_encode
      gain_sample w (Some yuv) (Some p010) hdr_tf (Some md) (Some map_struct)
      sdr_is_601
    = Returns (ULTRAHDR_NO_ERROR, w', Some md', Some gm)
    /\ applyGainMap cores_at_decode Color recovered_pixel colorToRgbaF16
         colorToRgba1010102 hlgOetf pqOetf channels_10bit (heap w')
         (Some yuv) (Some gm) (Some md') output_format max_display_boost
         (Some dest)
       = Returns (ULTRAHDR_NO_ERROR, m'', Some dest')
    /\ width dest' = width yuv /\ height dest' = height yuv
    /\ colorGamut dest' = colorGamut yuv.
Proof.
  intros Hsy Hsc Hhy Hhc Hdd Hw Hh HW HH Hwm Hhm Hgs Hgh Htf.
  destruct (data dest) as [dest_data |] eqn:Ed; [| congruence].
  (* the generator's run *)
  assert (Hgen : exists w' md' gm,
    generateGainMap USE_HLG_INVOETF_LUT USE_PQ_INVOETF_LUT cores_at_encode
      gain_sample w (Some yuv) (Some p010) hdr_tf (Some md) (Some map_struct)
      sdr_is_601
    = Returns (ULTRAHDR_NO_ERROR, w', Some md', Some gm)
    /\ data gm <> None
    /\ width gm = width yuv / 4 /\ height gm = height yuv / 4).
  { destruct (enqueue_then_drain to_size_t
                ((if Z.min (GetCPUCoreCount cores_at_encode) 4 =? 1
                  then height yuv else kJobSzInRows)
                 / kMapDimensionScaleFactor)
                (height yuv / kMapDimensionScaleFactor) 0
                (fun _ _ m => m) (heap w))
      as (jobs & Hjobs & _).
    - intros z Hz. apply to_size_t_small.
      assert (height yuv / kMapDimensionScaleFactor <= height yuv)
        by (apply Z.div_le_upper_bound; unfold kMapDimensionScaleFactor; lia).
      lia.
    - unfold kMapDimensionScaleFactor, kJobSzInRows.
      assert (height yuv / 4 <= height yuv)
        by (apply Z.div_le_upper_bound; lia).
      destruct (_ =? 1); [lia |]. change (16 / 4) with 4. lia.
    - unfold kMapDimensionScaleFactor, kJobSzInRows.
      destruct (_ =? 1); [lia |]. intros _. reflexivity.
    - unfold generateGainMap.
      destruct (data yuv); [| congruence].
      destruct (chroma_data yuv); [| congruence].
      destruct (data p010); [| congruence].
      destruct (chroma_data p010); [| congruence].
      rewrite <- Hw, <- Hh, !Z.eqb_refl. cbn [negb orb].
      destruct (colorGamut yuv) eqn:Egs; [congruence | | |];
        (destruct (colorGamut p010) eqn:Egh; [congruence | | |]);
        cbn [gamut_eqb orb new_array];
        (destruct Htf as [-> | [-> | ->]]);
        cbv zeta; rewrite Hjobs;
        (do 3 eexists; split; [reflexivity |]);
        cbn [data width height]; unfold kMapDimensionScaleFactor;
        repeat split; discriminate. }
  destruct Hgen as (w' & md' & gm & Hrun & Hgd & Hgw & Hgh').
  pose proof (generated_metadata_is_supported _ _ _ _ _ _ _ _ _ _ _ _ _ _
                Hrun) as Hmd.
  pose proof (Z_div_mod_eq_full (width yuv) 4) as Hwq.
  pose proof (Z_div_mod_eq_full (height yuv) 4) as Hhq.
  assert (Hscale : width yuv / width gm = 4).
  { rewrite Hgw. symmetry. apply Z.div_unique_exact; lia. }
  destruct (applyGainMap_succeeds cores_at_decode Color recovered_pixel
              colorToRgbaF16 colorToRgba1010102 hlgOetf pqOetf channels_10bit
              (heap w') yuv gm md' output_format max_display_boost dest
              dest_data)
    as (m'' & dest' & Happly & _ & Hdw & Hdh & Hdg);
    try assumption; try lia.
  - rewrite Hgw. apply Z.mod_divide; [lia | exists 4; lia].
  - rewrite Hgh'. apply Z.mod_divide; [lia | exists 4; lia].
  - exists w', md', gm, m'', dest'. repeat split; assumption.
Qed.

Lemma generated_gain_map_is_accepted_witness :
  let yuv := Sample.yuv_4x4 in
  exists w' md' gm m'' dest',
    generateGainMap true true 4 Sample.gain_sample0 Sample.world0 (Some yuv)
      (Some Sample.p010_4x4) ULTRAHDR_TF_HLG (Some Sample.blank_metadata)
      (Some Sample.blank_dest) false
    = Returns (ULTRAHDR_NO_ERROR, w', Some md', Some gm)
    /\ applyGainMap 1 Z Sample.recovered_pixel0 (fun c => c) (fun c => c)
         (fun c => c) (fun c => c) (fun c => (c, c, c)) (heap w')
         (Some yuv) (Some gm) (Some md') ULTRAHDR_OUTPUT_HDR_LINEAR
         (F32.of_Z 4) (Some Sample2.blank_dest2)
       = Returns (ULTRAHDR_NO_ERROR, m'', Some dest')
    /\ width dest' = width yuv /\ height dest' = height yuv
    /\ colorGamut dest' = colorGamut yuv.
Proof.
  apply (generated_gain_map_is_accepted true true 4 1 Sample.gain_sample0 Z
           Sample.recovered_pixel0 (fun c => c) (fun c => c) (fun c => c)
           (fun c => c) (fun c => (c, c, c)) Sample.world0 Sample.yuv_4x4
           Sample.p010_4x4 ULTRAHDR_TF_HLG Sample.blank_metadata
           Sample.blank_dest false ULTRAHDR_OUTPUT_HDR_LINEAR (F32.of_Z 4)
           Sample2.blank_dest2);
    try discriminate; try reflexivity.
  - simpl. lia.
  - right. left. reflexivity.
Defined.

(** X17.  [applyGainMap] writes into the block of the destination's data
    pointer and nowhere else: whatever it returns, the SDR image, the gain
    map and every other cell outside that block are as they were. *)
Theorem applyGainMap_writes_only_the_destination
  (reported_cores : Z) (Color : Type)
  (recovered_pixel :
     mem -> ultrahdr_uncompressed_struct -> ultrahdr_uncompressed_struct ->
     ultrahdr_metadata_struct -> F32.float -> Z -> Z -> Z -> Color)
  (colorToRgbaF16 colorToRgba1010102 : Color -> Z)
  (hlgOetf pqOetf : Color -> Color) (channels_10bit : Color -> Z * Z * Z)
  (m m' : mem)
  (yuv420_image_ptr gainmap_image_ptr : option ultrahdr_uncompressed_struct)
  (metadata : option ultrahdr_metadata_struct)
  (output_format : ultrahdr_output_format) (max_display_boost : F32.float)
  (dest dest' : option ultrahdr_uncompressed_struct) (st : status_t) :
  applyGainMap reported_cores Color recovered_pixel colorToRgbaF16
    colorToRgba1010102 hlgOetf pqOetf channels_10bit m yuv420_image_ptr
    gainmap_image_ptr metadata output_format max_display_boost dest
  = Returns (st, m', dest') ->
  forall q,
    (forall d dest_data, dest = Some d -> data d = Some dest_data ->
                         blk q <> blk dest_data) ->
    load m' q = load m q.
Proof.
  intros H q Hq.
  exact (applyGainMap_frame reported_cores Color recovered_pixel
           colorToRgbaF16 colorToRgba1010102 hlgOetf pqOetf channels_10bit
           m yuv420_image_ptr gainmap_image_ptr metadata output_format
           max_display_boost dest st m' dest' q H Hq).
Qed.

Lemma applyGainMap_writes_only_the_destination_witness :
  let q := mkptr 1 5 in
  load
    (match
       Sample.applyGainMap0 Sample.heap0 (Some Sample.yuv_4x4)
         (Some Sample.gainmap_2x2) (Some Sample.hlg_metadata)
         ULTRAHDR_OUTPUT_HDR_PQ (F32.of_Z 4) (Some Sample.blank_dest)
     with
     | Returns (_, m', _) => m'
     | _ => Sample.heap0
     end) q
  = load Sample.heap0 q.
Proof.
  unfold Sample.applyGainMap0.
  eapply (applyGainMap_writes_only_the_destination 4 Z
            Sample.recovered_pixel0 (fun c => c) (fun c => c) (fun c => c)
            (fun c => c) (fun c => (c, c, c)) Sample.heap0 _
            (Some Sample.yuv_4x4) (Some Sample.gainmap_2x2)
            (Some Sample.hlg_metadata) ULTRAHDR_OUTPUT_HDR_PQ (F32.of_Z 4)
            (Some Sample.blank_dest) _ _).
  - reflexivity.
  - intros d dest_data Hd Hdd. injection Hd as <-.
    injection Hdd as <-. discriminate.
Defined.

(** X18.  [applyGainMap] succeeds on an integral scale: with the tested
    pointers and the destination's data pointer non-null, supported
    metadata, and an SDR image whose width and height are the gain map's
    multiplied by one and the same positive factor, it returns NO_ERROR
    and leaves a destination with the SDR image's width, height and gamut
    over the data pointer it was given. *)
Theorem applyGainMap_accepts_integral_scale
  (reported_cores : Z) (Color : Type)
  (recovered_pixel :
     mem -> ultrahdr_uncompressed_struct -> ultrahdr_uncompressed_struct ->
     ultrahdr_metadata_struct -> F32.float -> Z -> Z -> Z -> Color)
  (colorToRgbaF16 colorToRgba1010102 : Color -> Z)
  (hlgOetf pqOetf : Color -> Color) (channels_10bit : Color -> Z * Z * Z)
  (m : mem) (yuv gm : ultrahdr_uncompressed_struct)
  (md : ultrahdr_metadata_struct)
  (output_format : ultrahdr_output_format) (max_display_boost : F32.float)
  (d : ultrahdr_uncompressed_struct) (dest_data : ptr) (factor : Z) :
  data yuv <> None -> chroma_data yuv <> None -> data gm <> None ->
  data d = Some dest_data ->
  supported_metadata md ->
  0 < width gm -> 0 < height gm -> 0 < factor < 2 ^ 31 ->
  width yuv = factor * width gm -> height yuv = factor * height gm ->
  height yuv < 2 ^ 31 ->
  exists m' d',
    applyGainMap reported_cores Color recovered_pixel colorToRgbaF16
      colorToRgba1010102 hlgOetf pqOetf channels_10bit m (Some yuv)
      (Some gm) (Some md) output_format max_display_boost (Some d)
    = Returns (ULTRAHDR_NO_ERROR, m', Some d')
    /\ data d' = Some dest_data
    /\ width d' = width yuv /\ height d' = height yuv
    /\ colorGamut d' = colorGamut yuv.
Proof.
  intros Hy Hc Hg Hd Hmd Hgw Hgh Hf HW HH Hint.
  apply applyGainMap_succeeds; try assumption; try nia.
  - rewrite HW. apply Z.mod_mul. lia.
  - rewrite HH. apply Z.mod_mul. lia.
  - rewrite HW, Z.div_mul by lia. lia.
Qed.

Lemma applyGainMap_accepts_integral_scale_witness :
  exists m' d',
    applyGainMap 4 Z Sample.recovered_pixel0 (fun c => c) (fun c => c)
      (fun c => c) (fun c => c) (fun c => (c, c, c)) Sample.heap0
      (Some Sample.yuv_4x4) (Some Sample.gainmap_2x2)
      (Some Sample.hlg_metadata) ULTRAHDR_OUTPUT_HDR_LINEAR (F32.of_Z 4)
      (Some Sample.blank_dest)
    = Returns (ULTRAHDR_NO_ERROR, m', Some d')
    /\ data d' = Some (mkptr 3 0)
    /\ width d' = width Sample.yuv_4x4 /\ height d' = height Sample.yuv_4x4
    /\ colorGamut d' = colorGamut Sample.yuv_4x4.
Proof.
  apply (applyGainMap_accepts_integral_scale 4 Z Sample.recovered_pixel0
           (fun c => c) (fun c => c) (fun c => c) (fun c => c)
           (fun c => (c, c, c)) Sample.heap0 Sample.yuv_4x4
           Sample.gainmap_2x2 Sample.hlg_metadata ULTRAHDR_OUTPUT_HDR_LINEAR
           (F32.of_Z 4) Sample.blank_dest (mkptr 3 0) 2);
    try discriminate; try reflexivity.
  - repeat split; reflexivity.
  - simpl. lia.
Defined.

(** ** [toneMap] and [maybeToneMapRawHdr] *)

Lemma toneMap_luma_row_frame s d sy dy y m q :
  blk q <> blk dy ->
  load (toneMap_luma_row s d sy dy y m) q = load m q.
Proof.
  intros Hq. unfold toneMap_luma_row.
  assert (Hloop : forall n,
            load (for_loop n
                    (fun x m0 =>
                       store m0 (padd (padd dy (y * luma_stride d)) x)
                         (p010_to_8bit
                            (load16 m0 sy (y * luma_stride s + x)))) m) q
            = load m q).
  { intros n. apply (for_loop_inv (fun _ m1 => load m1 q = load m q));
      [reflexivity |].
    intros k m1 _ IH. rewrite load_store_other; [exact IH |].
    intros E. apply Hq. now rewrite <- E. }
  destruct (negb _).
  - rewrite load_memset_out by (left; exact Hq). apply Hloop.
  - apply Hloop.
Qed.

Lemma toneMap_chroma_row_frame s d suv du dv y m q :
  blk q <> blk du -> blk dv = blk du ->
  load (toneMap_chroma_row s d suv du dv y m) q = load m q.
Proof.
  intros Hq Hv. unfold toneMap_chroma_row.
  set (body := fun (x : Z) (m0 : mem) => _).
  assert (Hloop : forall n, load (for_loop n body m) q = load m q).
  { intros n. apply (for_loop_inv (fun _ m1 => load m1 q = load m q));
      [reflexivity |].
    intros k m1 _ IH. unfold body.
    rewrite !load_store_other; [exact IH | |];
      intros E; apply Hq; rewrite <- E; cbn [padd blk]; congruence. }
  destruct (negb _).
  - rewrite !load_memset_out; [apply Hloop | |];
      left; cbn [padd blk]; congruence.
  - apply Hloop.
Qed.

(** [toneMap] writes into the blocks of the destination's two data
    pointers only. *)
Lemma toneMap_frame m s d st m' d' q :
  toneMap m s d = Returns (st, m', d') ->
  (forall dd p, d = Some dd ->
                data dd = Some p \/ chroma_data dd = Some p ->
                blk q <> blk p) ->
  load m' q = load m q.
Proof.
  intros H Hq. unfold toneMap in H.
  destruct s as [s |]; [| now injection H as _ <- _].
  destruct d as [d |]; [| now injection H as _ <- _].
  destruct (_ || _); [now injection H as _ <- _ |].
  destruct (data s) as [sy |]; [| discriminate H].
  destruct (data d) as [dy |] eqn:Edy; [| discriminate H].
  destruct (chroma_data s) as [suv |]; [| discriminate H].
  destruct (chroma_data d) as [du |] eqn:Edu; [| discriminate H].
  injection H as _ <- _.
  assert (Hy : blk q <> blk dy) by (apply (Hq d); auto).
  assert (Hu : blk q <> blk du) by (apply (Hq d); auto).
  transitivity
    (load (for_loop (Z.to_nat (height s)) (toneMap_luma_row s d sy dy) m) q).
  - apply (for_loop_inv (fun _ m1 => load m1 q = load _ q)); [reflexivity |].
    intros k m1 _ IH. rewrite toneMap_chroma_row_frame; auto.
  - apply (for_loop_inv (fun _ m1 => load m1 q = load m q)); [reflexivity |].
    intros k m1 _ IH. rewrite toneMap_luma_row_frame; auto.
Qed.

(** [toneMap] reports an error only for a null struct pointer or for
    structs of different sizes. *)
Lemma toneMap_status m s d st m' d' :
  toneMap m (Some s) (Some d) = Returns (st, m', d') ->
  width s = width d -> height s = height d ->
  st = ULTRAHDR_NO_ERROR.
Proof.
  intros H Hw Hh. unfold toneMap in H.
  rewrite Hw, Hh, !Z.eqb_refl in H. cbn [negb orb] in H.
  destruct (data s); [| discriminate H].
  destruct (data d); [| discriminate H].
  destruct (chroma_data s); [| discriminate H].
  destruct (chroma_data d); [| discriminate H].
  now injection H as <- _ _.
Qed.

(** A luma row of [toneMap] without padding writes the [width] cells of
    the row and no other. *)
Lemma toneMap_luma_row_outside s d sy dy y m q :
  width d = luma_stride d ->
  blk q <> blk dy \/ off q < off dy + y * luma_stride d
  \/ off dy + y * luma_stride d + width s <= off q ->
  load (toneMap_luma_row s d sy dy y m) q = load m q.
Proof.
  intros Hpad Hq. unfold toneMap_luma_row.
  rewrite Hpad, Z.eqb_refl. cbn [negb].
  apply (for_loop_inv (fun _ m1 => load m1 q = load m q)); [reflexivity |].
  intros k m1 Hk IH. rewrite load_store_other; [exact IH |].
  intros E. subst q. cbn [padd blk off] in Hq. lia.
Qed.

Lemma toneMap_chroma_row_outside s d suv du dv y m q :
  width d / 2 = chroma_stride d ->
  blk q <> blk du \/ off q < off du + y * chroma_stride d
  \/ off du + y * chroma_stride d + width s / 2 <= off q ->
  blk q <> blk dv \/ off q < off dv + y * chroma_stride d
  \/ off dv + y * chroma_stride d + width s / 2 <= off q ->
  load (toneMap_chroma_row s d suv du dv y m) q = load m q.
Proof.
  intros Hpad Hu Hv. unfold toneMap_chroma_row.
  rewrite Hpad, Z.eqb_refl. cbn [negb].
  apply (for_loop_inv (fun _ m1 => load m1 q = load m q)); [reflexivity |].
  intros k m1 Hk IH.
  rewrite !load_store_other; [exact IH | |];
    intros E; subst q; cbn [padd blk off] in *; lia.
Qed.

(** With a destination that has no padding and keeps its chroma planes
    right behind its luma plane, [toneMap] writes W*H*3/2 bytes from the
    destination's data pointer on and nothing beyond them. *)
Lemma toneMap_inside m s d st m' d' dy q :
  toneMap m (Some s) (Some d) = Returns (st, m', d') ->
  data d = Some dy ->
  chroma_data d = Some (padd dy (width d * height d)) ->
  luma_stride d = width d -> chroma_stride d = width d / 2 ->
  0 <= width d -> 0 <= height d ->
  blk q <> blk dy \/ off q < off dy
  \/ off dy + width d * height d * 3 / 2 <= off q ->
  load m' q = load m q.
Proof.
  intros Hrun Hdy Hdu Hls Hcs HW HH Hq. unfold toneMap in Hrun.
  destruct (Z.eqb_spec (width s) (width d)) as [Ew | _];
    [| now injection Hrun as _ <- _].
  destruct (Z.eqb_spec (height s) (height d)) as [Eh | _];
    [| now injection Hrun as _ <- _].
  cbn [negb orb] in Hrun.
  destruct (data s) as [sy |]; [| discriminate Hrun].
  rewrite Hdy in Hrun.
  destruct (chroma_data s) as [suv |]; [| discriminate Hrun].
  rewrite Hdu in Hrun. injection Hrun as _ <- _.
  set (W := width d) in *. set (H := height d) in *.
  assert (HW2 : 0 <= W / 2) by (apply Z.div_pos; lia).
  assert (HH2 : 0 <= H / 2) by (apply Z.div_pos; lia).
  assert (Hhalf : 2 * (W / 2) <= W) by (apply Z.mul_div_le; lia).
  assert (Hhh : 2 * (H / 2) <= H) by (apply Z.mul_div_le; lia).
  assert (Hv : W / 2 * H / 2 + H / 2 * (W / 2) <= W * H / 2).
  { apply Z.div_le_lower_bound; [lia |].
    assert (2 * (W / 2 * H / 2) <= W / 2 * H)
      by (apply Z.mul_div_le; lia).
    nia. }
  assert (Hsize : W * H + W * H / 2 <= W * H * 3 / 2).
  { apply Z.div_le_lower_bound; [lia |].
    assert (2 * (W * H / 2) <= W * H) by (apply Z.mul_div_le; lia). lia. }
  assert (Hv0 : 0 <= W / 2 * H / 2) by (apply Z.div_pos; nia).
  transitivity
    (load (for_loop (Z.to_nat (height s)) (toneMap_luma_row s d sy dy) m) q).
  - apply (for_loop_inv (fun _ m1 => load m1 q = load _ q)); [reflexivity |].
    intros k m1 Hk IH. rewrite toneMap_chroma_row_outside; [exact IH | | |].
    + now rewrite Hcs.
    + rewrite Hcs, Ew. fold W. cbn [padd blk off].
      destruct Hq as [Hq | [Hq | Hq]]; [now left | right; left; nia |].
      right. right. rewrite Eh in Hk. fold H in Hk. nia.
    + rewrite Hcs, Ew. fold W H. cbn [padd blk off].
      destruct Hq as [Hq | [Hq | Hq]]; [now left | right; left; nia |].
      right. right. rewrite Eh in Hk. fold H in Hk. nia.
  - apply (for_loop_inv (fun _ m1 => load m1 q = load m q)); [reflexivity |].
    intros k m1 Hk IH. rewrite toneMap_luma_row_outside; [exact IH | | ].
    + now rewrite Hls.
    + rewrite Hls, Ew. fold W.
      destruct Hq as [Hq | [Hq | Hq]]; [now left | right; left; nia |].
      right. right. rewrite Eh in Hk. fold H in Hk. nia.
Qed.

(** What [maybeToneMapRawHdr] does when it has an HDR image with
    contiguous rows to work on. *)
Lemma maybeToneMapRawHdr_run
  (w : world) (self : UltraHdr) (hdr : ultrahdr_uncompressed_struct)
  (src : ptr) :
  let W := width hdr in
  let H := height hdr in
  let src_uv :=
    match chroma_data hdr with
    | Some c => c
    | None => padd src (2 * (W * H))
    end in
  let src_cs :=
    match chroma_data hdr with
    | Some _ => chroma_stride hdr
    | None => W
    end in
  let buf := mkptr (next_block w) 0 in
  let u_plane := padd buf (W * H) in
  let v_plane := padd u_plane (W / 2 * H / 2) in
  sdr_raw_img self = None -> hdr_raw_img self = Some hdr ->
  data hdr = Some src ->
  luma_stride hdr = 0 \/ luma_stride hdr = W ->
  0 <= W < 2 ^ 31 -> 0 <= H -> W * H * 3 < 2 ^ 31 ->
  blk src <> next_block w -> blk src_uv <> next_block w ->
  exists m' sdr,
    maybeToneMapRawHdr w self
    = Returns (ULTRAHDR_NO_ERROR, mkworld m' (next_block w + 1),
               set_sdr_raw_img self (Some sdr))
    /\ data sdr = Some buf /\ chroma_data sdr = Some u_plane
    /\ width sdr = W /\ height sdr = H
    /\ colorGamut sdr = colorGamut hdr
    /\ pixelFormat sdr = ULTRAHDR_PIX_FMT_YUV420
    /\ luma_stride sdr = W /\ chroma_stride sdr = W / 2
    /\ (forall x y, 0 <= x < W -> 0 <= y < H ->
          load m' (padd buf (y * W + x))
          = p010_to_8bit (load16 (heap w) src (y * W + x)))
    /\ (forall x y, 0 <= x < W / 2 -> 0 <= y < H / 2 ->
          load m' (padd u_plane (y * (W / 2) + x))
          = p010_to_8bit (load16 (heap w) src_uv (y * src_cs + 2 * x))
          /\ load m' (padd v_plane (y * (W / 2) + x))
             = p010_to_8bit
                 (load16 (heap w) src_uv (y * src_cs + (2 * x + 1))))
    /\ (forall q, blk q <> next_block w \/ off q < 0
                   \/ W * H * 3 / 2 <= off q ->
          load m' q = load (heap w) q).
Proof.
  intros W H src_uv src_cs buf u_plane v_plane Hsdr Hhdr Hdata Hstride HW HH
    Hsize Hsrc Huv.
  assert (Hls : (if luma_stride hdr =? 0 then width hdr else luma_stride hdr)
                = W).
  { destruct Hstride as [-> | ->]; [reflexivity |].
    now destruct (W =? 0). }
  unfold maybeToneMapRawHdr. rewrite Hsdr, Hhdr, Hls. fold H.
  set (p010 := match chroma_data hdr with Some _ => _ | None => _ end).
  assert (Hp : data p010 = Some src /\ chroma_data p010 = Some src_uv
               /\ width p010 = W /\ height p010 = H
               /\ colorGamut p010 = colorGamut hdr
               /\ luma_stride p010 = W /\ chroma_stride p010 = src_cs).
  { unfold p010, src_uv, src_cs.
    destruct (chroma_data hdr); cbn; rewrite ?Hdata; repeat split. }
  destruct Hp as (Hpd & Hpc & Hpw & Hph & Hpg & Hpl & Hps).
  clearbody p010. cbn [new_array]. rewrite Hpw, Hph, Hpg, Hpl.
  fold buf u_plane. cbn [heap next_block].
  set (sdr := {| data := Some buf; width := W;
                 height := H; colorGamut := colorGamut hdr;
                 chroma_data := Some u_plane; luma_stride := W;
                 chroma_stride := Z.shiftr W 1;
                 pixelFormat := ULTRAHDR_PIX_FMT_YUV420 |}).
  assert (Hhalf : Z.shiftr W 1 = W / 2) by apply shiftr_1_half.
  assert (Hls2 : W / 2 <= W / 2 < 2 ^ 64).
  { split; [lia |]. apply Z.div_lt_upper_bound; lia. }
  destruct (toneMap_run p010 sdr src buf src_uv u_plane (heap w))
    as (m' & Hrun & Hluma & Hchroma);
    cbn [sdr data chroma_data width height luma_stride chroma_stride];
    rewrite ?Hhalf; try assumption; try lia; try reflexivity.
  - split; exact Hsrc.
  - split; exact Huv.
  - right. left. cbn [buf u_plane padd off]. lia.
  - rewrite Hrun. exists m'. eexists. split; [reflexivity |].
    cbn [sdr data chroma_data width height luma_stride chroma_stride
         colorGamut pixelFormat] in *.
    rewrite Hhalf in *. rewrite Hpl, Hps in *.
    repeat split; try assumption.
    + intros x y Hx Hy. rewrite Hluma by lia.
      destruct (Z.ltb_spec x W); [reflexivity | lia].
    + rewrite (Hchroma y false x) by lia.
      destruct (Z.ltb_spec x (W / 2)); [| lia].
      do 2 f_equal. lia.
    + unfold v_plane. rewrite (Hchroma y true x) by lia.
      destruct (Z.ltb_spec x (W / 2)); [reflexivity | lia].
    + intros q Hq.
      apply (toneMap_inside (heap w) p010 sdr _ m' _ buf q Hrun);
        cbn [sdr data chroma_data width height luma_stride chroma_stride
             buf blk off];
        try reflexivity; try apply shiftr_1_half; lia.
Qed.

(** X19.  With a raw HDR image whose rows are contiguous and no raw SDR
    image in the assembler, [maybeToneMapRawHdr] fills the SDR slot: a
    YUV 4:2:0 image in a fresh block with the HDR image's width, height
    and gamut, a luma stride equal to the width and the chroma planes
    behind the luma plane; every luma, U and V sample is the HDR sample
    cut to its upper eight bits; the HDR slot, the other slots and every
    cell outside the fresh block stay as they were.  The byte count
    W*H*3/2 fits the [int] it is held in, so that the allocation is a
    valid one, and with rows W apart every write stays inside it. *)
Theorem maybeToneMapRawHdr_fills_the_sdr_slot
  (w : world) (self : UltraHdr) (hdr : ultrahdr_uncompressed_struct)
  (src : ptr) :
  let W := width hdr in
  let H := height hdr in
  let src_uv :=
    match chroma_data hdr with
    | Some c => c
    | None => padd src (2 * (W * H))
    end in
  let src_cs :=
    match chroma_data hdr with
    | Some _ => chroma_stride hdr
    | None => W
    end in
  let buf := mkptr (next_block w) 0 in
  let u_plane := padd buf (W * H) in
  let v_plane := padd u_plane (W / 2 * H / 2) in
  sdr_raw_img self = None -> hdr_raw_img self = Some hdr ->
  data hdr = Some src ->
  luma_stride hdr = 0 \/ luma_stride hdr = W ->
  0 <= W < 2 ^ 31 -> 0 <= H -> W * H * 3 < 2 ^ 31 ->
  blk src <> next_block w -> blk src_uv <> next_block w ->
  exists m' sdr,
    maybeToneMapRawHdr w self
    = Returns (ULTRAHDR_NO_ERROR, mkworld m' (next_block w + 1),
               set_sdr_raw_img self (Some sdr))
    /\ data sdr = Some buf /\ chroma_data sdr = Some u_plane
    /\ width sdr = W /\ height sdr = H
    /\ colorGamut sdr = colorGamut hdr
    /\ pixelFormat sdr = ULTRAHDR_PIX_FMT_YUV420
    /\ luma_stride sdr = W /\ chroma_stride sdr = W / 2
    /\ (forall x y, 0 <= x < W -> 0 <= y < H ->
          load m' (padd buf (y * W + x))
          = p010_to_8bit (load16 (heap w) src (y * W + x)))
    /\ (forall x y, 0 <= x < W / 2 -> 0 <= y < H / 2 ->
          load m' (padd u_plane (y * (W / 2) + x))
          = p010_to_8bit (load16 (heap w) src_uv (y * src_cs + 2 * x))
          /\ load m' (padd v_plane (y * (W / 2) + x))
             = p010_to_8bit
                 (load16 (heap w) src_uv (y * src_cs + (2 * x + 1))))
    /\ (forall q, blk q <> next_block w \/ off q < 0
                   \/ W * H * 3 / 2 <= off q ->
          load m' q = load (heap w) q).
Proof. exact (maybeToneMapRawHdr_run w self hdr src). Qed.

Lemma maybeToneMapRawHdr_fills_the_sdr_slot_witness :
  exists m' sdr,
    maybeToneMapRawHdr Sample.world0 Sample2.hdr_only_assembler
    = Returns (ULTRAHDR_NO_ERROR, mkworld m' 11,
               set_sdr_raw_img Sample2.hdr_only_assembler (Some sdr))
    /\ width sdr = 4 /\ height sdr = 4
    /\ pixelFormat sdr = ULTRAHDR_PIX_FMT_YUV420
    /\ load m' (mkptr 10 5)
       = p010_to_8bit (load16 Sample.heap0 (mkptr 2 0) 5)
    /\ load m' (mkptr 2 0) = load Sample.heap0 (mkptr 2 0)
    /\ load m' (mkptr 10 24) = load Sample.heap0 (mkptr 10 24).
Proof.
  destruct (maybeToneMapRawHdr_fills_the_sdr_slot Sample.world0
              Sample2.hdr_only_assembler Sample.p010_4x4 (mkptr 2 0))
    as (m' & sdr & Hrun & _ & _ & Hw & Hh & _ & Hf & _ & _ & Hluma & _
        & Hframe);
    try reflexivity; try discriminate; try (cbn; lia).
  exists m', sdr. split; [exact Hrun |].
  split; [exact Hw |]. split; [exact Hh |]. split; [exact Hf |].
  split.
  - apply (Hluma 1 1); cbn; lia.
  - split; apply Hframe; [left; discriminate | right; right; cbn; lia].
Defined.

Lemma toneMap_keeps_dest m s d st m' d' :
  toneMap m s (Some d) = Returns (st, m', d') -> d' <> None.
Proof.
  intros H. unfold toneMap in H.
  destruct s as [s |]; [| injection H as _ _ <-; discriminate].
  destruct (_ || _); [injection H as _ _ <-; discriminate |].
  destruct (data s); [| discriminate H].
  destruct (data d); [| discriminate H].
  destruct (chroma_data s); [| discriminate H].
  destruct (chroma_data d); [| discriminate H].
  injection H as _ _ <-. discriminate.
Qed.

(** X20.  [maybeToneMapRawHdr] never reports an error and never touches a
    slot other than the SDR one; it changes nothing at all when the SDR
    slot is filled or the HDR slot is empty; after it has returned, the
    SDR slot is filled whenever the HDR slot is, so a second call is a
    no-op. *)
Theorem maybeToneMapRawHdr_only_fills_an_empty_sdr_slot
  (w w' : world) (self self' : UltraHdr) (st : status_t) :
  maybeToneMapRawHdr w self = Returns (st, w', self') ->
  st = ULTRAHDR_NO_ERROR
  /\ self' = set_sdr_raw_img self (sdr_raw_img self')
  /\ (sdr_raw_img self <> None \/ hdr_raw_img self = None ->
      w' = w /\ self' = self)
  /\ (hdr_raw_img self <> None -> sdr_raw_img self' <> None)
  /\ maybeToneMapRawHdr w' self' = Returns (ULTRAHDR_NO_ERROR, w', self').
Proof.
  intros H. unfold maybeToneMapRawHdr in H.
  destruct self as [jpeg heif hdr sdr gm md ex].
  cbn [sdr_raw_img hdr_raw_img] in *.
  destruct sdr as [sdr |].
  - injection H as <- <- <-. repeat split; try reflexivity.
    discriminate.
  - destruct hdr as [hdr |].
    + cbn [new_array] in H.
      match type of H with
      | match toneMap ?m ?s ?d with _ => _ end = _ =>
          destruct (toneMap m s d) as [[[st0 m0] d0] | |] eqn:Htm;
            [| discriminate H | discriminate H]
      end.
      injection H as <- <- <-.
      assert (Hst : st0 = ULTRAHDR_NO_ERROR).
      { apply (toneMap_status _ _ _ _ _ _ Htm);
          destruct (chroma_data hdr); reflexivity. }
      pose proof (toneMap_keeps_dest _ _ _ _ _ _ Htm) as Hd0.
      destruct d0 as [d0 |]; [| congruence].
      split; [exact Hst |]. split; [reflexivity |].
      split; [intros [Hc | Hc]; [now elim Hc | discriminate Hc] |].
      split; [discriminate | reflexivity].
    + injection H as <- <- <-. repeat split; try reflexivity.
      intros Hc. now elim Hc.
Qed.

Lemma maybeToneMapRawHdr_only_fills_an_empty_sdr_slot_witness :
  exists st w' self',
    maybeToneMapRawHdr Sample.world0 Sample2.hdr_only_assembler
    = Returns (st, w', self')
    /\ st = ULTRAHDR_NO_ERROR
    /\ sdr_raw_img self' <> None
    /\ hdr_raw_img self' = Some Sample.p010_4x4
    /\ maybeToneMapRawHdr w' self' = Returns (ULTRAHDR_NO_ERROR, w', self').
Proof.
  assert (H : exists r,
            maybeToneMapRawHdr Sample.world0 Sample2.hdr_only_assembler
            = Returns r) by (eexists; reflexivity).
  destruct H as [[[st w'] self'] H].
  exists st, w', self'. split; [exact H |].
  destruct (maybeToneMapRawHdr_only_fills_an_empty_sdr_slot _ _ _ _ _ H)
    as (Hst & Hself & _ & Hfill & Hagain).
  split; [exact Hst |]. split; [apply Hfill; discriminate |].
  split; [rewrite Hself; reflexivity | exact Hagain].
Defined.

Lemma load16_padd m p k i :
  load16 m (padd p (2 * k)) i = load16 m p (k + i).
Proof.
  unfold load16. rewrite !padd_padd.
  replace (2 * k + 2 * i) with (2 * (k + i)) by lia.
  replace (2 * k + (2 * i + 1)) with (2 * (k + i) + 1) by lia.
  reflexivity.
Qed.

Lemma load16_memcpy m dst src n i :
  0 <= i -> 2 * i + 1 < n ->
  load16 (memcpy m dst src n) dst i = load16 m src i.
Proof.
  intros Hi Hn. unfold load16.
  rewrite !load_memcpy_in by lia. reflexivity.
Qed.

(** X21.  Adding a raw P010 image whose rows are contiguous to an
    assembler without raw images and then calling [maybeToneMapRawHdr]
    leaves a raw SDR image of the same size and gamut whose luma, U and V
    samples are the upper eight bits of the caller's 16-bit samples; the
    chroma samples are those that follow the luma plane in the caller's
    buffer, whatever the caller's chroma pointer says. *)
Theorem added_hdr_image_is_tone_mapped
  (w : world) (self : UltraHdr) (img : ultrahdr_uncompressed_struct)
  (src : ptr) :
  let W := width img in
  let H := height img in
  hdr_raw_img self = None -> sdr_raw_img self = None ->
  pixelFormat img = ULTRAHDR_PIX_FMT_P010 -> data img = Some src ->
  luma_stride img = 0 \/ luma_stride img = W ->
  0 <= W < 2 ^ 31 -> 0 <= H -> W * H * 3 < 2 ^ 31 ->
  blk src < next_block w ->
  exists w1 self1 w2 self2 sdr buf,
    addImage_uncompressed w self (Some img)
    = Returns (ULTRAHDR_NO_ERROR, w1, self1)
    /\ maybeToneMapRawHdr w1 self1 = Returns (ULTRAHDR_NO_ERROR, w2, self2)
    /\ sdr_raw_img self2 = Some sdr /\ data sdr = Some buf
    /\ width sdr = W /\ height sdr = H
    /\ colorGamut sdr = colorGamut img /\ luma_stride sdr = W
    /\ (forall x y, 0 <= x < W -> 0 <= y < H ->
          load (heap w2) (padd buf (y * W + x))
          = p010_to_8bit (load16 (heap w) src (y * W + x)))
    /\ (forall x y, 0 <= x < W / 2 -> 0 <= y < H / 2 ->
          load (heap w2) (padd buf (W * H + (y * (W / 2) + x)))
          = p010_to_8bit (load16 (heap w) src (W * H + (y * W + 2 * x)))
          /\ load (heap w2)
               (padd buf (W * H + (W / 2 * H / 2 + (y * (W / 2) + x))))
             = p010_to_8bit
                 (load16 (heap w) src (W * H + (y * W + (2 * x + 1))))).
Proof.
  intros W H Hhdr Hsdr Hfmt Hdata Hstride HW HH Hsize Hblk.
  unfold addImage_uncompressed. rewrite Hfmt, Hhdr, Hdata.
  cbn [new_array heap next_block]. fold W H.
  assert (Hls : (if luma_stride img =? 0 then W else luma_stride img) = W).
  { destruct Hstride as [-> | ->]; [reflexivity |].
    now destruct (W =? 0). }
  rewrite Hls.
  assert (HWH : 0 <= W * H) by nia.
  rewrite (to_size_t_small (W * H * 3)) by lia.
  rewrite to_int_small, to_size_t_small by lia.
  set (buf0 := mkptr (next_block w) 0).
  set (m1 := memcpy _ buf0 src (W * H * 3)).
  set (slot := {| data := Some buf0; width := W; height := H;
                  colorGamut := colorGamut img;
                  chroma_data := Some (padd buf0 (2 * (W * H)));
                  luma_stride := W; chroma_stride := W;
                  pixelFormat := ULTRAHDR_PIX_FMT_P010 |}).
  set (self1 := mkUltraHdr _ _ (Some slot) _ _ _ _).
  set (w1 := mkworld m1 (next_block w + 1)).
  destruct (maybeToneMapRawHdr_run w1 self1 slot buf0)
    as (m2 & sdr & Hrun & Hd & _ & Hw & Hh & Hg & _ & Hl & _ & Hluma
        & Hchroma & _);
    try reflexivity; cbn [slot width height luma_stride chroma_data w1
                          next_block buf0 blk padd];
    try assumption; try lia.
  cbn [slot width height luma_stride chroma_data chroma_stride colorGamut
       w1 heap next_block] in *.
  exists w1, self1, (mkworld m2 (next_block w + 1 + 1)),
    (set_sdr_raw_img self1 (Some sdr)), sdr, (mkptr (next_block w + 1) 0).
  split; [reflexivity |]. split; [exact Hrun |].
  split; [reflexivity |]. split; [exact Hd |].
  split; [exact Hw |]. split; [exact Hh |]. split; [exact Hg |].
  split; [exact Hl |].
  assert (HW2 : 0 <= W / 2) by (apply Z.div_pos; lia).
  assert (HH2 : 0 <= H / 2) by (apply Z.div_pos; lia).
  assert (Hhalf : W * (H / 2) <= W * H / 2) by (apply half_plane_bound; lia).
  assert (Hh2 : 2 * (W * H / 2) <= W * H)
    by (apply Z.mul_div_le; lia).
  assert (Hw2 : 2 * (W / 2) <= W) by (apply Z.mul_div_le; lia).
  split.
  - intros x y Hx Hy. rewrite Hluma by assumption.
    unfold m1. rewrite load16_memcpy by nia. reflexivity.
  - intros x y Hx Hy. destruct (Hchroma x y Hx Hy) as [Hu Hv].
    repeat rewrite padd_padd in Hu. repeat rewrite padd_padd in Hv.
    cbn [heap].
    split.
    + rewrite Hu. rewrite load16_padd. unfold m1.
      rewrite load16_memcpy by nia. reflexivity.
    + rewrite Hv. rewrite load16_padd. unfold m1.
      rewrite load16_memcpy by nia. reflexivity.
Qed.

Lemma added_hdr_image_is_tone_mapped_witness :
  exists w1 self1 w2 self2 sdr buf,
    addImage_uncompressed Sample.world0 Sample.empty_assembler
      (Some Sample.p010_4x4)
    = Returns (ULTRAHDR_NO_ERROR, w1, self1)
    /\ maybeToneMapRawHdr w1 self1 = Returns (ULTRAHDR_NO_ERROR, w2, self2)
    /\ sdr_raw_img self2 = Some sdr /\ data sdr = Some buf
    /\ width sdr = 4 /\ height sdr = 4
    /\ load (heap w2) (padd buf (1 * 4 + 2))
       = p010_to_8bit (load16 Sample.heap0 (mkptr 2 0) (1 * 4 + 2)).
Proof.
  destruct (added_hdr_image_is_tone_mapped Sample.world0
              Sample.empty_assembler Sample.p010_4x4 (mkptr 2 0))
    as (w1 & self1 & w2 & self2 & sdr & buf & Hadd & Hrun & Hslot & Hd
        & Hw & Hh & _ & _ & Hluma & _);
    try reflexivity; try (cbn; lia).
  exists w1, self1, w2, self2, sdr, buf.
  split; [exact Hadd |]. split; [exact Hrun |]. split; [exact Hslot |].
  split; [exact Hd |]. split; [exact Hw |]. split; [exact Hh |].
  apply (Hluma 2 1); cbn; lia.
Defined.

(** ** More on [addImage] *)

Lemma fill_sdr_jpeg_img_slots self src image :
  sdr_heif_img (fill_sdr_jpeg_img self src image) = sdr_heif_img self
  /\ hdr_raw_img (fill_sdr_jpeg_img self src image) = hdr_raw_img self
  /\ sdr_raw_img (fill_sdr_jpeg_img self src image) = sdr_raw_img self
  /\ gain_map_raw_img (fill_sdr_jpeg_img self src image)
     = gain_map_raw_img self
  /\ gain_map_metadata (fill_sdr_jpeg_img self src image)
     = gain_map_metadata self
  /\ exif (fill_sdr_jpeg_img self src image) = exif self
  /\ (forall x, sdr_jpeg_img self = Some x ->
                sdr_jpeg_img (fill_sdr_jpeg_img self src image) = Some x)
  /\ sdr_jpeg_img (fill_sdr_jpeg_img self src image) <> None.
Proof.
  unfold fill_sdr_jpeg_img.
  destruct (sdr_jpeg_img self) eqn:E; cbn; rewrite ?E;
    repeat split; try congruence; discriminate.
Qed.

(** Case analysis along the tests of [addImage]'s JPEG branch. *)
Ltac walk_addImage H :=
  repeat (cbn [sdr_jpeg_img sdr_heif_img hdr_raw_img sdr_raw_img
               gain_map_raw_img gain_map_metadata exif
               set_gain_map_raw_img set_gain_map_metadata new_array negb]
            in H;
          match type of H with
          | context [match ?x with _ => _ end] =>
              lazymatch x with
              | context [match _ with _ => _ end] => fail
              | _ => destruct x eqn:?
              end
          end).

Section AddImageFacts.

Variable jpeg_scan : list Z -> option (list (Z * Z)).
Variable decompressImage :
  world -> option (list Z) -> Z -> option (decompressed_image * world).
Variable getMetadataFromXMP :
  list Z -> ultrahdr_metadata_struct -> bool * ultrahdr_metadata_struct.
Variable addImage_heif :
  world -> UltraHdr -> ultrahdr_compressed_struct ->
  status_t * world * UltraHdr.
Variable stack_junk : ultrahdr_compressed_struct.

Let addImage :=
  addImage_compressed jpeg_scan decompressImage getMetadataFromXMP
    addImage_heif stack_junk.

(** What every return of the JPEG branch has in common. *)
Let kept (self self' : UltraHdr) : Prop :=
  sdr_heif_img self' = sdr_heif_img self
  /\ hdr_raw_img self' = hdr_raw_img self
  /\ sdr_raw_img self' = sdr_raw_img self
  /\ exif self' = exif self
  /\ (forall x, sdr_jpeg_img self = Some x -> sdr_jpeg_img self' = Some x)
  /\ (forall x, gain_map_raw_img self = Some x ->
                gain_map_raw_img self' = Some x)
  /\ (forall x, gain_map_metadata self = Some x ->
                gain_map_metadata self' = Some x).

Lemma addImage_jpeg_branch w self image st w' self' :
  isJpeg (cdata image) (length image) = true ->
  addImage w self (Some image) = Returns (st, w', self') ->
  (st = ULTRAHDR_NO_ERROR \/ st = ERROR_ULTRAHDR_DECODE_ERROR
   \/ st = ERROR_ULTRAHDR_METADATA_ERROR)
  /\ kept self self'
  /\ sdr_jpeg_img self' <> None.
Proof.
  intros Hjpeg H. unfold addImage, addImage_compressed in H.
  rewrite Hjpeg in H.
  destruct (extractPrimaryImageAndGainMap jpeg_scan _ stack_junk stack_junk)
    as [[err primary] gainmap].
  assert (Hplain : forall src,
            Returns (ULTRAHDR_NO_ERROR, w, fill_sdr_jpeg_img self src image)
            = Returns (st, w', self') ->
            (st = ULTRAHDR_NO_ERROR \/ st = ERROR_ULTRAHDR_DECODE_ERROR
             \/ st = ERROR_ULTRAHDR_METADATA_ERROR)
            /\ kept self self' /\ sdr_jpeg_img self' <> None).
  { intros src E. injection E as <- <- <-.
    destruct (fill_sdr_jpeg_img_slots self src image)
      as (H1 & H2 & H3 & H4 & H5 & H6 & H7 & H8).
    split; [now left |]. split; [| exact H8].
    unfold kept. repeat split; try assumption; intros x Hx; congruence. }
  destruct err; try (now apply (Hplain image)).
  destruct (fill_sdr_jpeg_img_slots self primary image)
    as (H1 & H2 & H3 & H4 & H5 & H6 & H7 & H8).
  set (self1 := fill_sdr_jpeg_img self primary image) in *.
  clearbody self1.
  assert (Hkept : kept self self1).
  { unfold kept. repeat split; try assumption; intros x Hx; congruence. }
  clear H1 H2 H3 H4 H5 H6 H7 Hplain.
  destruct self1 as [jpeg heif hdr sdr gm md ex].
  unfold kept in *.
  cbn [sdr_jpeg_img sdr_heif_img hdr_raw_img sdr_raw_img gain_map_raw_img
       gain_map_metadata exif] in *.
  destruct Hkept as (K1 & K2 & K3 & K4 & K5 & K6 & K7).
  walk_addImage H;
    injection H as <- <- <-;
    cbn [sdr_jpeg_img sdr_heif_img hdr_raw_img sdr_raw_img
         gain_map_raw_img gain_map_metadata exif
         set_gain_map_raw_img set_gain_map_metadata];
    (split; [tauto |]); (split; [| exact H8]);
    repeat split; try assumption;
    intros x Hx;
    try (now apply K6); try (now apply K7);
    try (specialize (K6 x Hx); congruence);
    try (specialize (K7 x Hx); congruence).
Qed.

Lemma addImage_jpeg_stored w self image bytes st w' self' :
  isJpeg (cdata image) (length image) = true ->
  cdata image = Some bytes -> sdr_jpeg_img self = None ->
  addImage w self (Some image) = Returns (st, w', self') ->
  exists stored,
    sdr_jpeg_img self' = Some stored
    /\ ccolorGamut stored = ccolorGamut image /\ maxLength stored = 0
    /\ match jpeg_scan (firstn (Z.to_nat (length image)) bytes) with
       | Some ((begin_, len) :: _ :: _) =>
           length stored = len
           /\ cdata stored
              = Some (firstn (Z.to_nat len) (skipn (Z.to_nat begin_) bytes))
       | _ =>
           st = ULTRAHDR_NO_ERROR /\ w' = w
           /\ length stored = length image
           /\ cdata stored = Some (firstn (Z.to_nat (length image)) bytes)
           /\ gain_map_raw_img self' = gain_map_raw_img self
           /\ gain_map_metadata self' = gain_map_metadata self
       end.
Proof.
  intros Hjpeg Hbytes Hempty H. unfold addImage, addImage_compressed in H.
  rewrite Hjpeg in H. unfold extractPrimaryImageAndGainMap in H.
  rewrite Hbytes in H.
  assert (Hplain :
    Returns (ULTRAHDR_NO_ERROR, w, fill_sdr_jpeg_img self image image)
    = Returns (st, w', self') ->
    exists stored,
      sdr_jpeg_img self' = Some stored
      /\ ccolorGamut stored = ccolorGamut image /\ maxLength stored = 0
      /\ st = ULTRAHDR_NO_ERROR /\ w' = w
      /\ length stored = length image
      /\ cdata stored = Some (firstn (Z.to_nat (length image)) bytes)
      /\ gain_map_raw_img self' = gain_map_raw_img self
      /\ gain_map_metadata self' = gain_map_metadata self).
  { intros E. injection E as <- <- <-.
    unfold fill_sdr_jpeg_img. rewrite Hempty, Hbytes.
    eexists. cbn. repeat split. }
  destruct (jpeg_scan (firstn (Z.to_nat (length image)) bytes))
    as [[| [b0 l0] [| [b1 l1] rest]] |];
    try (destruct (Hplain H) as (stored & Hs & Hg & Hm & Hrest);
         exists stored; repeat split; tauto).
  clear Hplain.
  unfold fill_sdr_jpeg_img in H. rewrite Hempty in H.
  cbn [cdata length ccolorGamut copy_bytes set_sdr_jpeg_img] in H.
  walk_addImage H; injection H as <- <- <-;
    eexists;
    cbn [sdr_jpeg_img set_gain_map_raw_img set_gain_map_metadata
         ccolorGamut maxLength length cdata];
    repeat split.
Qed.

End AddImageFacts.

(** X22.  On the JPEG branch [addImage] reports NO_ERROR, DECODE_ERROR or
    METADATA_ERROR and nothing else; whatever it reports, the
    [sdr_jpeg_img] slot is filled afterwards, a slot that was filled
    keeps its content, and the HEIF, raw HDR, raw SDR and EXIF slots are
    not touched. *)
Theorem addImage_jpeg_only_fills_empty_slots
  (jpeg_scan : list Z -> option (list (Z * Z)))
  (decompressImage :
     world -> option (list Z) -> Z -> option (decompressed_image * world))
  (getMetadataFromXMP :
     list Z -> ultrahdr_metadata_struct -> bool * ultrahdr_metadata_struct)
  (addImage_heif :
     world -> UltraHdr -> ultrahdr_compressed_struct ->
     status_t * world * UltraHdr)
  (stack_junk : ultrahdr_compressed_struct)
  (w w' : world) (self self' : UltraHdr)
  (image : ultrahdr_compressed_struct) (st : status_t) :
  isJpeg (cdata image) (length image) = true ->
  addImage_compressed jpeg_scan decompressImage getMetadataFromXMP
    addImage_heif stack_junk w self (Some image)
  = Returns (st, w', self') ->
  (st = ULTRAHDR_NO_ERROR \/ st = ERROR_ULTRAHDR_DECODE_ERROR
   \/ st = ERROR_ULTRAHDR_METADATA_ERROR)
  /\ sdr_jpeg_img self' <> None
  /\ sdr_heif_img self' = sdr_heif_img self
  /\ hdr_raw_img self' = hdr_raw_img self
  /\ sdr_raw_img self' = sdr_raw_img self
  /\ exif self' = exif self
  /\ (forall x, sdr_jpeg_img self = Some x -> sdr_jpeg_img self' = Some x)
  /\ (forall x, gain_map_raw_img self = Some x ->
                gain_map_raw_img self' = Some x)
  /\ (forall x, gain_map_metadata self = Some x ->
                gain_map_metadata self' = Some x).
Proof.
  intros Hjpeg H.
  destruct (addImage_jpeg_branch _ _ _ _ _ _ _ _ _ _ _ Hjpeg H)
    as (Hst & Hkept & Hfilled).
  split; [exact Hst |]. split; [exact Hfilled |]. exact Hkept.
Qed.

Lemma addImage_jpeg_only_fills_empty_slots_witness :
  (* two images found, the gain map does not decode *)
  let scan := fun _ : list Z => Some [(0, 4); (4, 4)] in
  let image :=
    mkcompressed (Some [255; 216; 255; 217; 255; 216; 255; 217]) 8 8
      ULTRAHDR_COLORGAMUT_BT709 in
  exists st w' self',
    addImage_compressed scan (fun _ _ _ => None)
      (fun _ md => (true, md)) (fun w self _ => (ULTRAHDR_NO_ERROR, w, self))
      image Sample.world0 Sample.raw_filled_assembler (Some image)
    = Returns (st, w', self')
    /\ st = ERROR_ULTRAHDR_DECODE_ERROR
    /\ sdr_jpeg_img self' <> None
    /\ hdr_raw_img self' = Some Sample.p010_4x4.
Proof.
  intros scan image.
  assert (H : exists r,
            addImage_compressed scan (fun _ _ _ => None)
              (fun _ md => (true, md))
              (fun w self _ => (ULTRAHDR_NO_ERROR, w, self))
              image Sample.world0 Sample.raw_filled_assembler (Some image)
            = Returns r) by (eexists; reflexivity).
  destruct H as [[[st w'] self'] H].
  exists st, w', self'. split; [exact H |].
  destruct (addImage_jpeg_only_fills_empty_slots scan _ _ _ image
              Sample.world0 w' Sample.raw_filled_assembler self' image st
              eq_refl H) as (_ & Hfilled & _ & Hhdr & _).
  split; [| split; [exact Hfilled | exact Hhdr]].
  injection H as <- _ _. reflexivity.
Defined.

(** X23.  What the JPEG branch of [addImage] stores in an empty
    [sdr_jpeg_img] slot: when the scanner finds two images or more, the
    bytes of the first range it reports, and only those; in every other
    case (one image, none, or a scanner error) the first [length] bytes
    of the input as they are, with NO_ERROR and without touching the heap
    or the gain-map slots.  The stored struct takes the input's gamut and
    maxLength 0. *)
Theorem addImage_jpeg_stores_primary_image
  (jpeg_scan : list Z -> option (list (Z * Z)))
  (decompressImage :
     world -> option (list Z) -> Z -> option (decompressed_image * world))
  (getMetadataFromXMP :
     list Z -> ultrahdr_metadata_struct -> bool * ultrahdr_metadata_struct)
  (addImage_heif :
     world -> UltraHdr -> ultrahdr_compressed_struct ->
     status_t * world * UltraHdr)
  (stack_junk : ultrahdr_compressed_struct)
  (w w' : world) (self self' : UltraHdr)
  (image : ultrahdr_compressed_struct) (bytes : list Z) (st : status_t) :
  isJpeg (cdata image) (length image) = true ->
  cdata image = Some bytes -> sdr_jpeg_img self = None ->
  addImage_compressed jpeg_scan decompressImage getMetadataFromXMP
    addImage_heif stack_junk w self (Some image)
  = Returns (st, w', self') ->
  exists stored,
    sdr_jpeg_img self' = Some stored
    /\ ccolorGamut stored = ccolorGamut image /\ maxLength stored = 0
    /\ match jpeg_scan (firstn (Z.to_nat (length image)) bytes) with
       | Some ((begin_, len) :: _ :: _) =>
           length stored = len
           /\ cdata stored
              = Some (firstn (Z.to_nat len) (skipn (Z.to_nat begin_) bytes))
       | _ =>
           st = ULTRAHDR_NO_ERROR /\ w' = w
           /\ length stored = length image
           /\ cdata stored = Some (firstn (Z.to_nat (length image)) bytes)
           /\ gain_map_raw_img self' = gain_map_raw_img self
           /\ gain_map_metadata self' = gain_map_metadata self
       end.
Proof.
  intros Hjpeg Hbytes Hempty H.
  exact (addImage_jpeg_stored _ _ _ _ _ _ _ _ _ _ _ _ Hjpeg Hbytes Hempty H).
Qed.

Lemma addImage_jpeg_stores_primary_image_witness :
  let scan := fun _ : list Z => Some [(0, 4); (4, 5)] in
  let bytes := [255; 216; 255; 217; 255; 216; 0; 255; 217] in
  let image := mkcompressed (Some bytes) 9 9 ULTRAHDR_COLORGAMUT_P3 in
  exists st w' self' stored,
    addImage_compressed scan (fun _ _ _ => None)
      (fun _ md => (true, md)) (fun w self _ => (ULTRAHDR_NO_ERROR, w, self))
      image Sample.world0 Sample.empty_assembler (Some image)
    = Returns (st, w', self')
    /\ sdr_jpeg_img self' = Some stored
    /\ ccolorGamut stored = ULTRAHDR_COLORGAMUT_P3
    /\ length stored = 4
    /\ cdata stored = Some [255; 216; 255; 217].
Proof.
  intros scan bytes image.
  assert (H : exists r,
            addImage_compressed scan (fun _ _ _ => None)
              (fun _ md => (true, md))
              (fun w self _ => (ULTRAHDR_NO_ERROR, w, self))
              image Sample.world0 Sample.empty_assembler (Some image)
            = Returns r) by (eexists; reflexivity).
  destruct H as [[[st w'] self'] H].
  destruct (addImage_jpeg_stores_primary_image scan _ _ _ image
              Sample.world0 w' Sample.empty_assembler self' image bytes st
              eq_refl eq_refl eq_refl H)
    as (stored & Hs & Hg & _ & Hlen & Hdata).
  exists st, w', self', stored. repeat split; assumption.
Defined.

(** X24.  [addImage] refuses what is neither JPEG nor HEIF: a null data
    pointer, fewer than 3 bytes, or fewer than 12 bytes that [isJpeg]
    does not accept, get UNSUPPORTED_FEATURE, and the assembler and the
    heap stay as they were, whatever scanner and decoders would say. *)
Theorem addImage_refuses_short_input
  (jpeg_scan : list Z -> option (list (Z * Z)))
  (decompressImage :
     world -> option (list Z) -> Z -> option (decompressed_image * world))
  (getMetadataFromXMP :
     list Z -> ultrahdr_metadata_struct -> bool * ultrahdr_metadata_struct)
  (addImage_heif :
     world -> UltraHdr -> ultrahdr_compressed_struct ->
     status_t * world * UltraHdr)
  (stack_junk : ultrahdr_compressed_struct)
  (w : world) (self : UltraHdr) (image : ultrahdr_compressed_struct) :
  cdata image = None \/ length image < 3
  \/ (length image < 12 /\ isJpeg (cdata image) (length image) = false) ->
  addImage_compressed jpeg_scan decompressImage getMetadataFromXMP
    addImage_heif stack_junk w self (Some image)
  = Returns (ERROR_ULTRAHDR_UNSUPPORTED_FEATURE, w, self).
Proof.
  intros H. unfold addImage_compressed, isHeif, isHeic, isAvif.
  destruct (cdata image) as [d |] eqn:Ed; [| reflexivity].
  assert (Hj : isJpeg (Some d) (length image) = false).
  { destruct H as [H | [H | [_ H]]]; [discriminate H | | exact H].
    unfold isJpeg. destruct (Z.ltb_spec (length image) 3); [reflexivity | lia]. }
  rewrite Hj.
  destruct (Z.ltb_spec (length image) 12) as [_ | Hge]; [reflexivity |].
  exfalso. destruct H as [H | [H | [H _]]]; [discriminate H | lia | lia].
Qed.

Lemma addImage_refuses_short_input_witness :
  let image := mkcompressed (Some [255; 216]) 2 2 ULTRAHDR_COLORGAMUT_BT709 in
  addImage_compressed (fun _ => None) (fun _ _ _ => None)
    (fun _ md => (true, md)) (fun w self _ => (ULTRAHDR_NO_ERROR, w, self))
    image Sample.world0 Sample.empty_assembler (Some image)
  = Returns (ERROR_ULTRAHDR_UNSUPPORTED_FEATURE, Sample.world0,
             Sample.empty_assembler).
Proof.
  intros image.
  apply (addImage_refuses_short_input (fun _ => None) (fun _ _ _ => None)
           (fun _ md => (true, md))
           (fun w self _ => (ULTRAHDR_NO_ERROR, w, self))
           image Sample.world0 Sample.empty_assembler image).
  right. left. cbn. lia.
Defined.

(** X25.  What [addImage] on an uncompressed image reads and writes: the
    caller's chroma pointer and chroma stride play no part in the result;
    cells outside the block it allocates keep their content; it allocates
    one block at most; and it reports NO_ERROR, or UNSUPPORTED_FEATURE
    with the assembler and the heap as they were. *)
Theorem addImage_uncompressed_footprint
  (w w' : world) (self self' : UltraHdr)
  (img : ultrahdr_uncompressed_struct) (st : status_t) :
  addImage_uncompressed w self (Some img) = Returns (st, w', self') ->
  (forall c cs,
     addImage_uncompressed w self
       (Some {| data := data img; width := width img; height := height img;
                colorGamut := colorGamut img;
                chroma_data := c;
                luma_stride := luma_stride img; chroma_stride := cs;
                pixelFormat := pixelFormat img |})
     = Returns (st, w', self'))
  /\ (forall q, blk q <> next_block w -> load (heap w') q = load (heap w) q)
  /\ (next_block w' = next_block w \/ next_block w' = next_block w + 1)
  /\ (st = ULTRAHDR_NO_ERROR
      \/ (st = ERROR_ULTRAHDR_UNSUPPORTED_FEATURE /\ w' = w /\ self' = self)).
Proof.
  intros H. split.
  - intros c cs. rewrite <- H. unfold addImage_uncompressed.
    cbn [data width height colorGamut luma_stride pixelFormat].
    reflexivity.
  - unfold addImage_uncompressed in H.
    destruct (pixelFormat img);
      try (injection H as <- <- <-;
           split; [reflexivity |]; split; [now left |]; right;
           repeat split; reflexivity).
    + destruct (hdr_raw_img self).
      * injection H as <- <- <-.
        split; [reflexivity |]. split; now left.
      * cbn [new_array] in H. destruct (data img); [| discriminate H].
        injection H as <- <- <-. cbn [heap next_block].
        split; [| split; [now right | now left]].
        intros q Hq. apply load_memcpy_out. left. exact Hq.
    + destruct (sdr_raw_img self).
      * injection H as <- <- <-.
        split; [reflexivity |]. split; now left.
      * cbn [new_array] in H. destruct (data img); [| discriminate H].
        injection H as <- <- <-. cbn [heap next_block].
        split; [| split; [now right | now left]].
        intros q Hq. apply load_memcpy_out. left. exact Hq.
Qed.

Lemma addImage_uncompressed_footprint_witness :
  exists st w' self',
    addImage_uncompressed Sample.world0 Sample.empty_assembler
      (Some Sample.yuv_4x4)
    = Returns (st, w', self')
    /\ addImage_uncompressed Sample.world0 Sample.empty_assembler
         (Some Sample.yuv_4x4_chroma_null)
       = Returns (st, w', self')
    /\ load (heap w') (mkptr 1 3) = load Sample.heap0 (mkptr 1 3)
    /\ st = ULTRAHDR_NO_ERROR.
Proof.
  assert (H : exists r,
            addImage_uncompressed Sample.world0 Sample.empty_assembler
              (Some Sample.yuv_4x4)
            = Returns r) by (eexists; reflexivity).
  destruct H as [[[st w'] self'] H].
  exists st, w', self'. split; [exact H |].
  destruct (addImage_uncompressed_footprint _ _ _ _ _ _ H)
    as (Hsame & Hframe & _ & _).
  split; [exact (Hsame None 0) |].
  split; [apply Hframe; discriminate |].
  injection H as <- _ _. reflexivity.
Defined.

(** ** [isHeif] *)

Lemma four_letter_brand a b c d x1 x2 x3 x4 :
  x1 <> 0 -> x2 <> 0 -> x3 <> 0 -> x4 <> 0 ->
  c_string [a; b; c; d; 0] = [x1; x2; x3; x4]
  <-> [a; b; c; d] = [x1; x2; x3; x4].
Proof.
  intros H1 H2 H3 H4. cbn [c_string].
  destruct (Z.eqb_spec a 0) as [-> | Ha];
    [split; intros E; [discriminate E | congruence] |].
  destruct (Z.eqb_spec b 0) as [-> | Hb];
    [split; intros E; [discriminate E | congruence] |].
  destruct (Z.eqb_spec c 0) as [-> | Hc];
    [split; intros E; [discriminate E | congruence] |].
  destruct (Z.eqb_spec d 0) as [-> | Hd];
    [split; intros E; [discriminate E | congruence] |].
  rewrite Z.eqb_refl. reflexivity.
Qed.

Lemma strcmp_eq_true brand s :
  strcmp_eq brand s = true <-> c_string brand = ascii_codes s.
Proof.
  unfold strcmp_eq.
  destruct (list_eq_dec Z.eq_dec (c_string brand) (ascii_codes s));
    split; congruence.
Qed.

Lemma brand_test d s x1 x2 x3 x4 :
  ascii_codes s = [x1; x2; x3; x4] ->
  x1 <> 0 -> x2 <> 0 -> x3 <> 0 -> x4 <> 0 ->
  strcmp_eq (brand_of d) s = true
  <-> [byte_at d 8; byte_at d 9; byte_at d 10; byte_at d 11]
      = ascii_codes s.
Proof.
  intros Hs H1 H2 H3 H4. rewrite strcmp_eq_true, Hs.
  now apply four_letter_brand.
Qed.

(** X26.  [isHeif] looks at the length and at bytes 8 to 11 only: it
    holds exactly when the buffer has 12 bytes or more and those four
    bytes spell one of the ten HEIC brands or one of the two AVIF brands;
    [isHeic] and [isAvif] never hold together, and a null buffer is
    neither. *)
Theorem isHeif_reads_the_brand (d : list Z) (len : Z) :
  let brand := [byte_at d 8; byte_at d 9; byte_at d 10; byte_at d 11] in
  (isHeif (Some d) len = true
   <-> 12 <= len
       /\ In brand
            (map ascii_codes
               ["heic"; "heix"; "heim"; "heis"; "mif1";
                "hevc"; "hevx"; "hevm"; "hevs"; "msf1";
                "avif"; "avis"]%string))
  /\ (isAvif (Some d) len = true
      <-> 12 <= len /\ In brand (map ascii_codes ["avif"; "avis"]%string))
  /\ (isHeic (Some d) len = true -> isAvif (Some d) len = false)
  /\ isHeif None len = false.
Proof.
  intros brand.
  assert (Hb : forall s x1 x2 x3 x4,
            ascii_codes s = [x1; x2; x3; x4] ->
            x1 <> 0 -> x2 <> 0 -> x3 <> 0 -> x4 <> 0 ->
            strcmp_eq (brand_of d) s = true <-> brand = ascii_codes s)
    by (intros; now apply brand_test with x1 x2 x3 x4).
  assert (Havif : isAvif (Some d) len = true
                  <-> 12 <= len
                      /\ In brand (map ascii_codes ["avif"; "avis"]%string)).
  { unfold isAvif. destruct (Z.ltb_spec len 12) as [Hlt | Hge].
    - split; [discriminate | lia].
    - rewrite orb_true_iff.
      rewrite (Hb "avif"%string _ _ _ _ eq_refl),
        (Hb "avis"%string _ _ _ _ eq_refl)
        by (vm_compute; discriminate).
      cbn [In map]. intuition congruence. }
  assert (Hheic : isHeic (Some d) len = true
                  <-> 12 <= len
                      /\ In brand
                           (map ascii_codes
                              ["heic"; "heix"; "heim"; "heis"; "mif1";
                               "hevc"; "hevx"; "hevm"; "hevs";
                               "msf1"]%string)).
  { unfold isHeic. destruct (Z.ltb_spec len 12) as [Hlt | Hge].
    - split; [discriminate | lia].
    - cbn [existsb]. rewrite !orb_true_iff.
      rewrite (Hb "heic"%string _ _ _ _ eq_refl),
        (Hb "heix"%string _ _ _ _ eq_refl),
        (Hb "heim"%string _ _ _ _ eq_refl),
        (Hb "heis"%string _ _ _ _ eq_refl),
        (Hb "mif1"%string _ _ _ _ eq_refl),
        (Hb "hevc"%string _ _ _ _ eq_refl),
        (Hb "hevx"%string _ _ _ _ eq_refl),
        (Hb "hevm"%string _ _ _ _ eq_refl),
        (Hb "hevs"%string _ _ _ _ eq_refl),
        (Hb "msf1"%string _ _ _ _ eq_refl)
        by (vm_compute; discriminate).
      cbn [In map].
      split.
      + intros H. split; [exact Hge |].
        repeat (destruct H as [H | H]; [auto 12 |]). discriminate H.
      + intros [_ H].
        repeat (destruct H as [H | H]; [symmetry in H; auto 12 |]).
        contradiction. }
  split; [| split; [exact Havif | split]].
  - unfold isHeif. rewrite orb_true_iff, Hheic, Havif.
    cbn [map In]. tauto.
  - intros Hh. apply not_true_is_false. intros Ha.
    apply Hheic in Hh. apply Havif in Ha.
    destruct Hh as [_ Hh], Ha as [_ Ha].
    cbn [In map] in Hh, Ha.
    destruct Ha as [Ha | [Ha | []]]; rewrite <- Ha in Hh;
      repeat (destruct Hh as [Hh | Hh]; [discriminate Hh |]);
      contradiction.
  - reflexivity.
Qed.

(** ** [resize]: the chroma planes *)



(** ** The checks of the encode entry points *)

Lemma unrecognized_gamut_spec g :
  unrecognized_gamut g = false <-> g <> ULTRAHDR_COLORGAMUT_UNSPECIFIED.
Proof. destruct g; cbn; split; congruence. Qed.

Lemma stride_test_spec (present : bool) stride bound :
  present && (stride <? bound) = false
  <-> present = false \/ bound <= stride.
Proof.
  destruct present; cbn.
  - rewrite Z.ltb_ge. intuition congruence.
  - intuition.
Qed.

Lemma areInputArgumentsValid_spec
  kMinWidth kMinHeight kMaxWidth kMaxHeight p010_ptr yuv_ptr hdr_tf
  dest_ptr :
  0 <= kMinWidth < 2 ^ 64 -> 0 <= kMinHeight < 2 ^ 64 ->
  0 <= kMaxWidth < 2 ^ 64 -> 0 <= kMaxHeight < 2 ^ 64 ->
  areInputArgumentsValid kMinWidth kMinHeight kMaxWidth kMaxHeight
    p010_ptr yuv_ptr hdr_tf dest_ptr = ULTRAHDR_NO_ERROR
  <-> exists p010 dest,
        p010_ptr = Some p010 /\ dest_ptr = Some dest
        /\ data p010 <> None /\ cdata dest <> None
        /\ width p010 mod 2 = 0 /\ height p010 mod 2 = 0
        /\ kMinWidth <= width p010 <= kMaxWidth
        /\ kMinHeight <= height p010 <= kMaxHeight
        /\ colorGamut p010 <> ULTRAHDR_COLORGAMUT_UNSPECIFIED
        /\ (luma_stride p010 = 0 \/ width p010 <= luma_stride p010)
        /\ (chroma_data p010 = None \/ width p010 <= chroma_stride p010)
        /\ (hdr_tf = ULTRAHDR_TF_LINEAR \/ hdr_tf = ULTRAHDR_TF_HLG
            \/ hdr_tf = ULTRAHDR_TF_PQ)
        /\ forall yuv, yuv_ptr = Some yuv ->
             data yuv <> None
             /\ (luma_stride yuv = 0 \/ width yuv <= luma_stride yuv)
             /\ (chroma_data yuv = None
                 \/ width yuv / 2 <= chroma_stride yuv)
             /\ width yuv = width p010 /\ height yuv = height p010
             /\ colorGamut yuv <> ULTRAHDR_COLORGAMUT_UNSPECIFIED.
Proof.
  intros Hminw Hminh Hmaxw Hmaxh. unfold areInputArgumentsValid.
  rewrite !to_size_t_small by assumption.
  split.
  - intros H.
    destruct p010_ptr as [p010 |]; [| discriminate H].
    destruct (data p010) as [pd |] eqn:Epd; [| discriminate H].
    destruct (negb (width p010 mod 2 =? 0) || negb (height p010 mod 2 =? 0))
      eqn:Eodd; [discriminate H |].
    destruct ((width p010 <? kMinWidth) || (height p010 <? kMinHeight))
      eqn:Emin; [discriminate H |].
    destruct ((width p010 >? kMaxWidth) || (height p010 >? kMaxHeight))
      eqn:Emax; [discriminate H |].
    destruct (unrecognized_gamut (colorGamut p010)) eqn:Eg;
      [discriminate H |].
    destruct (negb (luma_stride p010 =? 0)
              && (luma_stride p010 <? width p010)) eqn:Els;
      [discriminate H |].
    destruct (match chroma_data p010 with Some _ => true | None => false end
              && (chroma_stride p010 <? width p010)) eqn:Ecs;
      [discriminate H |].
    destruct dest_ptr as [dest |]; [| discriminate H].
    destruct (cdata dest) as [dd |] eqn:Edd; [| discriminate H].
    exists p010, dest.
    apply orb_false_iff in Eodd, Emin, Emax.
    rewrite !negb_false_iff, !Z.eqb_eq in Eodd.
    rewrite !Z.ltb_ge in Emin. rewrite !Z.gtb_ltb, !Z.ltb_ge in Emax.
    apply unrecognized_gamut_spec in Eg.
    apply stride_test_spec in Els, Ecs.
    rewrite negb_false_iff, Z.eqb_eq in Els.
    split; [reflexivity |]. split; [reflexivity |].
    split; [congruence |]. split; [congruence |].
    split; [tauto |]. split; [tauto |]. split; [lia |]. split; [lia |].
    split; [exact Eg |]. split; [exact Els |].
    split; [destruct (chroma_data p010);
            [right; destruct Ecs; [discriminate | assumption]
            | now left] |].
    split; [destruct hdr_tf; cbn in H; try discriminate H; tauto |].
    intros yuv ->.
    destruct hdr_tf; cbn [tf_value ULTRAHDR_TF_MAX Z.leb Z.gtb Z.eqb
                          Z.compare Pos.compare Pos.compare_cont orb] in H;
      try discriminate H;
      (destruct (data yuv) as [yd |]; [| discriminate H];
       destruct (negb (luma_stride yuv =? 0)
                 && (luma_stride yuv <? width yuv)) eqn:Eyl;
         [discriminate H |];
       destruct (match chroma_data yuv with
                 | Some _ => true
                 | None => false
                 end && (chroma_stride yuv <? width yuv / 2)) eqn:Eyc;
         [discriminate H |];
       destruct (negb (width p010 =? width yuv)
                 || negb (height p010 =? height yuv)) eqn:Esz;
         [discriminate H |];
       destruct (unrecognized_gamut (colorGamut yuv)) eqn:Eyg;
         [discriminate H |];
       apply stride_test_spec in Eyl, Eyc;
       rewrite negb_false_iff, Z.eqb_eq in Eyl;
       apply orb_false_iff in Esz;
       rewrite !negb_false_iff, !Z.eqb_eq in Esz;
       apply unrecognized_gamut_spec in Eyg;
       split; [discriminate |]; split; [exact Eyl |];
       split; [destruct (chroma_data yuv);
               [right; destruct Eyc; [discriminate | assumption]
               | now left] |];
       split; [symmetry; tauto |]; split; [symmetry; tauto |]; exact Eyg).
  - intros (p010 & dest & -> & -> & Hpd & Hdd & Hw2 & Hh2 & Hw & Hh & Hg
            & Hls & Hcs & Htf & Hyuv).
    destruct (data p010); [| congruence].
    destruct (cdata dest); [| congruence].
    rewrite Hw2, Hh2. cbn [Z.eqb negb orb].
    destruct (Z.ltb_spec (width p010) kMinWidth); [lia |].
    destruct (Z.ltb_spec (height p010) kMinHeight); [lia |].
    rewrite (Z.gtb_ltb (width p010)), (Z.gtb_ltb (height p010)).
    destruct (Z.ltb_spec kMaxWidth (width p010)); [lia |].
    destruct (Z.ltb_spec kMaxHeight (height p010)); [lia |].
    cbn [orb].
    rewrite (proj2 (unrecognized_gamut_spec _) Hg).
    assert (Els : negb (luma_stride p010 =? 0)
                  && (luma_stride p010 <? width p010) = false).
    { apply stride_test_spec. rewrite negb_false_iff, Z.eqb_eq. exact Hls. }
    rewrite Els.
    assert (Ecs : match chroma_data p010 with
                  | Some _ => true
                  | None => false
                  end && (chroma_stride p010 <? width p010) = false).
    { apply stride_test_spec.
      destruct Hcs as [-> | Hcs]; [now left | now right]. }
    rewrite Ecs.
    assert (Etf : (tf_value hdr_tf <=? tf_value ULTRAHDR_TF_UNSPECIFIED)
                  || (tf_value hdr_tf >? tf_value ULTRAHDR_TF_MAX)
                  || (tf_value hdr_tf =? tf_value ULTRAHDR_TF_SRGB) = false)
      by (destruct Htf as [-> | [-> | ->]]; reflexivity).
    rewrite Etf.
    destruct yuv_ptr as [yuv |]; [| reflexivity].
    destruct (Hyuv yuv eq_refl) as (Hyd & Hyl & Hyc & Hyw & Hyh & Hyg).
    destruct (data yuv); [| congruence].
    assert (Eyl : negb (luma_stride yuv =? 0)
                  && (luma_stride yuv <? width yuv) = false).
    { apply stride_test_spec. rewrite negb_false_iff, Z.eqb_eq. exact Hyl. }
    rewrite Eyl.
    assert (Eyc : match chroma_data yuv with
                  | Some _ => true
                  | None => false
                  end && (chroma_stride yuv <? width yuv / 2) = false).
    { apply stride_test_spec.
      destruct Hyc as [-> | Hyc]; [now left | now right]. }
    rewrite Eyc, Hyw, Hyh, !Z.eqb_refl. cbn [negb orb].
    now rewrite (proj2 (unrecognized_gamut_spec _) Hyg).
Qed.

(** X28.  What the encode entry points accept.  With the size bounds of
    [jpegr.h] within [size_t], [areInputArgumentsValid] returns NO_ERROR
    exactly when: the quality is within 0..100; the P010 image and the
    destination are non-null with non-null data; width and height are
    even and within the bounds; the gamut is specified; the luma stride
    is 0 or at least the width; the chroma stride is at least the width
    when a chroma pointer is given; the transfer function is LINEAR, HLG
    or PQ; and a YUV 4:2:0 image, if one is passed, has non-null data,
    the P010 image's size, a specified gamut, a luma stride of 0 or at
    least its width and, when it has a chroma pointer, a chroma stride of
    at least half its width.  A quality outside 0..100 is reported before
    anything else is looked at. *)
Theorem areInputArgumentsValid_accepts_exactly
  (kMinWidth kMinHeight kMaxWidth kMaxHeight : Z)
  (p010_ptr yuv_ptr : option ultrahdr_uncompressed_struct)
  (hdr_tf : ultrahdr_transfer_function)
  (dest_ptr : option ultrahdr_compressed_struct) (quality : Z) :
  0 <= kMinWidth < 2 ^ 64 -> 0 <= kMinHeight < 2 ^ 64 ->
  0 <= kMaxWidth < 2 ^ 64 -> 0 <= kMaxHeight < 2 ^ 64 ->
  (areInputArgumentsValid_quality kMinWidth kMinHeight kMaxWidth kMaxHeight
     p010_ptr yuv_ptr hdr_tf dest_ptr quality = ULTRAHDR_NO_ERROR
   <-> 0 <= quality <= 100
       /\ exists p010 dest,
            p010_ptr = Some p010 /\ dest_ptr = Some dest
            /\ data p010 <> None /\ cdata dest <> None
            /\ width p010 mod 2 = 0 /\ height p010 mod 2 = 0
            /\ kMinWidth <= width p010 <= kMaxWidth
            /\ kMinHeight <= height p010 <= kMaxHeight
            /\ colorGamut p010 <> ULTRAHDR_COLORGAMUT_UNSPECIFIED
            /\ (luma_stride p010 = 0 \/ width p010 <= luma_stride p010)
            /\ (chroma_data p010 = None
                \/ width p010 <= chroma_stride p010)
            /\ (hdr_tf = ULTRAHDR_TF_LINEAR \/ hdr_tf = ULTRAHDR_TF_HLG
                \/ hdr_tf = ULTRAHDR_TF_PQ)
            /\ forall yuv, yuv_ptr = Some yuv ->
                 data yuv <> None
                 /\ (luma_stride yuv = 0 \/ width yuv <= luma_stride yuv)
                 /\ (chroma_data yuv = None
                     \/ width yuv / 2 <= chroma_stride yuv)
                 /\ width yuv = width p010 /\ height yuv = height p010
                 /\ colorGamut yuv <> ULTRAHDR_COLORGAMUT_UNSPECIFIED)
  /\ (quality < 0 \/ 100 < quality ->
      areInputArgumentsValid_quality kMinWidth kMinHeight kMaxWidth
        kMaxHeight p010_ptr yuv_ptr hdr_tf dest_ptr quality
      = ERROR_ULTRAHDR_INVALID_QUALITY_FACTOR).
Proof.
  intros Hminw Hminh Hmaxw Hmaxh.
  unfold areInputArgumentsValid_quality. rewrite Z.gtb_ltb.
  destruct (Z.ltb_spec quality 0) as [Hlo | Hlo];
    [split; [split; [discriminate | lia] | reflexivity] |].
  destruct (Z.ltb_spec 100 quality) as [Hhi | Hhi];
    [split; [split; [discriminate | lia] | reflexivity] |].
  cbn [orb]. split; [| lia].
  rewrite (areInputArgumentsValid_spec kMinWidth kMinHeight kMaxWidth
             kMaxHeight p010_ptr yuv_ptr hdr_tf dest_ptr)
    by assumption.
  split; [intros H; split; [lia | exact H] | intros [_ H]; exact H].
Qed.

Lemma areInputArgumentsValid_accepts_exactly_witness :
  let p010 :=
    {| data := Some (mkptr 7 0); width := 320; height := 240;
       colorGamut := ULTRAHDR_COLORGAMUT_BT2100;
       chroma_data := None; luma_stride := 0; chroma_stride := 0;
       pixelFormat := ULTRAHDR_PIX_FMT_P010 |} in
  let dest := mkcompressed (Some []) 0 4096 ULTRAHDR_COLORGAMUT_UNSPECIFIED in
  areInputArgumentsValid_quality 8 8 8192 8192 (Some p010)
    (Some Sample.yuv_320x240) ULTRAHDR_TF_HLG (Some dest) 90
  = ULTRAHDR_NO_ERROR
  /\ areInputArgumentsValid_quality 8 8 8192 8192 (Some p010)
       (Some Sample.yuv_320x240) ULTRAHDR_TF_HLG (Some dest) 101
     = ERROR_ULTRAHDR_INVALID_QUALITY_FACTOR.
Proof.
  intros p010 dest. split.
  - apply (areInputArgumentsValid_accepts_exactly 8 8 8192 8192 (Some p010)
             (Some Sample.yuv_320x240) ULTRAHDR_TF_HLG (Some dest) 90);
      try lia.
    split; [lia |]. exists p010, dest.
    repeat split; try reflexivity; try discriminate; try (cbn; lia);
      try (now left); try (right; now left);
      injection H as <-; try reflexivity; try discriminate; now left.
  - apply (areInputArgumentsValid_accepts_exactly 8 8 8192 8192 (Some p010)
             (Some Sample.yuv_320x240) ULTRAHDR_TF_HLG (Some dest) 101);
      lia.
Defined.

(** ** [copyJpegWithoutExif] *)

(** X29.  [copyJpegWithoutExif] cuts the EXIF package out of a JPEG: for
    a package that lies inside the source ([exif_pos] at least 4, the
    package ending within [length]), the copy holds the source bytes
    before the package's FF marker followed by the bytes after the
    package, its length and maxLength are the source's length less
    [exif_size + 4], and it keeps the source's gamut. *)
Theorem copyJpegWithoutExif_cuts_the_package
  (fresh_bytes : Z -> list Z) (pSource : ultrahdr_compressed_struct)
  (src : list Z) (exif_pos exif_size : Z) :
  (forall n, 0 <= n -> Z.of_nat (List.length (fresh_bytes n)) = n) ->
  cdata pSource = Some src ->
  4 <= exif_pos -> 0 <= exif_size ->
  exif_pos + exif_size <= length pSource ->
  length pSource < 2 ^ 31 ->
  length pSource <= Z.of_nat (List.length src) ->
  exists dest,
    copyJpegWithoutExif fresh_bytes pSource exif_pos exif_size = Returns dest
    /\ cdata dest
       = Some (firstn (Z.to_nat (exif_pos - 4)) src
               ++ firstn (Z.to_nat (length pSource - exif_pos - exif_size))
                    (skipn (Z.to_nat (exif_pos + exif_size)) src))
    /\ length dest = length pSource - exif_size - 4
    /\ maxLength dest = length dest
    /\ ccolorGamut dest = ccolorGamut pSource.
Proof.
  intros Hfresh Hsrc Hpos Hsize Hend Hint Hlen.
  unfold copyJpegWithoutExif. rewrite Hsrc.
  eexists. split; [reflexivity |].
  cbn [cdata length maxLength ccolorGamut].
  assert (E1 : to_size_t (length pSource - exif_size - 4)
               = length pSource - exif_size - 4)
    by (apply to_size_t_small; lia).
  rewrite E1.
  rewrite (to_int_small (length pSource - exif_size - 4)) by lia.
  rewrite E1.
  rewrite !to_size_t_small by lia.
  split; [| repeat split].
  f_equal. unfold memcpy_bytes.
  set (n := length pSource - exif_size - 4).
  set (a := exif_pos - 4).
  set (b := length pSource - exif_pos - exif_size).
  set (junk := fresh_bytes n).
  assert (Hjunk : List.length junk = Z.to_nat n).
  { unfold junk. apply Nat2Z.inj. rewrite Hfresh by (unfold n; lia).
    rewrite Z2Nat.id; [reflexivity | unfold n; lia]. }
  assert (Hn : Z.to_nat n = (Z.to_nat a + Z.to_nat b)%nat)
    by (unfold n, a, b; lia).
  cbn [Z.to_nat firstn skipn app]. rewrite Z.add_0_l.
  assert (Ha : List.length (firstn (Z.to_nat a) src) = Z.to_nat a).
  { rewrite length_firstn. unfold a. lia. }
  rewrite firstn_app, Ha, Nat.sub_diag. cbn [firstn].
  rewrite app_nil_r, firstn_all2 by lia.
  rewrite (skipn_all2 (n := Z.to_nat (a + b)));
    [now rewrite app_nil_r |].
  rewrite length_app, Ha, length_skipn, Hjunk.
  replace (Z.to_nat (a + b)) with (Z.to_nat a + Z.to_nat b)%nat
    by (unfold a, b; lia).
  lia.
Qed.

Lemma copyJpegWithoutExif_cuts_the_package_witness :
  let bytes := [255; 216; 255; 225; 0; 4; 97; 98; 255; 217] in
  let source := mkcompressed (Some bytes) 10 10 ULTRAHDR_COLORGAMUT_P3 in
  exists dest,
    copyJpegWithoutExif (fun n => repeat 0 (Z.to_nat n)) source 6 2
    = Returns dest
    /\ cdata dest = Some [255; 216; 255; 217]
    /\ length dest = 4
    /\ ccolorGamut dest = ULTRAHDR_COLORGAMUT_P3.
Proof.
  intros bytes source.
  destruct (copyJpegWithoutExif_cuts_the_package
              (fun n => repeat 0 (Z.to_nat n)) source bytes 6 2)
    as (dest & Hrun & Hdata & Hlen & _ & Hgamut);
    try reflexivity; try (cbn; lia).
  - intros n Hn. rewrite repeat_length. lia.
  - exists dest. repeat split; assumption.
Defined.

(** ** The pixels of [applyGainMap] *)

Lemma load_store_le_out n m p v q :
  blk q <> blk p \/ off q < off p \/ off p + Z.of_nat n <= off q ->
  load (store_le n m p v) q = load m q.
Proof.
  revert m p v. induction n as [| n IH]; intros m p v Hq; [reflexivity |].
  cbn [store_le]. rewrite IH by (cbn [padd blk off]; lia).
  apply load_store_other. intros E. subst q. lia.
Qed.

(** Byte [j] of a value stored least significant byte first. *)
Lemma load_store_le_in n m p v j :
  0 <= j < Z.of_nat n ->
  load (store_le n m p v) (padd p j) = (v / 2 ^ (8 * j)) mod 2 ^ 8.
Proof.
  revert m p v j. induction n as [| n IH]; intros m p v j Hj; [lia |].
  cbn [store_le].
  destruct (Z.eq_dec j 0) as [-> | Hne].
  - rewrite load_store_le_out by (cbn [padd blk off]; lia).
    replace (padd p 0) with p by (destruct p; unfold padd; cbn; f_equal; lia).
    rewrite load_store_same. now rewrite Z.mul_0_r, Z.div_1_r.
  - replace (padd p j) with (padd (padd p 1) (j - 1))
      by (rewrite padd_padd; f_equal; lia).
    rewrite IH by lia.
    rewrite Z.div_div by lia.
    rewrite <- Z.pow_add_r by lia.
    do 3 f_equal. lia.
Qed.

Lemma word_index_inj n i j i' j' :
  0 <= j < n -> 0 <= j' < n -> n * i + j = n * i' + j' -> i = i' /\ j = j'.
Proof.
  intros Hj Hj' E.
  assert (i = i') by nia. subst i'. split; [reflexivity | lia].
Qed.

(** A plane of [n]-byte words filled row by row with values computed from
    cells of other blocks. *)
Lemma plane_fill_words (n : nat) rows cols base
  (value : mem -> Z -> Z -> Z) m0 :
  0 <= cols ->
  (forall m x y,
     (forall p, blk p <> blk base -> load m p = load m0 p) ->
     value m x y = value m0 x y) ->
  let m' :=
    for_loop (Z.to_nat rows)
      (fun y m =>
         for_loop (Z.to_nat cols)
           (fun x m =>
              store_le n m (padd base (Z.of_nat n * (x + y * cols)))
                (value m x y)) m)
      m0 in
  forall x y j, 0 <= x < cols -> 0 <= y < rows -> 0 <= j < Z.of_nat n ->
    load m' (padd base (Z.of_nat n * (x + y * cols) + j))
    = (value m0 x y / 2 ^ (8 * j)) mod 2 ^ 8.
Proof.
  intros Hcols Hvalue m'.
  set (N := Z.of_nat n).
  assert (Hall :
    (forall y (xj : Z * Z), 0 <= y < Z.of_nat (Z.to_nat rows) ->
       0 <= fst xj < cols /\ 0 <= snd xj < N ->
       load m' (padd base (N * (fst xj + y * cols) + snd xj))
       = (value m0 (fst xj) y / 2 ^ (8 * snd xj)) mod 2 ^ 8)
    /\ (forall p, (forall y (xj : Z * Z),
                     0 <= y < Z.of_nat (Z.to_nat rows) ->
                     0 <= fst xj < cols /\ 0 <= snd xj < N ->
                     padd base (N * (fst xj + y * cols) + snd xj) <> p) ->
          load m' p = load m0 p)).
  { unfold m'.
    apply (for_loop_cells (I := Z * Z)) with
      (src := fun p => blk p <> blk base).
    - intros y [x j] y' [x' j'] Hy [Hx Hj] Hy' [Hx' Hj'] Heq.
      cbn [fst snd] in *. apply padd_inj in Heq.
      apply word_index_inj in Heq; [| lia | lia].
      destruct Heq as [Heq _].
      apply (row_major_inj cols y x y' x'); lia.
    - intros y xj _ _ Hp. apply Hp. reflexivity.
    - intros y m1 Hy Hm1.
      assert (Hrow :
        (forall x (j : Z), 0 <= x < Z.of_nat (Z.to_nat cols) -> 0 <= j < N ->
           load (for_loop (Z.to_nat cols)
                   (fun x m =>
                      store_le n m (padd base (N * (x + y * cols)))
                        (value m x y)) m1)
             (padd base (N * (x + y * cols) + j))
           = (value m0 x y / 2 ^ (8 * j)) mod 2 ^ 8)
        /\ (forall p, (forall x (j : Z),
                         0 <= x < Z.of_nat (Z.to_nat cols) -> 0 <= j < N ->
                         padd base (N * (x + y * cols) + j) <> p) ->
              load (for_loop (Z.to_nat cols)
                      (fun x m =>
                         store_le n m (padd base (N * (x + y * cols)))
                           (value m x y)) m1) p
              = load m1 p)).
      { apply (for_loop_cells (I := Z)) with
          (src := fun p => blk p <> blk base).
        - intros x j x' j' _ Hj _ Hj' Heq. apply padd_inj in Heq.
          apply word_index_inj in Heq; [| lia | lia]. lia.
        - intros x j _ _ Hp. apply Hp. reflexivity.
        - intros x m2 _ Hm2. split.
          + intros j Hj. rewrite <- padd_padd.
            rewrite load_store_le_in by exact Hj.
            rewrite (Hvalue m2 x y); [reflexivity |].
            intros p Hp. rewrite Hm2 by exact Hp. now apply Hm1.
          + intros p Hp.
            destruct (Z.eq_dec (blk p) (blk base)) as [Hb | Hb].
            * apply load_store_le_out. right. cbn [padd off].
              destruct (Z_lt_dec (off p) (off base + N * (x + y * cols)));
                [now left | right].
              destruct (Z_le_dec (off base + N * (x + y * cols) + N)
                          (off p)) as [Hle | Hgt]; [exact Hle |].
              exfalso.
              apply (Hp (off p - (off base + N * (x + y * cols))));
                [unfold N in *; lia |].
              destruct p as [pb po]. unfold padd. cbn in *.
              f_equal; [now symmetry | lia].
            * apply load_store_le_out. left. exact Hb. }
      destruct Hrow as [Rv Rf]. split.
      + intros [x j] [Hx Hj]. cbn [fst snd] in *. apply Rv; lia.
      + intros p Hp. apply Rf. intros x j Hx Hj.
        apply (Hp (x, j)). cbn [fst snd]. lia. }
  destruct Hall as [Hv _].
  intros x y j Hx Hy Hj. apply (Hv y (x, j)); cbn [fst snd]; lia.
Qed.

Section ApplyGainMapPixels.

Variable reported_cores : Z.
Variable Color : Type.
Variable recovered_pixel :
  mem -> ultrahdr_uncompressed_struct -> ultrahdr_uncompressed_struct ->
  ultrahdr_metadata_struct -> F32.float -> Z -> Z -> Z -> Color.
Variable colorToRgbaF16 : Color -> Z.
Variable colorToRgba1010102 : Color -> Z.
Variable hlgOetf pqOetf : Color -> Color.
Variable channels_10bit : Color -> Z * Z * Z.

Let apply :=
  applyGainMap reported_cores Color recovered_pixel colorToRgbaF16
    colorToRgba1010102 hlgOetf pqOetf channels_10bit.

Lemma applyGainMap_pixels m yuv gm md output_format max_display_boost d
  dest_data :
  let bytes :=
    match output_format with ULTRAHDR_OUTPUT_HDR_LINEAR => 8 | _ => 4 end in
  let word c :=
    match output_format with
    | ULTRAHDR_OUTPUT_HDR_LINEAR => colorToRgbaF16 c
    | ULTRAHDR_OUTPUT_HDR_HLG => colorToRgba1010102 (hlgOetf c)
    | _ => colorToRgba1010102 (pqOetf c)
    end in
  let colour :=
    recovered_pixel m yuv gm md
      (F32.min max_display_boost (maxContentBoost md))
      (width yuv / width gm) in
  output_format = ULTRAHDR_OUTPUT_HDR_LINEAR
  \/ output_format = ULTRAHDR_OUTPUT_HDR_HLG
  \/ output_format = ULTRAHDR_OUTPUT_HDR_PQ ->
  data yuv <> None -> chroma_data yuv <> None -> data gm <> None ->
  data d = Some dest_data ->
  supported_metadata md ->
  0 < width gm -> 0 < height gm ->
  0 < width yuv -> 0 < height yuv < 2 ^ 31 ->
  width yuv mod width gm = 0 -> height yuv mod height gm = 0 ->
  width yuv * height gm = height yuv * width gm ->
  width yuv / width gm < 2 ^ 31 ->
  (forall m1 boost scale x y,
     (forall p, blk p <> blk dest_data -> load m1 p = load m p) ->
     recovered_pixel m1 yuv gm md boost scale x y
     = recovered_pixel m yuv gm md boost scale x y) ->
  exists m' d',
    apply m (Some yuv) (Some gm) (Some md) output_format max_display_boost
      (Some d)
    = Returns (ULTRAHDR_NO_ERROR, m', Some d')
    /\ forall x y j,
         0 <= x < width yuv -> 0 <= y < height yuv -> 0 <= j < bytes ->
         load m' (padd dest_data (bytes * (x + y * width yuv) + j))
         = (word (colour x y) / 2 ^ (8 * j)) mod 2 ^ 8.
Proof.
  intros bytes word colour Hfmt Hy Hc Hg Hd (Hv & Hga & Hs & Hh & Hmin & Hmax)
    Hgw Hgh HW HH Hwm Hhm Hratio Hscale Hkernel.
  unfold apply, applyGainMap.
  destruct (data yuv); [| congruence].
  destruct (chroma_data yuv); [| congruence].
  destruct (data gm); [| congruence].
  rewrite Hv, String.eqb_refl, Hga, Hs, Hh, Hmin, Hmax. cbn [negb orb].
  destruct (Z.eqb_spec (width gm) 0); [lia |].
  destruct (Z.eqb_spec (height gm) 0); [lia |].
  rewrite Hwm, Hhm, Hratio, !Z.eqb_refl. cbn [negb]. cbv zeta.
  assert (Hsf : 1 <= width yuv / width gm).
  { apply Z.div_le_lower_bound; [lia |]. rewrite Z.mul_1_r.
    apply Z.divide_pos_le; [lia |]. apply Z.mod_divide; lia. }
  set (rowStep := to_int _).
  assert (Hstep : 0 < rowStep <= Z.max (height yuv) (width yuv / width gm)).
  { unfold rowStep.
    destruct (_ =? 1); rewrite to_int_small by lia; lia. }
  rewrite Hd.
  match goal with
  | |- context [drain_jobs _ _ ?pixel m] =>
      destruct (enqueue_then_drain to_int rowStep (height yuv) (width yuv)
                  pixel m) as (jobs & Hjobs & _ & _ & Hdrain)
  end.
  - intros z Hz. apply to_int_small. lia.
  - lia.
  - lia.
  - rewrite Hjobs, Hdrain. do 2 eexists. split; [reflexivity |].
    unfold emit_pixel, bytes, word, colour.
    destruct Hfmt as [-> | [-> | ->]]; intros x y j Hx Hy' Hj.
    + apply (plane_fill_words 8 (height yuv) (width yuv) dest_data
               (fun m1 x y =>
                  colorToRgbaF16
                    (recovered_pixel m1 yuv gm md
                       (F32.min max_display_boost (maxContentBoost md))
                       (width yuv / width gm) x y)) m);
        try lia.
      intros m1 x' y' Hm1. f_equal. now apply Hkernel.
    + apply (plane_fill_words 4 (height yuv) (width yuv) dest_data
               (fun m1 x y =>
                  colorToRgba1010102
                    (hlgOetf
                       (recovered_pixel m1 yuv gm md
                          (F32.min max_display_boost (maxContentBoost md))
                          (width yuv / width gm) x y))) m);
        try lia.
      intros m1 x' y' Hm1. do 2 f_equal. now apply Hkernel.
    + apply (plane_fill_words 4 (height yuv) (width yuv) dest_data
               (fun m1 x y =>
                  colorToRgba1010102
                    (pqOetf
                       (recovered_pixel m1 yuv gm md
                          (F32.min max_display_boost (maxContentBoost md))
                          (width yuv / width gm) x y))) m);
        try lia.
      intros m1 x' y' Hm1. do 2 f_equal. now apply Hkernel.
Qed.

End ApplyGainMapPixels.

(** X30.  On success with output format HDR_LINEAR, HDR_HLG or HDR_PQ,
    [applyGainMap] has written every pixel of the destination: pixel
    (x, y) occupies 8 bytes (HDR_LINEAR) or 4 bytes (HLG, PQ) at index
    x + y * width, least significant byte first, and holds the packed
    colour of the recovered pixel, [colorToRgbaF16] of it for HDR_LINEAR
    and [colorToRgba1010102] of its HLG or PQ encoding otherwise, computed
    from the SDR image and the gain map as they were before the call,
    whatever the number of worker threads.  The colour kernel is assumed
    to read nothing of the destination's block. *)
Theorem applyGainMap_fills_the_destination
  (reported_cores : Z) (Color : Type)
  (recovered_pixel :
     mem -> ultrahdr_uncompressed_struct -> ultrahdr_uncompressed_struct ->
     ultrahdr_metadata_struct -> F32.float -> Z -> Z -> Z -> Color)
  (colorToRgbaF16 colorToRgba1010102 : Color -> Z)
  (hlgOetf pqOetf : Color -> Color) (channels_10bit : Color -> Z * Z * Z)
  (m : mem) (yuv gm : ultrahdr_uncompressed_struct)
  (md : ultrahdr_metadata_struct)
  (output_format : ultrahdr_output_format) (max_display_boost : F32.float)
  (d : ultrahdr_uncompressed_struct) (dest_data : ptr) :
  let bytes :=
    match output_format with ULTRAHDR_OUTPUT_HDR_LINEAR => 8 | _ => 4 end in
  let word c :=
    match output_format with
    | ULTRAHDR_OUTPUT_HDR_LINEAR => colorToRgbaF16 c
    | ULTRAHDR_OUTPUT_HDR_HLG => colorToRgba1010102 (hlgOetf c)
    | _ => colorToRgba1010102 (pqOetf c)
    end in
  let colour :=
    recovered_pixel m yuv gm md
      (F32.min max_display_boost (maxContentBoost md))
      (width yuv / width gm) in
  output_format = ULTRAHDR_OUTPUT_HDR_LINEAR
  \/ output_format = ULTRAHDR_OUTPUT_HDR_HLG
  \/ output_format = ULTRAHDR_OUTPUT_HDR_PQ ->
  data yuv <> None -> chroma_data yuv <> None -> data gm <> None ->
  data d = Some dest_data ->
  supported_metadata md ->
  0 < width gm -> 0 < height gm ->
  0 < width yuv -> 0 < height yuv < 2 ^ 31 ->
  width yuv mod width gm = 0 -> height yuv mod height gm = 0 ->
  width yuv * height gm = height yuv * width gm ->
  width yuv / width gm < 2 ^ 31 ->
  (forall m1 boost scale x y,
     (forall p, blk p <> blk dest_data -> load m1 p = load m p) ->
     recovered_pixel m1 yuv gm md boost scale x y
     = recovered_pixel m yuv gm md boost scale x y) ->
  exists m' d',
    applyGainMap reported_cores Color recovered_pixel colorToRgbaF16
      colorToRgba1010102 hlgOetf pqOetf channels_10bit m (Some yuv)
      (Some gm) (Some md) output_format max_display_boost (Some d)
    = Returns (ULTRAHDR_NO_ERROR, m', Some d')
    /\ forall x y j,
         0 <= x < width yuv -> 0 <= y < height yuv -> 0 <= j < bytes ->
         load m' (padd dest_data (bytes * (x + y * width yuv) + j))
         = (word (colour x y) / 2 ^ (8 * j)) mod 2 ^ 8.
Proof.
  exact (applyGainMap_pixels reported_cores Color recovered_pixel
           colorToRgbaF16 colorToRgba1010102 hlgOetf pqOetf channels_10bit
           m yuv gm md output_format max_display_boost d dest_data).
Qed.

Lemma applyGainMap_fills_the_destination_witness :
  let m := Sample.heap0 in
  let colour :=
    Sample.recovered_pixel0 m Sample.yuv_4x4 Sample.gainmap_2x2
      Sample.hlg_metadata
      (F32.min (F32.of_Z 4) (maxContentBoost Sample.hlg_metadata)) 2 in
  exists m' d',
    Sample.applyGainMap0 m (Some Sample.yuv_4x4) (Some Sample.gainmap_2x2)
      (Some Sample.hlg_metadata) ULTRAHDR_OUTPUT_HDR_PQ (F32.of_Z 4)
      (Some Sample.blank_dest)
    = Returns (ULTRAHDR_NO_ERROR, m', Some d')
    /\ forall x y j, 0 <= x < 4 -> 0 <= y < 4 -> 0 <= j < 4 ->
         load m' (padd (mkptr 3 0) (4 * (x + y * 4) + j))
         = (colour x y / 2 ^ (8 * j)) mod 2 ^ 8.
Proof.
  apply (applyGainMap_fills_the_destination 4 Z Sample.recovered_pixel0
           (fun c => c) (fun c => c) (fun c => c) (fun c => c)
           (fun c => (c, c, c)) Sample.heap0 Sample.yuv_4x4
           Sample.gainmap_2x2 Sample.hlg_metadata ULTRAHDR_OUTPUT_HDR_PQ
           (F32.of_Z 4) Sample.blank_dest (mkptr 3 0));
    try discriminate; try reflexivity; try (cbn; lia).
  - right. right. reflexivity.
  - repeat split; reflexivity.
  - intros m1 boost scale x y Hm1.
    unfold Sample.recovered_pixel0. cbn [data Sample.gainmap_2x2].
    apply Hm1. discriminate.
Defined.
